(** * Debate orchestration and citation moat: a shallow embedding

    The development follows the Python sources under [src/]:
    - [citation_moat/extractor.py]   (module [Extractor], over [Re] and [PyStr])
    - [citation_moat/web_validator.py], [citation_moat/moat_engine.py]
                                     (modules [WebValidator], [MoatEngine])
    - [engine/scoring.py], [engine/voting.py], [engine/adaptive_debate.py]
                                     (modules [Scoring], [Voting], [AdaptiveDebate])
    - [output/consensus.py]          (module [Consensus])
    - [citation_moat/extractor.py], [extract_with_context]
                                     (module [ExtractorContext])
    - [citation_moat/web_validator.py], the strategies of [validate]
                                     (module [WebSources])
    - [citation_moat/doi_resolver.py], [extract_doi]
                                     (module [DOIResolver])
    - the feedback texts of [engine/scoring.py] and [engine/voting.py]
                                     (module [Feedback])

    Conventions.
    - A Python [str] is a list of code points; the model covers the code
      points below 256 (Latin-1), which [str.lower], [str.isspace] and the
      classes of [re] map into themselves.
    - A Python [float] is modelled by an exact rational ([Q]); the theorems
      below only use the order and the field laws of the numbers involved.
    - The LLM agents, the web validator and the DOI resolver are external
      collaborators.  They are modelled as transitions over an abstract
      world state [W]; an agent call may raise. *)

From Stdlib Require Import List Ascii String ZArith QArith Qminmax Lia Bool Arith PeanoNat.
From Stdlib Require Import Sorting.Sorted.
From Stdlib Require Import Lqa.
From Stdlib Require DecimalString.
Import ListNotations.
Local Open Scope list_scope.
Local Open Scope nat_scope.

Set Implicit Arguments.

(* ================================================================== *)
(** ** Python strings *)

Module PyStr.

Definition str := list ascii.

(** String literals of the sources. *)
Definition lit (s : string) : str := list_ascii_of_string s.

Definition code (c : ascii) : nat := nat_of_ascii c.

Definition in_range (lo hi : nat) (c : ascii) : bool :=
  (lo <=? code c) && (code c <=? hi).

(** [str.isspace] on one code point; also the class [\s] of [re]. *)
Definition isspace (c : ascii) : bool :=
  in_range 9 13 c || in_range 28 32 c || (code c =? 133) || (code c =? 160).

(** The class [\d] of [re]. *)
Definition isdigit (c : ascii) : bool := in_range 48 57 c.

Definition is_ascii_upper (c : ascii) : bool := in_range 65 90 c.
Definition is_ascii_lower (c : ascii) : bool := in_range 97 122 c.
Definition is_ascii_alpha (c : ascii) : bool := is_ascii_upper c || is_ascii_lower c.
Definition is_ascii_alnum (c : ascii) : bool := is_ascii_alpha c || isdigit c.

(** The class [\w] of [re] for [str] patterns: alphanumerics and [_]. *)
Definition isword (c : ascii) : bool :=
  is_ascii_alnum c || (code c =? 95)
  || (code c =? 170) || (code c =? 178) || (code c =? 179) || (code c =? 181)
  || (code c =? 185) || (code c =? 186) || in_range 188 190 c
  || in_range 192 214 c || in_range 216 246 c || in_range 248 255 c.

(** [str.lower] on one code point. *)
Definition lower_char (c : ascii) : ascii :=
  if is_ascii_upper c || (in_range 192 222 c && negb (code c =? 215))
  then ascii_of_nat (code c + 32) else c.

Definition lower (s : str) : str := map lower_char s.

Fixpoint startswith (p s : str) : bool :=
  match p, s with
  | [], _ => true
  | _ :: _, [] => false
  | a :: p', b :: s' => Ascii.eqb a b && startswith p' s'
  end.

(** [p in s]. *)
Fixpoint contains (p s : str) : bool :=
  startswith p s ||
  match s with
  | [] => false
  | _ :: t => contains p t
  end.

(** [s.count(p)] for a non-empty [p]: occurrences counted left to right
    without overlap; [skip] is the number of characters still covered by the
    occurrence found last. *)
Fixpoint count_from (p s : str) (skip : nat) : nat :=
  match s with
  | [] => 0
  | _ :: t =>
      match skip with
      | S k => count_from p t k
      | O => if startswith p s
             then S (count_from p t (List.length p - 1))
             else count_from p t 0
      end
  end.

Definition count (p s : str) : nat := count_from p s 0.

(** [s.split()]: the maximal runs of non-space characters. [cur] is the
    word being read, reversed. *)
Fixpoint split_from (s : str) (cur : str) : list str :=
  match s with
  | [] => match cur with [] => [] | _ => [rev cur] end
  | c :: t =>
      if isspace c
      then match cur with
           | [] => split_from t []
           | _ => rev cur :: split_from t []
           end
      else split_from t (c :: cur)
  end.

Definition split (s : str) : list str := split_from s [].

(** Slices with non-negative bounds: [s[:i]], [s[i:]], [s[i:j]]. *)
Definition upto (i : nat) (s : str) : str := firstn i s.
Definition from (i : nat) (s : str) : str := skipn i s.
Definition slice (i j : nat) (s : str) : str := firstn (j - i) (skipn i s).

(** [s.strip()] and [s.rstrip(chars)]. *)
Fixpoint lstrip_by (p : ascii -> bool) (s : str) : str :=
  match s with
  | c :: t => if p c then lstrip_by p t else s
  | [] => []
  end.

Definition rstrip_by (p : ascii -> bool) (s : str) : str :=
  rev (lstrip_by p (rev s)).

Definition strip (s : str) : str := rstrip_by isspace (lstrip_by isspace s).

(** [s.split(sep)[0]] for a one-character separator. *)
Fixpoint before_sep (sep : ascii) (s : str) : str :=
  match s with
  | [] => []
  | c :: t => if Ascii.eqb c sep then [] else c :: before_sep sep t
  end.

(** [int(s)] on decimal digits surrounded by optional white space; [None]
    stands for [ValueError].  (Signs and digit separators do not occur in
    the strings the extractor passes.) *)
Definition digit_val (c : ascii) : nat := code c - 48.

Definition int_of_str (s : str) : option nat :=
  match strip s with
  | [] => None
  | d => if forallb isdigit d
         then Some (fold_left (fun acc c => 10 * acc + digit_val c) d 0)
         else None
  end.

(** Truth value of an [Optional[str]]: neither [None] nor empty. *)
Definition truthy (o : option str) : bool :=
  match o with
  | Some (_ :: _) => true
  | _ => false
  end.

End PyStr.

(* ================================================================== *)
(** ** Regular expressions: the fragment of [re] the extractor uses *)

Module Re.
Import PyStr.

Inductive re : Type :=
| Chr (p : ascii -> bool)                    (* one character of a class *)
| Eps
| Seq (a b : re)
| Alt (a b : re)
| Rep (a : re) (lo : nat) (hi : option nat)  (* greedy a{lo,hi} *)
| Grp (n : nat) (a : re)                     (* capturing group number n *)
| WordB.                                     (* \b *)

(** Matcher state: position in the subject, the character before it, the
    rest of the subject and the groups captured so far. *)
Record mstate : Type := MState {
  pos : nat;
  prev : option ascii;
  rest : str;
  caps : list (nat * (nat * nat))
}.

Definition advance (c : ascii) (t : str) (s : mstate) : mstate :=
  MState (S (pos s)) (Some c) t (caps s).

Definition set_cap (n : nat) (span : nat * nat) (s : mstate) : mstate :=
  MState (pos s) (prev s) (rest s) ((n, span) :: caps s).

Definition word_before (s : mstate) : bool :=
  match prev s with Some c => isword c | None => false end.

Definition word_after (s : mstate) : bool :=
  match rest s with c :: _ => isword c | [] => false end.

Definition progressed (s s' : mstate) : bool := pos s <? pos s'.

(** Greedy bounded repetition of [step]; the successes are listed in the
    order a backtracking matcher tries them: one more iteration first. An
    iteration that consumes nothing is not repeated. *)
Fixpoint rep (step : mstate -> list mstate) (fuel lo : nat) (hi : option nat)
         (s : mstate) : list mstate :=
  let stop := if lo =? 0 then [s] else [] in
  match fuel with
  | O => stop
  | S f =>
      match hi with
      | Some O => stop
      | _ =>
          flat_map (rep step f (Nat.pred lo) (option_map Nat.pred hi))
                   (filter (progressed s) (step s))
          ++ stop
      end
  end.

(** All ways [r] matches at state [s], in priority order. *)
Fixpoint run (r : re) (s : mstate) : list mstate :=
  match r with
  | Chr p =>
      match rest s with
      | c :: t => if p c then [advance c t s] else []
      | [] => []
      end
  | Eps => [s]
  | Seq a b => flat_map (run b) (run a s)
  | Alt a b => run a s ++ run b s
  | Rep a lo hi => rep (run a) (S (List.length (rest s))) lo hi s
  | Grp n a => map (fun s' => set_cap n (pos s, pos s') s') (run a s)
  | WordB => if xorb (word_before s) (word_after s) then [s] else []
  end.

(** A match object: the subject, the span of group 0, the captured groups. *)
Record rmatch : Type := RMatch {
  m_string : str;
  m_span : nat * nat;
  m_caps : list (nat * (nat * nat))
}.

Definition m_start (m : rmatch) : nat := fst (m_span m).
Definition m_end (m : rmatch) : nat := snd (m_span m).

Fixpoint lookup_cap (n : nat) (cs : list (nat * (nat * nat))) : option (nat * nat) :=
  match cs with
  | [] => None
  | (k, sp) :: t => if k =? n then Some sp else lookup_cap n t
  end.

(** [match.group(n)]; [None] when group [n] took no part in the match. *)
Definition group (m : rmatch) (n : nat) : option str :=
  match n with
  | O => Some (slice (m_start m) (m_end m) (m_string m))
  | _ => match lookup_cap n (m_caps m) with
         | Some (i, j) => Some (slice i j (m_string m))
         | None => None
         end
  end.

(** [match.lastindex]: the number of the group closed last, if any. *)
Definition lastindex (m : rmatch) : option nat :=
  match m_caps m with
  | [] => None
  | (k, _) :: _ => Some k
  end.

(** Number of capturing groups of a pattern, and [match.groups()]. *)
Fixpoint ngroups (r : re) : nat :=
  match r with
  | Chr _ | Eps | WordB => 0
  | Seq a b | Alt a b => ngroups a + ngroups b
  | Rep a _ _ => ngroups a
  | Grp _ a => S (ngroups a)
  end.

Definition groups (r : re) (m : rmatch) : list (option str) :=
  map (fun i => group m (S i)) (seq 0 (ngroups r)).

Definition match_at (r : re) (subject : str) (p : nat) (before : option ascii)
           (suffix : str) : option rmatch :=
  match run r (MState p before suffix []) with
  | s' :: _ => Some (RMatch subject (p, pos s') (caps s'))
  | [] => None
  end.

(** [pattern.finditer(subject)]: leftmost matches, scanning resumes where
    the last match ended; [skip] counts the characters of that match still
    to be passed. *)
Fixpoint scan (r : re) (subject : str) (p : nat) (before : option ascii)
         (suffix : str) (skip : nat) : list rmatch :=
  match suffix with
  | [] =>
      match skip with
      | O => match match_at r subject p before [] with
             | Some m => [m]
             | None => []
             end
      | S _ => []
      end
  | c :: t =>
      match skip with
      | S k => scan r subject (S p) (Some c) t k
      | O =>
          match match_at r subject p before suffix with
          | Some m => m :: scan r subject (S p) (Some c) t (m_end m - p - 1)
          | None => scan r subject (S p) (Some c) t 0
          end
      end
  end.

Definition finditer (r : re) (subject : str) : list rmatch :=
  scan r subject 0 None subject 0.

(** *** Pattern syntax *)

Definition chr (c : ascii) : re := Chr (Ascii.eqb c).
Definition star (a : re) : re := Rep a 0 None.
Definition plus (a : re) : re := Rep a 1 None.
Definition opt (a : re) : re := Rep a 0 (Some 1).
Definition times (a : re) (n : nat) : re := Rep a n (Some n).

Fixpoint word (s : str) : re :=
  match s with
  | [] => Eps
  | [c] => chr c
  | c :: t => Seq (chr c) (word t)
  end.

Definition text (s : string) : re := word (lit s).

Fixpoint seqs (rs : list re) : re :=
  match rs with
  | [] => Eps
  | [r] => r
  | r :: t => Seq r (seqs t)
  end.

Definition one_of (s : string) (c : ascii) : bool :=
  existsb (Ascii.eqb c) (lit s).

End Re.

(* ================================================================== *)
(** ** Stable sorting, as [sorted] and [list.sort] with a key *)

Module PySort.

Section Insertion.
Variable A : Type.
Variable before : A -> A -> bool.

(** [x] comes from a position before every element of [l]: it is placed
    in front of the first element it may precede. *)
Fixpoint insert (x : A) (l : list A) : list A :=
  match l with
  | [] => [x]
  | y :: t => if before x y then x :: l else y :: insert x t
  end.

Fixpoint isort (l : list A) : list A :=
  match l with
  | [] => []
  | x :: t => insert x (isort t)
  end.
End Insertion.

(** [sorted(l, key=key)] and [sorted(l, key=key, reverse=True)]; elements
    with equal keys keep their order in both. *)
Definition sorted_by (A : Type) (key : A -> nat) (l : list A) : list A :=
  isort (fun x y => key x <=? key y) l.

Definition sorted_by_desc (A : Type) (key : A -> nat) (l : list A) : list A :=
  isort (fun x y => key y <=? key x) l.

End PySort.

(* ================================================================== *)
(** ** citation_moat/extractor.py *)

Module Extractor.
Import PyStr Re.

Inductive CitationType : Type :=
| AUTHOR_YEAR | NUMBERED | DOI | URL | UNKNOWN.

Record ExtractedCitation : Type := mkCitation {
  raw_text : str;
  citation_type : CitationType;
  position : nat * nat;
  authors : option str;
  year : option str;
  doi : option str;
  url : option str;
  number : option nat
}.

Definition c_start (c : ExtractedCitation) : nat := fst (position c).
Definition c_end (c : ExtractedCitation) : nat := snd (position c).

Definition to_search_query (c : ExtractedCitation) : str :=
  match doi c, authors c, year c, url c with
  | Some ((_ :: _) as d), _, _, _ => lit "DOI:" ++ d
  | _, Some ((_ :: _) as a), Some ((_ :: _) as y), _ => a ++ lit " " ++ y
  | _, _, _, Some ((_ :: _) as u) => u
  | _, _, _, _ => raw_text c
  end.

(** *** The pattern table [PATTERNS] *)

Definition ws : re := Chr isspace.
Definition digit : re := Chr isdigit.
Definition upper : re := Chr is_ascii_upper.                      (* [A-Z] *)
Definition name_char : re :=                                      (* [a-zA-Z\-] *)
  Chr (fun c => is_ascii_alpha c || one_of "-" c).
Definition doi_char : re :=                                       (* [^\s\]] *)
  Chr (fun c => negb (isspace c || one_of "]" c)).
Definition host_char : re :=                          (* [-a-zA-Z0-9@:%._\+~#=] *)
  Chr (fun c => is_ascii_alnum c || one_of "-@:%._+~#=" c).
Definition tld_char : re :=                                       (* [a-zA-Z0-9()] *)
  Chr (fun c => is_ascii_alnum c || one_of "()" c).
Definition path_char : re :=                   (* [-a-zA-Z0-9()@:%_\+.~#?&//=] *)
  Chr (fun c => is_ascii_alnum c || one_of "-()@:%_+.~#?&/=" c).

(** [[A-Z][a-zA-Z\-]+(?:\s+(?:et\s+al\.?|and\s+[A-Z][a-zA-Z\-]+))?] *)
Definition author_re : re :=
  seqs [upper; plus name_char;
        opt (seqs [plus ws;
                   Alt (seqs [text "et"; plus ws; text "al"; opt (chr ".")])
                       (seqs [text "and"; plus ws; upper; plus name_char])])].

(** [\d{4}[a-z]?] *)
Definition year_re : re := seqs [times digit 4; opt (Chr is_ascii_lower)].

(** [\((author),?\s*(year)\)] *)
Definition author_year_paren : re :=
  seqs [chr "("; Grp 1 author_re; opt (chr ","); star ws; Grp 2 year_re; chr ")"].

(** [(author)\s*\((year)\)] *)
Definition author_then_year : re :=
  seqs [Grp 1 author_re; star ws; chr "("; Grp 2 year_re; chr ")"].

(** [\[(author),?\s*(year)\]] *)
Definition author_year_bracket : re :=
  seqs [chr "["; Grp 1 author_re; opt (chr ","); star ws; Grp 2 year_re; chr "]"].

(** [\[(G)\]] with G = [\d+(?:\s*[-,]\s*\d+)*], the group 1 *)
Definition numbered_re : re :=
  seqs [chr "[";
        Grp 1 (seqs [plus digit;
                     star (seqs [star ws; Chr (one_of "-,"); star ws; plus digit])]);
        chr "]"].

(** [(?:doi:|DOI:|https?://doi\.org/)(\d+\.\d+/[^\s\]]+)] *)
Definition doi_prefixed : re :=
  seqs [Alt (text "doi:")
            (Alt (text "DOI:")
                 (seqs [text "http"; opt (chr "s"); text "://doi"; chr "."; text "org/"]));
        Grp 1 (seqs [plus digit; chr "."; plus digit; chr "/"; plus doi_char])].

(** [10\.\d{4,}/[^\s\]]+] *)
Definition doi_bare : re :=
  seqs [text "10"; chr "."; Rep digit 4 None; chr "/"; plus doi_char].

(** [https?://(?:www\.)?[...]{1,256}\.[a-zA-Z0-9()]{1,6}\b[...]*] *)
Definition url_re : re :=
  seqs [text "http"; opt (chr "s"); text "://"; opt (seqs [text "www"; chr "."]);
        Rep host_char 1 (Some 256); chr "."; Rep tld_char 1 (Some 6); WordB;
        star path_char].

(** The dictionary in its insertion order. *)
Definition PATTERNS : list (CitationType * list re) :=
  [ (AUTHOR_YEAR, [author_year_paren; author_then_year; author_year_bracket]);
    (NUMBERED, [numbered_re]);
    (DOI, [doi_prefixed; doi_bare]);
    (URL, [url_re]) ].

Definition or_empty (o : option str) : str :=
  match o with Some s => s | None => [] end.

Definition _create_citation (r : re) (m : rmatch) (ctype : CitationType)
  : ExtractedCitation :=
  let raw := or_empty (group m 0) in
  let citation := mkCitation raw ctype (m_span m) None None None None None in
  match ctype with
  | AUTHOR_YEAR =>
      match groups r m with
      | g0 :: g1 :: _ =>
          mkCitation raw ctype (m_span m) g0 g1 None None None
      | _ => citation
      end
  | NUMBERED =>
      let first := before_sep "-" (before_sep "," (or_empty (group m 1))) in
      mkCitation raw ctype (m_span m) None None None None (int_of_str first)
  | DOI =>
      let doi_text :=
        match lastindex m with
        | Some (S _ as k) => or_empty (group m k)
        | _ => raw
        end in
      mkCitation raw ctype (m_span m) None None
                 (Some (rstrip_by (Ascii.eqb ".") (strip doi_text))) None None
  | URL => mkCitation raw ctype (m_span m) None None None (Some raw) None
  | UNKNOWN => citation
  end.

Definition _priority (c : ExtractedCitation) : nat :=
  match citation_type c with
  | DOI => 4
  | AUTHOR_YEAR => 3
  | NUMBERED => 2
  | URL => 1
  | UNKNOWN => 0
  end.

(** One iteration of the loop of [_deduplicate]; the list [result] of the
    source is [kept ++ [last]]. *)
Definition dedup_step (acc : list ExtractedCitation * ExtractedCitation)
           (citation : ExtractedCitation)
  : list ExtractedCitation * ExtractedCitation :=
  let (kept, last) := acc in
  if c_end last <=? c_start citation then (kept ++ [last], citation)
  else if c_end last <? c_end citation then
    if _priority last <? _priority citation then (kept, citation)
    else (kept, last)
  else (kept, last).

Definition _deduplicate (citations : list ExtractedCitation)
  : list ExtractedCitation :=
  match PySort.sorted_by c_start citations with
  | [] => []
  | first :: others =>
      let (kept, last) := fold_left dedup_step others ([], first) in
      kept ++ [last]
  end.

Definition scan_all (text : str) : list ExtractedCitation :=
  flat_map (fun entry : CitationType * list re =>
              let (ctype, patterns) := entry in
              flat_map (fun pattern =>
                          map (fun m => _create_citation pattern m ctype)
                              (finditer pattern text))
                       patterns)
           PATTERNS.

Definition extract_all (text : str) : list ExtractedCitation :=
  PySort.sorted_by c_start (_deduplicate (scan_all text)).

End Extractor.

(* ================================================================== *)
(** ** Effects: world-state passing with exceptions *)

Module Eff.

(** The exceptions the modelled code meets; all are subclasses of
    [Exception]. [External] is whatever an agent call raises. *)
Inductive exn : Type :=
| ZeroDivisionError
| AttributeError
| External (info : PyStr.str).

Inductive outcome (A : Type) : Type :=
| Returned (a : A)
| Raised (e : exn).
Arguments Raised {A} e.

Definition M (W A : Type) : Type := W -> outcome A * W.

Definition ret {W A : Type} (a : A) : M W A := fun w => (Returned a, w).

Definition raise {W A : Type} (e : exn) : M W A := fun w => (Raised e, w).

Definition bind {W A B : Type} (m : M W A) (k : A -> M W B) : M W B :=
  fun w =>
    match m w with
    | (Returned a, w') => k a w'
    | (Raised e, w') => (Raised e, w')
    end.

(** [try: body  except Exception: handler]. *)
Definition try_except {W A : Type} (body : M W A) (handler : exn -> M W A) : M W A :=
  fun w =>
    match body w with
    | (Returned a, w') => (Returned a, w')
    | (Raised e, w') => handler e w'
    end.

(** A call that cannot raise. *)
Definition call {W A : Type} (f : W -> A * W) : M W A :=
  fun w => let (a, w') := f w in (Returned a, w').

Definition lift_outcome {W A : Type} (o : outcome A) : M W A := fun w => (o, w).

Declare Scope eff_scope.
Delimit Scope eff_scope with eff.
Notation "x <- m ;; k" := (bind m (fun x => k))
  (at level 61, m at next level, right associativity) : eff_scope.
Notation "' p <- m ;; k" := (bind m (fun x => let 'p := x in k))
  (at level 61, p pattern, m at next level, right associativity) : eff_scope.

End Eff.

(* ================================================================== *)
(** ** citation_moat/web_validator.py and doi_resolver.py: the data *)

Module WebValidator.
Import PyStr.

Inductive ValidationStatus : Type :=
| VERIFIED | PARTIAL_MATCH | NOT_FOUND | ERROR | PENDING.

Definition status_eqb (a b : ValidationStatus) : bool :=
  match a, b with
  | VERIFIED, VERIFIED | PARTIAL_MATCH, PARTIAL_MATCH | NOT_FOUND, NOT_FOUND
  | ERROR, ERROR | PENDING, PENDING => true
  | _, _ => false
  end.

Record ValidationResult : Type := mkValidation {
  status : ValidationStatus;
  confidence : Q;
  source : option str;
  matched_title : option str;
  matched_url : option str;
  matched_doi : option str;
  error_message : option str;
  search_queries_used : list str
}.

(** The fields of [DOIMetadata] the moat copies into its report. *)
Record DOIMetadata : Type := mkDOIMetadata {
  title : option str;
  authors : list str;
  year : option Z;
  resolved : bool
}.

End WebValidator.

(* ================================================================== *)
(** ** citation_moat/moat_engine.py *)

Module MoatEngine.
Import PyStr Extractor WebValidator Eff.
Local Open Scope eff_scope.

Inductive MoatDecision : Type := KEEP | MODIFY | DELETE | FLAG.

Record CitationVerification : Type := mkVerification {
  original_citation : ExtractedCitation;
  decision : MoatDecision;
  agent_a_verified : bool;
  agent_b_verified : bool;
  web_validation : option ValidationResult;
  doi_metadata : option DOIMetadata;
  alternative_source : option str;
  reason : str;
  confidence : Q
}.

Record MoatReport : Type := mkReport {
  total_citations : Z;
  verified_count : Z;
  modified_count : Z;
  deleted_count : Z;
  flagged_count : Z;
  verifications : list CitationVerification;
  clean_text : str
}.

Definition verification_rate (r : MoatReport) : Q :=
  if (total_citations r =? 0)%Z then 100%Q
  else ((inject_Z (verified_count r) / inject_Z (total_citations r)) * 100)%Q.

Section Engine.
Variable W : Type.

(** What the moat asks of an agent: [verify_citation(claim, citation)],
    observed through [response.content]. *)
Record CitationAgent : Type := mkAgent {
  verify_citation : str -> str -> M W str
}.

(** [CitationMoatEngine]; [validate] and [resolve] are the methods of its
    [web_validator] and [doi_resolver], which catch their own errors. *)
Record CitationMoatEngine : Type := mkEngine {
  proponent : option CitationAgent;
  reviewer : option CitationAgent;
  strict_mode : bool;
  validate : str -> option str -> option str -> W -> ValidationResult * W;
  resolve : str -> W -> DOIMetadata * W
}.

Variable self : CitationMoatEngine.

Definition web_verified (web_result : ValidationResult) : bool :=
  status_eqb (status web_result) VERIFIED.

Definition _agent_verify (agent : CitationAgent) (citation : ExtractedCitation)
           (web_result : ValidationResult) : M W bool :=
  try_except
    (content <- verify_citation agent (raw_text citation) (to_search_query citation) ;;
     let content := lower content in
     ret (contains (lit "verified") content
          || contains (lit "valid") content
          || contains (lit "confirmed") content))
    (fun _ => ret (web_verified web_result)).

Definition _make_decision (verification : CitationVerification)
  : outcome (MoatDecision * str) :=
  match web_validation verification with
  | None => Raised AttributeError
  | Some web =>
      let web_status := status web in
      let agent_a := agent_a_verified verification in
      let agent_b := agent_b_verified verification in
      (* Not found *)
      let not_found :=
        if strict_mode self then
          Returned (DELETE, lit "Cannot verify source, strict mode enabled")
        else Returned (FLAG, lit "Cannot verify source, flagged for review") in
      (* Both agents agree it's verified *)
      if agent_a && agent_b && status_eqb web_status VERIFIED then
        Returned (KEEP, lit "Both agents verified, web source found")
      (* Partial match - might need modification *)
      else if status_eqb web_status PARTIAL_MATCH then
        if agent_a || agent_b then
          Returned (MODIFY, lit "Partial match found, needs correction")
        else Returned (FLAG, lit "Partial match, needs review")
      (* Web verified but agents disagree *)
      else if status_eqb web_status VERIFIED then
        if agent_a && negb agent_b then
          Returned (FLAG, lit "Agent A verified, Agent B disagrees")
        else if agent_b && negb agent_a then
          Returned (FLAG, lit "Agent B verified, Agent A disagrees")
        else if negb agent_a && negb agent_b then
          Returned (FLAG, lit "Web verified but both agents uncertain")
        else not_found
      else not_found
  end.

Definition _calculate_confidence (verification : CitationVerification) : Q :=
  let web : Q :=
    match web_validation verification with
    | Some r =>
        if status_eqb (status r) VERIFIED then 40%Q
        else if status_eqb (status r) PARTIAL_MATCH then 20%Q
        else 0%Q
    | None => 0%Q
    end in
  let a : Q := if agent_a_verified verification then 30%Q else 0%Q in
  let b : Q := if agent_b_verified verification then 30%Q else 0%Q in
  (0 + web + a + b)%Q.

Definition _verify_single_citation (citation : ExtractedCitation)
  : M W CitationVerification :=
  (* Step 1: web validation *)
  web_result <- call (validate self (to_search_query citation)
                               (doi citation) (url citation)) ;;
  (* Step 2: DOI resolution if available *)
  metadata <- match doi citation with
              | Some ((_ :: _) as d) =>
                  call (fun w => let (md, w') := resolve self d w in (Some md, w'))
              | _ => ret None
              end ;;
  (* Step 3: agent verification, or the web result without an agent *)
  agent_a <- match proponent self with
             | Some agent => _agent_verify agent citation web_result
             | None => ret (web_verified web_result)
             end ;;
  agent_b <- match reviewer self with
             | Some agent => _agent_verify agent citation web_result
             | None => ret (web_verified web_result)
             end ;;
  (* Step 4: decision and confidence *)
  let verification :=
    mkVerification citation DELETE agent_a agent_b (Some web_result)
                   metadata None [] 0%Q in
  '(d, why) <- lift_outcome (_make_decision verification) ;;
  let verification :=
    mkVerification citation d agent_a agent_b (Some web_result)
                   metadata None why 0%Q in
  ret (mkVerification citation d agent_a agent_b (Some web_result)
                      metadata None why (_calculate_confidence verification)).

Fixpoint _verify_citations (citations : list ExtractedCitation)
  : M W (list CitationVerification) :=
  match citations with
  | [] => ret []
  | citation :: others =>
      verification <- _verify_single_citation citation ;;
      verifications <- _verify_citations others ;;
      ret (verification :: verifications)
  end.

Definition v_start (v : CitationVerification) : nat :=
  c_start (original_citation v).
Definition v_end (v : CitationVerification) : nat :=
  c_end (original_citation v).

(** One iteration of the loop of [_generate_clean_text]. *)
Definition rewrite_step (clean_text : str) (v : CitationVerification) : str :=
  let start := v_start v in
  let end_ := v_end v in
  match decision v, alternative_source v with
  | DELETE, _ =>
      upto start clean_text ++ lit "[CITATION REMOVED]" ++ from end_ clean_text
  | MODIFY, Some ((_ :: _) as alternative) =>
      upto start clean_text ++ alternative ++ from end_ clean_text
  | FLAG, _ =>
      upto start clean_text ++ lit "[NEEDS REVIEW: "
        ++ slice start end_ clean_text ++ lit "]" ++ from end_ clean_text
  | _, _ => clean_text
  end.

Definition _generate_clean_text (original_text : str)
           (verifications : list CitationVerification) : str :=
  fold_left rewrite_step (PySort.sorted_by_desc v_start verifications)
            original_text.

(** One iteration of the counting loop of [verify_text]. *)
Definition count_step (report : MoatReport) (v : CitationVerification)
  : MoatReport :=
  match decision v with
  | KEEP =>
      mkReport (total_citations report) (verified_count report + 1)
               (modified_count report) (deleted_count report)
               (flagged_count report) (verifications report) (clean_text report)
  | MODIFY =>
      mkReport (total_citations report) (verified_count report)
               (modified_count report + 1) (deleted_count report)
               (flagged_count report) (verifications report) (clean_text report)
  | DELETE =>
      mkReport (total_citations report) (verified_count report)
               (modified_count report) (deleted_count report + 1)
               (flagged_count report) (verifications report) (clean_text report)
  | FLAG =>
      mkReport (total_citations report) (verified_count report)
               (modified_count report) (deleted_count report)
               (flagged_count report + 1) (verifications report) (clean_text report)
  end.

Definition set_clean_text (report : MoatReport) (t : str) : MoatReport :=
  mkReport (total_citations report) (verified_count report)
           (modified_count report) (deleted_count report)
           (flagged_count report) (verifications report) t.

Definition set_verifications (report : MoatReport)
           (vs : list CitationVerification) : MoatReport :=
  mkReport (total_citations report) (verified_count report)
           (modified_count report) (deleted_count report)
           (flagged_count report) vs (clean_text report).

Definition verify_text (text : str) : M W MoatReport :=
  let citations := extract_all text in
  let report := mkReport (Z.of_nat (List.length citations)) 0 0 0 0 [] [] in
  match citations with
  | [] => ret (set_clean_text report text)
  | _ :: _ =>
      verifications <- _verify_citations citations ;;
      let report := set_verifications report verifications in
      let report := fold_left count_step verifications report in
      ret (set_clean_text report (_generate_clean_text text verifications))
  end.

End Engine.

End MoatEngine.

(* ================================================================== *)
(** ** engine/scoring.py *)

Module Scoring.
Import PyStr MoatEngine.
Local Open Scope Q_scope.

Record RoundScore : Type := mkRoundScore {
  accuracy : Q;      (* 25% *)
  evidence : Q;      (* 25% *)
  logic : Q;         (* 20% *)
  methodology : Q;   (* 15% *)
  clarity : Q        (* 15% *)
}.

Definition total_score (s : RoundScore) : Q :=
  (accuracy s * 0.25 + evidence s * 0.25 + logic s * 0.20
   + methodology s * 0.15 + clarity s * 0.15) * 100.

(** [sum(1 for m in markers if m in text)] *)
Definition marker_count (markers : list string) (text : str) : nat :=
  List.length (filter (fun m => contains (lit m) text) markers).

Definition of_nat (n : nat) : Q := inject_Z (Z.of_nat n).

(** [min(1.0, max(0.0, score))] *)
Definition clamp01 (score : Q) : Q := Qmin 1 (Qmax 0 score).

Definition _score_accuracy (citation_report : option MoatReport)
           (reviewer_response : str) : Q :=
  let score :=
    match citation_report with
    | Some report => verification_rate report / 100
    | None => 0.5
    end in
  let reviewer_lower := lower reviewer_response in
  let score :=
    if contains (lit "inaccurate") reviewer_lower
       || contains (lit "incorrect") reviewer_lower
    then score * 0.7
    else if contains (lit "accurate") reviewer_lower
            || contains (lit "correct") reviewer_lower
    then Qmin 1 (score * 1.2)
    else score in
  clamp01 score.

Definition _score_evidence (proponent_response : str)
           (citation_report : option MoatReport) : Q :=
  let score :=
    match citation_report with
    | Some report =>
        if (0 <? total_citations report)%Z then
          let verified_ratio :=
            inject_Z (verified_count report) / inject_Z (total_citations report) in
          0.3 + verified_ratio * 0.7
        else 0.2
    | None => 0.5
    end in
  let response_lower := lower proponent_response in
  let evidence_markers :=
    ["study shows"; "research indicates"; "evidence suggests";
     "data demonstrates"]%string in
  let score := score + of_nat (marker_count evidence_markers response_lower) * 0.05 in
  clamp01 score.

Definition _score_logic (proponent_response reviewer_response : str) : Q :=
  let score := 0.6 in
  let response_lower := lower proponent_response in
  let reviewer_lower := lower reviewer_response in
  let logic_words :=
    ["therefore"; "because"; "thus"; "consequently"; "hence";
     "follows that"]%string in
  let score := score + of_nat (marker_count logic_words response_lower) * 0.05 in
  let fallacy_indicators :=
    ["fallacy"; "non sequitur"; "circular"; "strawman"; "ad hominem"]%string in
  let score := score - of_nat (marker_count fallacy_indicators reviewer_lower) * 0.15 in
  clamp01 score.

Definition _score_methodology (proponent_response : str) : Q :=
  let score := 0.6 in
  let response_lower := lower proponent_response in
  let method_markers :=
    ["methodology"; "systematic"; "peer-reviewed"; "replicated";
     "controlled"]%string in
  let score := score + of_nat (marker_count method_markers response_lower) * 0.08 in
  let score :=
    if contains (lit "limitation") response_lower
       || contains (lit "caveat") response_lower
    then score + 0.1 else score in
  clamp01 score.

Definition _score_clarity (proponent_response : str) : Q :=
  let score := 0.7 in
  let word_count := List.length (split proponent_response) in
  let score :=
    if (1000 <? word_count)%nat then score - 0.1
    else if (word_count <? 100)%nat then score - 0.1
    else score in
  let structure_markers :=
    ["first"; "second"; "finally"; "in conclusion"; "to summarize"]%string in
  let score :=
    score + of_nat (marker_count structure_markers (lower proponent_response)) * 0.05 in
  clamp01 score.

Definition score_round (proponent_response reviewer_response : str)
           (citation_report : option MoatReport) : RoundScore :=
  mkRoundScore (_score_accuracy citation_report reviewer_response)
               (_score_evidence proponent_response citation_report)
               (_score_logic proponent_response reviewer_response)
               (_score_methodology proponent_response)
               (_score_clarity proponent_response).

End Scoring.

(* ================================================================== *)
(** ** engine/voting.py *)

Module Voting.
Import PyStr.
Local Open Scope Q_scope.

Inductive VoteStatus : Type := PASS | FAIL | ABSTAIN.

(** The per-criterion and overall feedback texts are display strings built
    from formatted floats; they are left out of the records. *)
Record CriterionVote : Type := mkVote {
  criterion : string;
  score : Q;   (* 0-100 *)
  status : VoteStatus
}.

Record VotingResult : Type := mkVotingResult {
  passed : bool;
  weighted_average : Q;
  criterion_scores : list (string * Q);   (* a dict, in insertion order *)
  criterion_votes : list CriterionVote;
  voting_rounds : nat
}.

Definition get_failed_criteria (r : VotingResult) (threshold : Q) : list string :=
  map fst (filter (fun cs => negb (Qle_bool threshold (snd cs)))
                  (criterion_scores r)).

(** The settings read with [os.getenv]; [None] for an unset variable. *)
Record Environ : Type := mkEnviron {
  MAX_DEBATE_ROUNDS : option Z;
  QUALITY_THRESHOLD : option Q;
  VOTING_PASS_THRESHOLD : option Q;
  MAX_RETRIES : option Z
}.

Definition getenv {A : Type} (setting : option A) (default : A) : A :=
  match setting with Some v => v | None => default end.

(** [x or default] for an optional number: [None] and zero are false. *)
Definition or_Z (x : option Z) (default : Z) : Z :=
  match x with
  | Some v => if (v =? 0)%Z then default else v
  | None => default
  end.

Definition or_Q (x : option Q) (default : Q) : Q :=
  match x with
  | Some v => if Qeq_bool v 0 then default else v
  | None => default
  end.

Record VotingEngine : Type := mkVotingEngine {
  pass_threshold : Q;
  max_retries : Z
}.

(** [VotingEngine.__init__] *)
Definition init (env : Environ) (pass_threshold : option Q) (max_retries : option Z)
  : VotingEngine :=
  mkVotingEngine (or_Q pass_threshold (getenv (VOTING_PASS_THRESHOLD env) 75))
                 (or_Z max_retries (getenv (MAX_RETRIES env) 3%Z)).

(** [CRITERIA]: name, weight, question. *)
Definition CRITERIA : list (string * (Q * string)) :=
  [ ("accuracy", (0.25, "Does the claim match cited evidence?"));
    ("evidence", (0.25, "Are sources credible and relevant?"));
    ("logic", (0.20, "Is the reasoning valid?"));
    ("methodology", (0.15, "Is the approach sound?"));
    ("clarity", (0.15, "Is it clearly expressed?")) ]%string.

Definition of_nat (n : nat) : Q := inject_Z (Z.of_nat n).

Definition marker_count (markers : list string) (text : str) : nat :=
  List.length (filter (fun m => contains (lit m) text) markers).

Definition _analyze_criterion (criterion : string) (position : str) : Q :=
  let position_lower := lower position in
  let base_score := 60 in
  let base_score :=
    if String.eqb criterion "accuracy" then
      let base_score :=
        if contains (lit "[verified]") position_lower
           || contains (lit "confirmed") position_lower
        then base_score + 20 else base_score in
      let base_score :=
        if contains (lit "citation removed") position_lower
        then base_score - 15 else base_score in
      if contains (lit "[claim:") position_lower
         && contains (lit "[citation:") position_lower
      then base_score + 10 else base_score
    else if String.eqb criterion "evidence" then
      let citation_count :=
        (count (lit "[citation:") position_lower
         + count (lit "doi:") position_lower
         + count (lit "http") position_lower)%nat in
      base_score + of_nat (Nat.min (citation_count * 5) 25)
    else if String.eqb criterion "logic" then
      let logic_markers :=
        ["therefore"; "because"; "thus"; "hence"; "consequently"]%string in
      let count := marker_count logic_markers position_lower in
      let base_score := base_score + of_nat (Nat.min (count * 5) 20) in
      if contains (lit "fallacy") position_lower
         || contains (lit "invalid") position_lower
      then base_score - 10 else base_score
    else if String.eqb criterion "methodology" then
      let method_markers :=
        ["systematic"; "peer-reviewed"; "methodology"; "analysis"]%string in
      let count := marker_count method_markers position_lower in
      base_score + of_nat (Nat.min (count * 5) 20)
    else if String.eqb criterion "clarity" then
      let structure_markers :=
        ["first,"; "second,"; "finally,"; "in summary"]%string in
      let count := marker_count structure_markers position_lower in
      let base_score := base_score + of_nat (Nat.min (count * 5) 15) in
      if (5000 <? List.length position)%nat && (count <? 2)%nat
      then base_score - 10 else base_score
    else base_score in
  Qmin 100 (Qmax 0 base_score).

Definition Qge_bool (a b : Q) : bool := Qle_bool b a.

Section Engine.
Variable self : VotingEngine.

Definition _vote_criterion (criterion question : string) (position : str)
  : CriterionVote :=
  let score := _analyze_criterion criterion position in
  let status :=
    if Qge_bool score (pass_threshold self) then PASS
    else if Qge_bool score (pass_threshold self * 0.7) then ABSTAIN
    else FAIL in
  mkVote criterion score status.

Definition weight_of (criterion : string) : Q :=
  match find (fun entry => String.eqb (fst entry) criterion) CRITERIA with
  | Some (_, (weight, _)) => weight
  | None => 0
  end.

(** [dict[key] = value]: a present key keeps its place. *)
Fixpoint dict_set (d : list (string * Q)) (key : string) (value : Q)
  : list (string * Q) :=
  match d with
  | [] => [(key, value)]
  | (k, v) :: t =>
      if String.eqb k key then (k, value) :: t
      else (k, v) :: dict_set t key value
  end.

Definition vote (position : str) : VotingResult :=
  let '(votes, criterion_scores) :=
    fold_left
      (fun (acc : list CriterionVote * list (string * Q))
           (entry : string * (Q * string)) =>
         let '(votes, scores) := acc in
         let '(criterion, (_, question)) := entry in
         let vote := _vote_criterion criterion question position in
         (votes ++ [vote], dict_set scores criterion (score vote)))
      CRITERIA ([], []) in
  let weighted_avg :=
    fold_left Qplus
              (map (fun cs => snd cs * weight_of (fst cs)) criterion_scores) 0 in
  mkVotingResult (Qge_bool weighted_avg (pass_threshold self))
                 weighted_avg criterion_scores votes (List.length votes).

End Engine.

End Voting.

(* ================================================================== *)
(** ** engine/adaptive_debate.py *)

Module AdaptiveDebate.
Import PyStr Eff MoatEngine Scoring Voting.
Local Open Scope eff_scope.

Inductive DebateStatus : Type :=
| NOT_STARTED | IN_PROGRESS | CONVERGED | MAX_ROUNDS_REACHED
| CONSENSUS_REACHED | DEADLOCK.

Definition status_eqb (a b : DebateStatus) : bool :=
  match a, b with
  | NOT_STARTED, NOT_STARTED | IN_PROGRESS, IN_PROGRESS | CONVERGED, CONVERGED
  | MAX_ROUNDS_REACHED, MAX_ROUNDS_REACHED
  | CONSENSUS_REACHED, CONSENSUS_REACHED | DEADLOCK, DEADLOCK => true
  | _, _ => false
  end.

Record DebateRound : Type := mkRound {
  round_number : Z;
  proponent_response : str;
  reviewer_response : str;
  proponent_claims : list str;
  reviewer_critiques : list str;
  round_score : option RoundScore;
  citation_report : option MoatReport
}.

Record DebateResult : Type := mkResult {
  status : DebateStatus;
  total_rounds : nat;
  final_position : str;
  final_score : Q;
  voting_result : option VotingResult;
  rounds : list DebateRound;
  consensus_points : list str;
  disputed_points : list str;
  re_evaluations : Z
}.

(** The revision prompt of [_request_revision], by the values it is
    formatted from. *)
Record RevisionPrompt : Type := mkPrompt {
  failed_criteria : list string;
  prompt_position : str;
  prompt_vote : VotingResult
}.

Definition str_of_Z (z : Z) : str :=
  lit (DecimalString.NilZero.string_of_int (Z.to_int z)).

(** [sum(l)] and [len(l)] as numbers. *)
Definition Qsum (l : list Q) : Q := fold_left Qplus l 0%Q.
Definition Qlen (l : list Q) : Q := inject_Z (Z.of_nat (List.length l)).

Definition variance (scores : list Q) : Q :=
  let avg := (Qsum scores / Qlen scores)%Q in
  (Qsum (map (fun s => (s - avg) * (s - avg)) scores) / Qlen scores)%Q.

Definition Qlt_bool (a b : Q) : bool := negb (Qle_bool b a).

Section Engine.
Variable W : Type.

(** The agents, through the [content] of their responses. *)
Record ProponentAgent : Type := mkProponent {
  generate_initial_position : str -> option str -> M W str;
  respond_to_critique : str -> str -> M W str;
  provide_final_position : M W str;
  generate_response : RevisionPrompt -> M W str;
  proponent_citations : CitationAgent W
}.

Record ReviewerAgent : Type := mkReviewer {
  review_position : str -> option str -> M W str;
  reviewer_citations : CitationAgent W
}.

Record AdaptiveDebateEngine : Type := mkDebateEngine {
  proponent : ProponentAgent;
  reviewer : ReviewerAgent;
  max_rounds : Z;
  quality_threshold : Q;
  convergence_rounds : Z;
  voting_engine : VotingEngine;
  citation_moat : CitationMoatEngine W
}.

(** [AdaptiveDebateEngine.__init__]; [validate] and [resolve] stand for the
    validator and the resolver the moat creates. *)
Definition init (env : Environ)
           (validate : str -> option str -> option str
                       -> W -> WebValidator.ValidationResult * W)
           (resolve : str -> W -> WebValidator.DOIMetadata * W)
           (proponent : ProponentAgent) (reviewer : ReviewerAgent)
           (max_rounds : option Z) (quality_threshold : option Q)
           (convergence_rounds : Z) : AdaptiveDebateEngine :=
  mkDebateEngine proponent reviewer
    (or_Z max_rounds (getenv (MAX_DEBATE_ROUNDS env) 20%Z))
    (or_Q quality_threshold (getenv (QUALITY_THRESHOLD env) 85%Q))
    convergence_rounds
    (Voting.init env None None)
    (mkEngine (Some (proponent_citations proponent))
              (Some (reviewer_citations reviewer))
              true validate resolve).

Variable self : AdaptiveDebateEngine.

Definition _check_convergence (recent_scores : list Q) : outcome bool :=
  if (Z.of_nat (List.length recent_scores) <? convergence_rounds self)%Z
  then Returned false
  else match recent_scores with
       | [] => Raised ZeroDivisionError
       | _ :: _ => Returned (Qlt_bool (variance recent_scores) 25%Q)
       end.

Definition _run_voting (position : str) : VotingResult :=
  vote (voting_engine self) position.

Definition _request_revision (current_position : str)
           (voting_result : VotingResult) : M W str :=
  let failed_criteria :=
    map fst (filter (fun cs => Qlt_bool (snd cs) (pass_threshold (voting_engine self)))
                    (criterion_scores voting_result)) in
  generate_response (proponent self)
                    (mkPrompt failed_criteria current_position voting_result).

(** [rounds[-3:]] *)
Definition last3 (A : Type) (l : list A) : list A :=
  skipn (List.length l - 3) l.

Definition _extract_points (rounds : list DebateRound) : list str * list str :=
  fold_left
    (fun (acc : list str * list str) (round : DebateRound) =>
       let (consensus, disputed) := acc in
       let content := lower (proponent_response round) in
       let consensus :=
         if contains (lit "agree") content || contains (lit "concede") content
         then consensus ++ [lit "Round " ++ str_of_Z (round_number round)
                             ++ lit ": Agreement reached"]
         else consensus in
       let disputed :=
         if contains (lit "disagree") content || contains (lit "dispute") content
         then disputed ++ [lit "Round " ++ str_of_Z (round_number round)
                            ++ lit ": Dispute continues"]
         else disputed in
       (consensus, disputed))
    (last3 rounds) ([], []).

(** The variables of [run_debate] that the round loop updates. *)
Record LoopState : Type := mkLoop {
  l_status : DebateStatus;
  l_rounds : list DebateRound;
  l_round_num : Z;
  l_position : str;
  l_recent_scores : list Q
}.

(** The body of the round loop up to the recording of the round. *)
Definition play_round (round_num : Z) (current_position : str)
           (context : option str) : M W (DebateRound * RoundScore) :=
  review <- review_position (reviewer self) current_position context ;;
  defense <- respond_to_critique (proponent self) review current_position ;;
  let combined_text := defense ++ lit (String "010" EmptyString) ++ review in
  citation_report <- verify_text (citation_moat self) combined_text ;;
  let round_score := score_round defense review (Some citation_report) in
  ret (mkRound round_num defense review [] [] (Some round_score)
               (Some citation_report), round_score).

(** [while round_num < self.max_rounds: ...]; [fuel] bounds the number of
    iterations and is never used up when it starts at [max_rounds]. *)
Fixpoint round_loop (fuel : nat) (context : option str) (st : LoopState)
  : M W LoopState :=
  if (l_round_num st <? max_rounds self)%Z then
    match fuel with
    | O => ret st
    | S fuel' =>
        let round_num := (l_round_num st + 1)%Z in
        '(debate_round, round_score) <-
           play_round round_num (l_position st) context ;;
        let rounds := l_rounds st ++ [debate_round] in
        let current_position := proponent_response debate_round in
        (* Check for convergence *)
        let recent_scores := l_recent_scores st ++ [total_score round_score] in
        let recent_scores :=
          if (convergence_rounds self <? Z.of_nat (List.length recent_scores))%Z
          then tl recent_scores else recent_scores in
        converged <- lift_outcome (_check_convergence recent_scores) ;;
        if converged then
          ret (mkLoop CONVERGED rounds round_num current_position recent_scores)
        (* Check for quality threshold *)
        else if Qge_bool (total_score round_score) (quality_threshold self)
                && (convergence_rounds self <=? Z.of_nat (List.length recent_scores))%Z
                && forallb (fun s => Qge_bool s (quality_threshold self)) recent_scores
        then
          ret (mkLoop CONSENSUS_REACHED rounds round_num current_position
                      recent_scores)
        else
          round_loop fuel' context
                     (mkLoop (l_status st) rounds round_num current_position
                             recent_scores)
    end
  else ret st.

(** The variables the re-evaluation loop updates. *)
Record VoteState : Type := mkVoteState {
  v_position : str;
  v_result : VotingResult;
  v_re_evaluations : Z
}.

(** [while not voting_result.passed and re_evaluations < 3: ...] *)
Fixpoint revote_loop (fuel : nat) (st : VoteState) : M W VoteState :=
  if negb (passed (v_result st)) && (v_re_evaluations st <? 3)%Z then
    match fuel with
    | O => ret st
    | S fuel' =>
        let re_evaluations := (v_re_evaluations st + 1)%Z in
        revision_response <- _request_revision (v_position st) (v_result st) ;;
        let current_position := revision_response in
        revote_loop fuel'
                    (mkVoteState current_position (_run_voting current_position)
                                 re_evaluations)
    end
  else ret st.

Definition run_debate (question : str) (context : option str) : M W DebateResult :=
  (* Step 1: initial position *)
  initial <- generate_initial_position (proponent self) question context ;;
  (* Step 2: debate rounds *)
  st <- round_loop (Z.to_nat (max_rounds self)) context
                   (mkLoop IN_PROGRESS [] 0 initial []) ;;
  let status :=
    if status_eqb (l_status st) IN_PROGRESS then MAX_ROUNDS_REACHED
    else l_status st in
  (* Steps 3 and 4: voting and re-evaluation *)
  vs <- revote_loop 3 (mkVoteState (l_position st) (_run_voting (l_position st)) 0) ;;
  (* Step 5: final position *)
  final <- provide_final_position (proponent self) ;;
  let (consensus, disputed) := _extract_points (l_rounds st) in
  ret (mkResult status (List.length (l_rounds st)) final
                (weighted_average (v_result vs)) (Some (v_result vs))
                (l_rounds st) consensus disputed (v_re_evaluations vs)).

End Engine.

End AdaptiveDebate.

(* ================================================================== *)
(** ** output/consensus.py *)

Module Consensus.
Import PyStr MoatEngine Voting AdaptiveDebate.
Local Open Scope Q_scope.

(** [verified_claims] (a list made from a set, in no fixed order) and
    [summary] (formatted floats) are left out. *)
Record Consensus : Type := mkConsensus {
  verdict : str;
  confidence : Q;
  rejected_claims : list str;
  remaining_disputes : list str
}.

Definition _determine_verdict (debate_result : DebateResult)
           (voting_result : option VotingResult) : str :=
  let failed :=
    match voting_result with
    | Some v => negb (passed v)
    | None => false
    end in
  if failed then lit "REJECTED"
  else if status_eqb (status debate_result) CONSENSUS_REACHED then
    if Qge_bool (final_score debate_result) 85 then lit "VALIDATED"
    else lit "PARTIALLY VALIDATED"
  else if status_eqb (status debate_result) CONVERGED then
    if Qge_bool (final_score debate_result) 75 then lit "PARTIALLY VALIDATED"
    else lit "NEEDS REVISION"
  else if status_eqb (status debate_result) DEADLOCK then lit "INCONCLUSIVE"
  else lit "PARTIALLY VALIDATED".

Definition _calculate_confidence (debate_result : DebateResult)
           (voting_result : option VotingResult) : Q :=
  let confidence := final_score debate_result in
  let confidence :=
    match voting_result with
    | Some v => (confidence + weighted_average v) / 2
    | None => confidence
    end in
  let penalty := inject_Z (re_evaluations debate_result * 5) in
  Qmax 0 (confidence - penalty).

Definition _extract_rejected_claims (debate_result : DebateResult) : list str :=
  flat_map
    (fun round =>
       match citation_report round with
       | Some report =>
           flat_map
             (fun v =>
                match decision v with
                | DELETE =>
                    [Extractor.raw_text (original_citation v)
                     ++ lit " - Reason: " ++ reason v]
                | _ => []
                end)
             (verifications report)
       | None => []
       end)
    (rounds debate_result).

Definition generate (debate_result : DebateResult)
           (voting_result : option VotingResult) : Consensus :=
  mkConsensus (_determine_verdict debate_result voting_result)
              (_calculate_confidence debate_result voting_result)
              (_extract_rejected_claims debate_result)
              (disputed_points debate_result).

End Consensus.

(* ================================================================== *)
(** ** Scripted collaborators, for running the engines on examples *)

Module Scripted.
Import PyStr Eff WebValidator MoatEngine AdaptiveDebate.

(** The world counts the calls made to the collaborators. *)
Definition W : Type := nat.

Definition say (s : string) : M W str := fun w => (Returned (lit s), S w).

Definition failing : M W str :=
  fun w => (Raised (External (lit "backend unavailable")), S w).

Definition web (s : ValidationStatus) (query : str) (doi url : option str)
  : W -> ValidationResult * W :=
  fun w => (mkValidation s 0%Q None None None None None [query], S w).

Definition unresolved (doi : str) : W -> DOIMetadata * W :=
  fun w => (mkDOIMetadata None [] None false, S w).

Definition answering (s : string) : CitationAgent W :=
  mkAgent (fun _ _ => say s).

Definition broken : CitationAgent W := mkAgent (fun _ _ => failing).

(** A proponent and a reviewer that always give the same answers. *)
Definition proponent (position revision : string) : ProponentAgent W :=
  mkProponent (fun _ _ => say position) (fun _ _ => say position)
              (say position) (fun _ => say revision)
              (answering "Unverified").

Definition reviewer (critique : string) : ReviewerAgent W :=
  mkReviewer (fun _ _ => say critique) (answering "Unverified").

Definition moat (a b : CitationAgent W) (s : ValidationStatus) (strict : bool)
  : CitationMoatEngine W :=
  mkEngine (Some a) (Some b) strict (web s) unresolved.

Definition doi_text : str := lit "see https://doi.org/10.1234/x".

End Scripted.

(* ================================================================== *)
(** ** Agents that change their answer, for running a debate to consensus *)

Module Staged.
Import PyStr Eff WebValidator MoatEngine AdaptiveDebate.

(** A proponent that defends its opening position tersely and every later
    position with a structured argument. *)
Definition proponent (opening terse structured : string)
  : ProponentAgent Scripted.W :=
  mkProponent (fun _ _ => Scripted.say opening)
              (fun _ position =>
                 if startswith (lit opening) position
                 then Scripted.say terse else Scripted.say structured)
              (Scripted.say structured) (fun _ => Scripted.say structured)
              (Scripted.answering "Unverified").

Definition structured : string :=
  "First, the methodology is systematic, peer-reviewed, replicated and controlled. Second, because the data are clear, it follows that the claim holds; thus, hence and consequently, therefore. Finally, to summarize and in conclusion, one limitation remains.".

End Staged.

(* ================================================================== *)
(** ** citation_moat/extractor.py: citations with their context *)

Module ExtractorContext.
Import PyStr Extractor.

(** The place a slice bound [i] denotes in a sequence of length [n]: a
    negative bound counts from the end, and every bound is cut to the
    sequence. *)
Definition bound (n : nat) (i : Z) : nat :=
  if (i <? 0)%Z then Z.to_nat (Z.max 0 (i + Z.of_nat n))
  else Nat.min (Z.to_nat i) n.

(** [s[start:stop]] for integers of either sign. *)
Definition slice_Z (start stop : Z) (s : str) : str :=
  slice (bound (List.length s) start) (bound (List.length s) stop) s.

Definition extract_with_context (text : str) (context_chars : Z)
  : list (ExtractedCitation * str) :=
  map (fun citation =>
         let start := Z.max 0 (Z.of_nat (c_start citation) - context_chars) in
         let end_ := Z.min (Z.of_nat (List.length text))
                           (Z.of_nat (c_end citation) + context_chars) in
         (citation, slice_Z start end_ text))
      (extract_all text).

End ExtractorContext.

(* ================================================================== *)
(** ** citation_moat/web_validator.py: the validation strategies *)

Module WebSources.
Import PyStr Re Eff WebValidator.
Local Open Scope eff_scope.

(** The first entry of a Semantic Scholar answer, by the keys read from it. *)
Record Paper : Type := mkPaper {
  paper_title : option str;
  paper_url : option str;
  paper_doi : option str
}.

(** The first item of a CrossRef answer: the list under "title", if the key
    is present, and the value under "DOI". *)
Record Work : Type := mkWork {
  work_title : option (list str);
  work_DOI : option str
}.

(** [re.search]: the first match [finditer] yields. *)
Definition search (r : re) (subject : str) : option rmatch :=
  match finditer r subject with
  | m :: _ => Some m
  | [] => None
  end.

Definition not_lt (c : ascii) : bool := negb (Ascii.eqb c "<").

(** [<title>([^<]+)</title>] and [<id>(http[^<]+)</id>] *)
Definition title_pattern : re :=
  seqs [text "<title>"; Grp 1 (plus (Chr not_lt)); text "</title>"].

Definition id_pattern : re :=
  seqs [text "<id>"; Grp 1 (Seq (text "http") (plus (Chr not_lt))); text "</id>"].

Section Validator.
Variable W : Type.

(** The requests of the validator. Each may raise; it yields the status of
    the response and what the code reads from a response of status 200: the
    final URL of a HEAD request, the list under "data" of Semantic Scholar,
    the list under "message"/"items" of CrossRef, the body of arXiv. *)
Record Network : Type := mkNetwork {
  head : str -> M W (Z * str);
  get_semantic_scholar : str -> M W (Z * list Paper);
  get_crossref : str -> M W (Z * list Work);
  get_arxiv : str -> M W (Z * str)
}.

Variable net : Network.

(** [try: body  except Exception: pass], where [body] either returns a
    result from inside the [try] or falls through. *)
Definition attempt (body : M W (option ValidationResult))
  : W -> option ValidationResult * W :=
  fun w =>
    match body w with
    | (Returned found, w') => (found, w')
    | (Raised _, w') => (None, w')
    end.

Definition or_else (found : option ValidationResult) (fallback : ValidationResult)
  : ValidationResult :=
  match found with
  | Some result => result
  | None => fallback
  end.

Definition _validate_doi (doi : str) (w : W) : ValidationResult * W :=
  let queries := [lit "DOI: " ++ doi] in
  let (found, w) :=
    attempt
      (let url := lit "https://doi.org/" ++ doi in
       '(status, response_url) <- head net url ;;
       if (status =? 200)%Z then
         ret (Some (mkValidation VERIFIED 100 (Some (lit "DOI.org")) None
                                 (Some response_url) (Some doi) None queries))
       else ret None) w in
  (or_else found
           (mkValidation NOT_FOUND 0 None None None None
                         (Some (lit "DOI not resolved: " ++ doi)) queries), w).

Definition _validate_url (url : str) (w : W) : ValidationResult * W :=
  let queries := [lit "URL: " ++ url] in
  let (found, w) :=
    attempt
      ('(status, _) <- head net url ;;
       if (status =? 200)%Z then
         ret (Some (mkValidation VERIFIED 90 (Some (lit "Direct URL")) None
                                 (Some url) None None queries))
       else if (status =? 403)%Z then
         (* Paywall or restricted *)
         ret (Some (mkValidation PARTIAL_MATCH 70
                                 (Some (lit "Direct URL (restricted)")) None
                                 (Some url) None None queries))
       else ret None) w in
  (or_else found (mkValidation NOT_FOUND 0 None None None None None queries), w).

Definition _search_semantic_scholar (query : str) (w : W) : ValidationResult * W :=
  let queries := [lit "Semantic Scholar: " ++ query] in
  let (found, w) :=
    attempt
      ('(status, papers) <- get_semantic_scholar net query ;;
       if (status =? 200)%Z then
         match papers with
         | paper :: _ =>
             ret (Some (mkValidation VERIFIED 85 (Some (lit "Semantic Scholar"))
                                     (paper_title paper) (paper_url paper)
                                     (paper_doi paper) None queries))
         | [] => ret None
         end
       else ret None) w in
  (or_else found (mkValidation NOT_FOUND 0 None None None None None queries), w).

Definition _search_crossref (query : str) (w : W) : ValidationResult * W :=
  let queries := [lit "CrossRef: " ++ query] in
  let (found, w) :=
    attempt
      ('(status, items) <- get_crossref net query ;;
       if (status =? 200)%Z then
         match items with
         | item :: _ =>
             title <- match work_title item with
                      | None => ret []
                      | Some (t :: _) => ret t
                      | Some [] =>
                          raise (External (lit "IndexError: list index out of range"))
                      end ;;
             let doi := work_DOI item in
             ret (Some (mkValidation VERIFIED 85 (Some (lit "CrossRef"))
                                     (Some title)
                                     (match doi with
                                      | Some ((_ :: _) as d) =>
                                          Some (lit "https://doi.org/" ++ d)
                                      | _ => None
                                      end)
                                     doi None queries))
         | [] => ret None
         end
       else ret None) w in
  (or_else found (mkValidation NOT_FOUND 0 None None None None None queries), w).

Definition _search_arxiv (query : str) (w : W) : ValidationResult * W :=
  let queries := [lit "arXiv: " ++ query] in
  let (found, w) :=
    attempt
      ('(status, body) <- get_arxiv net (lit "all:" ++ query) ;;
       if (status =? 200)%Z then
         (* Simple XML parsing for title *)
         let title_match := search title_pattern body in
         let link_match := search id_pattern body in
         match title_match with
         | Some m =>
             match group m 1 with
             | Some title =>
                 if negb (contains (lit "arxiv") (lower title)) then
                   ret (Some (mkValidation VERIFIED 80 (Some (lit "arXiv"))
                                           (Some title)
                                           (match link_match with
                                            | Some l => group l 1
                                            | None => None
                                            end)
                                           None None queries))
                 else ret None
             | None => raise AttributeError
             end
         | None => ret None
         end
       else ret None) w in
  (or_else found (mkValidation NOT_FOUND 0 None None None None None queries), w).

(** [result.search_queries_used = search_queries] *)
Definition set_queries (result : ValidationResult) (search_queries : list str)
  : ValidationResult :=
  mkValidation (status result) (confidence result) (source result)
               (matched_title result) (matched_url result) (matched_doi result)
               (error_message result) search_queries.

Definition validate (query : str) (doi url : option str) (w : W)
  : ValidationResult * W :=
  let searches (search_queries : list str) (w : W) : ValidationResult * W :=
    (* Try Semantic Scholar *)
    let (result, w) := _search_semantic_scholar query w in
    let search_queries := search_queries ++ search_queries_used result in
    if status_eqb (status result) VERIFIED then (set_queries result search_queries, w)
    else
      (* Try CrossRef *)
      let (result, w) := _search_crossref query w in
      let search_queries := search_queries ++ search_queries_used result in
      if status_eqb (status result) VERIFIED
      then (set_queries result search_queries, w)
      else
        let not_found (search_queries : list str) :=
          mkValidation NOT_FOUND 0 None None None None
                       (Some (lit "Citation not found in any source: " ++ query))
                       search_queries in
        (* Try arXiv for preprints *)
        if contains (lit "arxiv") (lower query)
           || negb (status_eqb (status result) VERIFIED)
        then
          let (arxiv_result, w) := _search_arxiv query w in
          let search_queries := search_queries ++ search_queries_used arxiv_result in
          if status_eqb (status arxiv_result) VERIFIED
          then (set_queries arxiv_result search_queries, w)
          else (not_found search_queries, w)
        else (not_found search_queries, w) in
  let from_url (search_queries : list str) (w : W) : ValidationResult * W :=
    (* Try direct URL if available *)
    match url with
    | Some ((_ :: _) as u) =>
        let (result, w) := _validate_url u w in
        if status_eqb (status result) VERIFIED then (result, w)
        else searches (search_queries ++ search_queries_used result) w
    | _ => searches search_queries w
    end in
  (* Try DOI first if available *)
  match doi with
  | Some ((_ :: _) as d) =>
      let (result, w) := _validate_doi d w in
      if status_eqb (status result) VERIFIED then (result, w)
      else from_url ([] ++ search_queries_used result) w
  | _ => from_url [] w
  end.

End Validator.

End WebSources.

(* ================================================================== *)
(** ** engine/scoring.py and engine/voting.py: the feedback texts *)

Module Feedback.
Import PyStr Scoring Voting.
Local Open Scope Q_scope.

(** [sep.join(l)] *)
Fixpoint join (sep : str) (l : list str) : str :=
  match l with
  | [] => []
  | [x] => x
  | x :: t => x ++ sep ++ join sep t
  end.

Definition Qlt_bool (a b : Q) : bool := negb (Qle_bool b a).

(** The list [feedback] of [ScoringSystem.generate_feedback] before it is
    joined. *)
Definition feedback_of (score : RoundScore) : list str :=
  let feedback := [] in
  let feedback :=
    if Qlt_bool (accuracy score) 0.6
    then feedback ++ [lit "Accuracy needs improvement. Verify factual claims."]
    else feedback in
  let feedback :=
    if Qlt_bool (evidence score) 0.6
    then feedback
         ++ [lit "Evidence is weak. Add more citations from credible sources."]
    else feedback in
  let feedback :=
    if Qlt_bool (logic score) 0.6
    then feedback
         ++ [lit "Logical coherence is lacking. Strengthen argument structure."]
    else feedback in
  let feedback :=
    if Qlt_bool (methodology score) 0.6
    then feedback ++ [lit "Methodology concerns. Be more rigorous in approach."]
    else feedback in
  let feedback :=
    if Qlt_bool (clarity score) 0.6
    then feedback
         ++ [lit "Clarity needs work. Simplify and structure your response."]
    else feedback in
  match feedback with
  | [] => [lit "Good performance across all criteria."]
  | _ => feedback
  end.

Definition generate_feedback (score : RoundScore) : str :=
  join (lit " ") (feedback_of score).

(** [str.capitalize] on a string whose first character is ASCII, as the
    names of the criteria are. *)
Definition capitalize (s : str) : str :=
  match s with
  | [] => []
  | c :: t => (if is_ascii_lower c then ascii_of_nat (code c - 32) else c) :: lower t
  end.

(** [VotingEngine._criterion_feedback] *)
Definition _criterion_feedback (criterion : string) (score : Q) : str :=
  if Qge_bool score 85 then capitalize (lit criterion) ++ lit ": Excellent"
  else if Qge_bool score 75 then capitalize (lit criterion) ++ lit ": Good"
  else if Qge_bool score 60
       then capitalize (lit criterion) ++ lit ": Needs improvement"
  else capitalize (lit criterion) ++ lit ": Significant issues".

End Feedback.

(* ================================================================== *)
(** ** citation_moat/doi_resolver.py: finding a DOI in a text *)

Module DOIResolver.
Import PyStr Re Extractor.

(** A letter of a pattern compiled with [re.IGNORECASE]. *)
Definition ci (c : ascii) : re :=
  Chr (fun x => Ascii.eqb (lower_char x) (lower_char c)).

Fixpoint ci_word (s : str) : re :=
  match s with
  | [] => Eps
  | [c] => ci c
  | c :: t => Seq (ci c) (ci_word t)
  end.

Definition ci_text (s : string) : re := ci_word (lit s).

(** [doi:?\s*(10\.\d{4,}/[^\s\]]+)]; the bare pattern is that of the
    extractor, [10\.\d{4,}/[^\s\]]+]. *)
Definition doi_labelled : re :=
  seqs [ci_text "doi"; opt (chr ":"); star ws; Grp 1 doi_bare].

(** [https?://doi\.org/(10\.\d{4,}/[^\s\]]+)] *)
Definition doi_link : re :=
  seqs [ci_text "http"; opt (ci "s"); ci_text "://doi"; chr "."; ci_text "org/";
        Grp 1 doi_bare].

Definition patterns : list re := [doi_bare; doi_labelled; doi_link].

(** The characters of [doi.rstrip('.,;:)...')]: full stop, comma, semicolon,
    colon, closing parenthesis and the two quotation marks. *)
Definition trailing (c : ascii) : bool :=
  one_of ".,;:)'" c || Ascii.eqb c "034".

Fixpoint first_doi (patterns : list re) (text : str) : option str :=
  match patterns with
  | [] => None
  | pattern :: others =>
      match WebSources.search pattern text with
      | Some m =>
          let doi :=
            match lastindex m with
            | Some (S _) => or_empty (group m 1)
            | _ => or_empty (group m 0)
            end in
          (* Clean up common trailing characters *)
          Some (rstrip_by trailing doi)
      | None => first_doi others text
      end
  end.

Definition extract_doi (text : str) : option str := first_doi patterns text.

End DOIResolver.

(* ================================================================== *)
(** ** A scripted network *)

Module ScriptedNet.
Import PyStr Eff WebValidator WebSources.

(** Every HEAD request is answered with [head_status]; the searches find
    nothing. *)
Definition answering (head_status : Z) : Network Scripted.W :=
  mkNetwork (fun url w => (Returned (head_status, url), S w))
            (fun _ w => (Returned (200%Z, []), S w))
            (fun _ w => (Returned (200%Z, []), S w))
            (fun _ w => (Raised (External (lit "timeout")), S w)).

End ScriptedNet.

(* ================================================================== *)
(** * Properties *)

(** ** Running monadic code *)

Module EffFacts.
Import Eff.

Lemma bind_returned (W A B : Type) (m : M W A) (k : A -> M W B) (w w1 : W) (a : A) :
  m w = (Returned a, w1) -> bind m k w = k a w1.
Proof. intros H. unfold bind. rewrite H. reflexivity. Qed.

Lemma bind_raised (W A B : Type) (m : M W A) (k : A -> M W B) (w w1 : W) (e : exn) :
  m w = (Raised e, w1) -> bind m k w = (Raised e, w1).
Proof. intros H. unfold bind. rewrite H. reflexivity. Qed.

Lemma bind_inv (W A B : Type) (m : M W A) (k : A -> M W B) (w w' : W) (b : B) :
  bind m k w = (Returned b, w') ->
  exists a w1, m w = (Returned a, w1) /\ k a w1 = (Returned b, w').
Proof.
  unfold bind. destruct (m w) as [[a|e] w1]; [eauto | discriminate].
Qed.

(** A computation that returns from every world. *)
Definition total (W A : Type) (m : M W A) : Prop :=
  forall w, exists a w', m w = (Returned a, w').

End EffFacts.

(** ** The citation moat: decisions, counts, verification rate *)

Module MoatFacts.
Import PyStr Extractor WebValidator Eff MoatEngine.

(** The decision table of the specification, row by row. *)
Definition table_decision (strict : bool) (web_status : ValidationStatus)
           (agent_a agent_b : bool) : MoatDecision :=
  match web_status with
  | VERIFIED => if agent_a && agent_b then KEEP else FLAG
  | PARTIAL_MATCH => if agent_a || agent_b then MODIFY else FLAG
  | NOT_FOUND | ERROR | PENDING => if strict then DELETE else FLAG
  end.

Section Engine.
Variable W : Type.
Variable self : CitationMoatEngine W.

Lemma _make_decision_table (v : CitationVerification) (web : ValidationResult) :
  web_validation v = Some web ->
  exists why,
    _make_decision self v
    = Returned (table_decision (strict_mode self) (WebValidator.status web)
                               (agent_a_verified v) (agent_b_verified v), why).
Proof.
  intros Hweb. unfold _make_decision. rewrite Hweb.
  destruct (WebValidator.status web), (agent_a_verified v), (agent_b_verified v),
    (strict_mode self); cbn; eauto.
Qed.

Lemma _agent_verify_returns (agent : CitationAgent W) (c : ExtractedCitation)
      (web : ValidationResult) (w : W) :
  exists b w', _agent_verify agent c web w = (Returned b, w').
Proof.
  unfold _agent_verify, try_except, bind, ret.
  destruct (verify_citation agent (raw_text c) (to_search_query c) w) as [[content|e] w1];
    eauto.
Qed.

(** What [_verify_single_citation] hands back for a citation. *)
Definition verified_as (c : ExtractedCitation) (v : CitationVerification) : Prop :=
  original_citation v = c
  /\ alternative_source v = None
  /\ exists web,
      web_validation v = Some web
      /\ decision v = table_decision (strict_mode self) (WebValidator.status web)
                                     (agent_a_verified v) (agent_b_verified v).

Lemma _verify_single_citation_returns (c : ExtractedCitation) (w : W) :
  exists v w', _verify_single_citation self c w = (Returned v, w') /\ verified_as c v.
Proof.
  unfold _verify_single_citation, bind, call, ret, lift_outcome.
  destruct (validate self (to_search_query c) (doi c) (url c) w) as [web w1].
  destruct (doi c) as [[|x d]|]; destruct (proponent self) as [pa|];
    destruct (reviewer self) as [ra|];
    repeat match goal with
      | |- context [resolve ?s ?d ?w] => destruct (resolve s d w) as [? ?]
      | |- context [_agent_verify ?a ?c ?web ?w] =>
          let H := fresh in
          destruct (_agent_verify_returns a c web w) as (? & ? & H); rewrite H
      end;
    match goal with
    | |- context [_make_decision self ?v] =>
        let H := fresh in
        destruct (@_make_decision_table v web eq_refl) as (why & H); rewrite H
    end;
    do 2 eexists; (split; [reflexivity|]);
    repeat split; cbn; eauto.
Qed.

Lemma _verify_citations_returns (cs : list ExtractedCitation) (w : W) :
  exists vs w',
    _verify_citations self cs w = (Returned vs, w') /\ Forall2 verified_as cs vs.
Proof.
  revert w. induction cs as [|c cs IH]; intros w; cbn.
  - unfold ret. eauto.
  - unfold bind.
    destruct (_verify_single_citation_returns c w) as (v & w1 & -> & Hv).
    destruct (IH w1) as (vs & w2 & -> & Hvs).
    unfold ret. eauto.
Qed.

(** The shape of every report. *)
Lemma verify_text_returns (text : str) (w : W) :
  exists vs w',
    Forall2 verified_as (extract_all text) vs
    /\ verify_text self text w
       = (Returned
            (set_clean_text
               (fold_left (@count_step)
                  vs
                  (mkReport (Z.of_nat (List.length (extract_all text))) 0 0 0 0 vs []))
               (_generate_clean_text text vs)), w').
Proof.
  unfold verify_text.
  destruct (extract_all text) as [|c cs] eqn:E.
  - exists [], w. split; [constructor|]. reflexivity.
  - unfold bind.
    destruct (_verify_citations_returns (c :: cs) w) as (vs & w1 & -> & Hvs).
    exists vs, w1. split; [exact Hvs|]. reflexivity.
Qed.

End Engine.

(** Effect of the counting loop on each field. *)
Definition count_of (d : MoatDecision) (vs : list CitationVerification) : Z :=
  Z.of_nat (List.length (filter (fun v => match decision v, d with
                                          | KEEP, KEEP | MODIFY, MODIFY
                                          | DELETE, DELETE | FLAG, FLAG => true
                                          | _, _ => false
                                          end) vs)).

Lemma count_loop (vs : list CitationVerification) (r : MoatReport) :
  let r' := fold_left count_step vs r in
  total_citations r' = total_citations r
  /\ verifications r' = verifications r
  /\ clean_text r' = clean_text r
  /\ verified_count r' = (verified_count r + count_of KEEP vs)%Z
  /\ modified_count r' = (modified_count r + count_of MODIFY vs)%Z
  /\ deleted_count r' = (deleted_count r + count_of DELETE vs)%Z
  /\ flagged_count r' = (flagged_count r + count_of FLAG vs)%Z.
Proof.
  revert r. induction vs as [|v vs IH]; intros r; cbn.
  - unfold count_of; cbn. repeat split; lia.
  - specialize (IH (count_step r v)). cbn in IH.
    destruct IH as (H1 & H2 & H3 & H4 & H5 & H6 & H7).
    rewrite H1, H2, H3, H4, H5, H6, H7.
    unfold count_step, count_of; cbn [filter].
    destruct (decision v); cbn [List.length total_citations verifications clean_text
      verified_count modified_count deleted_count flagged_count];
      repeat split; lia.
Qed.

Lemma count_of_total (vs : list CitationVerification) :
  (count_of KEEP vs + count_of MODIFY vs + count_of DELETE vs + count_of FLAG vs
   = Z.of_nat (List.length vs))%Z.
Proof.
  unfold count_of. induction vs as [|v vs IH]; cbn [filter List.length].
  - reflexivity.
  - destruct (decision v); cbn [List.length]; lia.
Qed.

End MoatFacts.

Module MoatTheorems.
Import PyStr Extractor WebValidator Eff MoatEngine MoatFacts.

(** The report of a run that returned, for the examples. *)
Definition report_of (W : Type) (run : outcome MoatReport * W) : MoatReport :=
  match fst run with
  | Returned r => r
  | Raised _ => mkReport 0 0 0 0 0 [] []
  end.

Lemma verifications_of_report (W : Type) (self : CitationMoatEngine W) (text : str)
      (w w' : W) (report : MoatReport) :
  verify_text self text w = (Returned report, w') ->
  Forall2 (verified_as self) (extract_all text) (verifications report)
  /\ report
     = set_clean_text
         (fold_left (@count_step) (verifications report)
            (mkReport (Z.of_nat (List.length (extract_all text))) 0 0 0 0
                      (verifications report) []))
         (_generate_clean_text text (verifications report)).
Proof.
  intros Hrun.
  destruct (verify_text_returns self text w) as (vs & w1 & Hvs & Heq).
  rewrite Heq in Hrun. injection Hrun as Hr _.
  assert (Hv : verifications report = vs).
  { rewrite <- Hr. cbn.
    destruct (count_loop vs
                (mkReport (Z.of_nat (List.length (extract_all text))) 0 0 0 0 vs []))
      as (_ & H & _).
    exact H. }
  rewrite Hv. split; [exact Hvs | symmetry; exact Hr].
Qed.

(** C1. For every citation processed by [verify_text], the decision is the
    value of one fixed function of the web status, the two agent verdicts and
    the strict-mode flag, and it follows the decision table: KEEP exactly for
    a verified status with both verdicts true; MODIFY exactly for a partial
    match with at least one verdict true; FLAG for a partial match with both
    verdicts false and for a verified status without both verdicts true; for
    every other status DELETE in strict mode and FLAG otherwise. *)
Theorem verify_text_decision_table
        (W : Type) (self : CitationMoatEngine W) (text : str) (w w' : W)
        (report : MoatReport) (v : CitationVerification) :
  verify_text self text w = (Returned report, w') ->
  In v (verifications report) ->
  exists web,
    web_validation v = Some web
    /\ let s := WebValidator.status web in
       let a := agent_a_verified v in
       let b := agent_b_verified v in
       let strict := strict_mode self in
       decision v = table_decision strict s a b
       /\ (decision v = KEEP <-> s = VERIFIED /\ a = true /\ b = true)
       /\ (decision v = MODIFY <-> s = PARTIAL_MATCH /\ (a = true \/ b = true))
       /\ (decision v = FLAG <->
           (s = PARTIAL_MATCH /\ a = false /\ b = false)
           \/ (s = VERIFIED /\ ~ (a = true /\ b = true))
           \/ (s <> VERIFIED /\ s <> PARTIAL_MATCH /\ strict = false))
       /\ (decision v = DELETE <->
           s <> VERIFIED /\ s <> PARTIAL_MATCH /\ strict = true)
       /\ (s <> VERIFIED -> s <> PARTIAL_MATCH ->
           decision v = if strict then DELETE else FLAG).
Proof.
  intros Hrun Hin.
  destruct (verifications_of_report _ _ _ Hrun) as (Hvs & _).
  assert (Hc : exists c, verified_as self c v).
  { clear Hrun. induction Hvs as [|c v' cs vs Hcv _ IH]; [contradiction|].
    destruct Hin as [->|Hin]; eauto. }
  destruct Hc as (c & _ & _ & web & Hweb & Hdec).
  exists web. split; [exact Hweb|]. cbn zeta. rewrite Hdec.
  destruct (WebValidator.status web), (agent_a_verified v), (agent_b_verified v),
    (strict_mode self); cbn;
    repeat split; try reflexivity; try discriminate; try tauto; try congruence;
    intros; try discriminate; try tauto; try congruence;
    repeat match goal with
      | H : _ \/ _ |- _ => destruct H
      | H : _ /\ _ |- _ => destruct H
      end; try discriminate; try congruence; try tauto.
  all: try (left; repeat split; congruence).
  all: try (right; left; split; [reflexivity|]; intros [? ?]; discriminate).
  all: try (right; right; repeat split; congruence).
Qed.

(** C9. The four decision counts of a report add up to [total_citations],
    which is the length of [verifications] and the number of citations
    extracted from the text. *)
Theorem verify_text_counts
        (W : Type) (self : CitationMoatEngine W) (text : str) (w : W) :
  exists report w',
    verify_text self text w = (Returned report, w')
    /\ (verified_count report + modified_count report
        + deleted_count report + flagged_count report
        = total_citations report)%Z
    /\ total_citations report = Z.of_nat (List.length (verifications report))
    /\ List.length (verifications report) = List.length (extract_all text).
Proof.
  destruct (verify_text_returns self text w) as (vs & w' & Hvs & Heq).
  eexists. exists w'. split; [exact Heq|].
  pose proof (Forall2_length Hvs) as Hlen.
  destruct (count_loop vs
              (mkReport (Z.of_nat (List.length (extract_all text))) 0 0 0 0 vs []))
    as (H1 & H2 & _ & H4 & H5 & H6 & H7).
  cbn [set_clean_text total_citations verified_count modified_count deleted_count
       flagged_count verifications].
  cbn in H1, H2, H4, H5, H6, H7.
  rewrite H1, H2, H4, H5, H6, H7.
  pose proof (count_of_total vs).
  repeat split; lia.
Qed.


Lemma verify_text_decision_table_witness :
  let self := Scripted.moat (Scripted.answering "Verified")
                            (Scripted.answering "Uncertain") VERIFIED true in
  let report := report_of (verify_text self Scripted.doi_text 0) in
  exists v web,
    verifications report = [v]
    /\ web_validation v = Some web
    /\ decision v = FLAG
    /\ decision v = table_decision (strict_mode self) (WebValidator.status web)
                                   (agent_a_verified v) (agent_b_verified v).
Proof.
  set (self := Scripted.moat (Scripted.answering "Verified")
                             (Scripted.answering "Uncertain") VERIFIED true).
  set (run := verify_text self Scripted.doi_text 0).
  assert (Hrun : run = (Returned (report_of run), snd run))
    by (vm_compute; reflexivity).
  destruct (verifications (report_of run)) as [|v vs] eqn:E;
    [vm_compute in E; discriminate|].
  assert (Hin : In v (verifications (report_of run)))
    by (rewrite E; left; reflexivity).
  destruct (@verify_text_decision_table _ self Scripted.doi_text 0 (snd run)
              (report_of run) v Hrun Hin) as (web & Hweb & Htable & _).
  cbv zeta. exists v, web.
  assert (Hvs : vs = []) by (vm_compute in E; injection E as _ <-; reflexivity).
  assert (Hd : decision v = FLAG) by (vm_compute in E; injection E as <- _; reflexivity).
  subst vs. fold self. fold run. rewrite E. auto.
Defined.


End MoatTheorems.

(** ** Scores stay in their ranges *)

Module ScoreTheorems.
Import PyStr MoatEngine Scoring Voting.
Local Open Scope Q_scope.

Lemma clamp_bounds (lo hi x : Q) : lo <= hi -> lo <= Qmin hi (Qmax lo x) <= hi.
Proof.
  intros Hle. split.
  - apply Q.min_glb; [exact Hle | apply Q.le_max_l].
  - apply Q.le_min_l.
Qed.

Lemma clamp01_bounds (x : Q) : 0 <= clamp01 x <= 1.
Proof. apply clamp_bounds. discriminate. Qed.

Lemma _analyze_criterion_bounds (criterion : string) (position : str) :
  0 <= _analyze_criterion criterion position <= 100.
Proof. unfold _analyze_criterion. apply clamp_bounds. discriminate. Qed.

Lemma vote_scores (self : VotingEngine) (position : str) :
  criterion_scores (vote self position)
  = map (fun c => (c, _analyze_criterion c position))
        ["accuracy"; "evidence"; "logic"; "methodology"; "clarity"]%string
  /\ map Voting.score (criterion_votes (vote self position))
     = map (fun c => _analyze_criterion c position)
           ["accuracy"; "evidence"; "logic"; "methodology"; "clarity"]%string.
Proof. split; reflexivity. Qed.

Definition in_range (lo hi x : Q) : Prop := lo <= x <= hi.

(** C8. Each of the five sub-scores of the [RoundScore] returned by
    [score_round] lies in [0,1], whatever the texts and the optional report;
    each per-criterion score of the [VotingResult] returned by [vote] lies in
    [0,100], whatever the position. *)
Theorem scores_within_bounds :
  (forall (proponent_response reviewer_response : str)
          (citation_report : option MoatReport),
      let s := score_round proponent_response reviewer_response citation_report in
      in_range 0 1 (accuracy s) /\ in_range 0 1 (evidence s)
      /\ in_range 0 1 (logic s) /\ in_range 0 1 (methodology s)
      /\ in_range 0 1 (clarity s))
  /\ (forall (self : VotingEngine) (position : str),
         let r := vote self position in
         Forall (fun cs => in_range 0 100 (snd cs)) (criterion_scores r)
         /\ Forall (fun v => in_range 0 100 (Voting.score v)) (criterion_votes r)
         /\ map fst (criterion_scores r)
            = ["accuracy"; "evidence"; "logic"; "methodology"; "clarity"]%string).
Proof.
  split.
  - intros p r c. cbn. unfold in_range.
    repeat split; apply clamp01_bounds.
  - intros self position r.
    destruct (vote_scores self position) as (Hs & Hv).
    subst r. split; [|split].
    + rewrite Hs. repeat constructor; apply _analyze_criterion_bounds.
    + apply Forall_forall. intros v Hin.
      assert (Hin' : In (Voting.score v)
                        (map Voting.score (criterion_votes (vote self position))))
        by (apply in_map; exact Hin).
      rewrite Hv in Hin'. apply in_map_iff in Hin'.
      destruct Hin' as (c & <- & _). apply _analyze_criterion_bounds.
    + rewrite Hs. reflexivity.
Qed.

End ScoreTheorems.

(** ** The verdict of the consensus generator *)

Module ConsensusTheorems.
Import PyStr Voting AdaptiveDebate Consensus.
Local Open Scope Q_scope.

Lemma Qge_bool_true (a b : Q) : Qge_bool a b = true <-> b <= a.
Proof. unfold Qge_bool. apply Qle_bool_iff. Qed.

Lemma Qge_bool_false (a b : Q) : Qge_bool a b = false <-> a < b.
Proof.
  unfold Qge_bool. split.
  - intros H. apply Qnot_le_lt. intros Hle.
    apply Qle_bool_iff in Hle. congruence.
  - intros H. destruct (Qle_bool b a) eqn:E; [|reflexivity].
    apply Qle_bool_iff in E. exfalso. exact (Qlt_not_le _ _ H E).
Qed.

(** C7. For a debate result and a voting result: a failed vote gives
    REJECTED whatever the status; otherwise CONSENSUS_REACHED gives VALIDATED
    for a final score of at least 85 and PARTIALLY VALIDATED below;
    otherwise CONVERGED gives PARTIALLY VALIDATED for a final score of at
    least 75 and NEEDS REVISION below; DEADLOCK gives INCONCLUSIVE; every
    other status gives PARTIALLY VALIDATED. *)
Theorem verdict_precedence (debate_result : DebateResult) (voting_result : VotingResult) :
  let v := verdict (generate debate_result (Some voting_result)) in
  let st := AdaptiveDebate.status debate_result in
  let score := final_score debate_result in
  (passed voting_result = false -> v = lit "REJECTED")
  /\ (passed voting_result = true ->
      (st = CONSENSUS_REACHED -> 85 <= score -> v = lit "VALIDATED")
      /\ (st = CONSENSUS_REACHED -> score < 85 -> v = lit "PARTIALLY VALIDATED")
      /\ (st = CONVERGED -> 75 <= score -> v = lit "PARTIALLY VALIDATED")
      /\ (st = CONVERGED -> score < 75 -> v = lit "NEEDS REVISION")
      /\ (st = DEADLOCK -> v = lit "INCONCLUSIVE")
      /\ (st <> CONSENSUS_REACHED -> st <> CONVERGED -> st <> DEADLOCK ->
          v = lit "PARTIALLY VALIDATED")).
Proof.
  cbn zeta. unfold generate, _determine_verdict. cbn [verdict].
  split.
  - intros ->. reflexivity.
  - intros ->. cbn [negb].
    refine (conj _ (conj _ (conj _ (conj _ (conj _ _))))).
    + intros -> H. apply Qge_bool_true in H. cbn. rewrite H. reflexivity.
    + intros -> H. apply Qge_bool_false in H. cbn. rewrite H. reflexivity.
    + intros -> H. apply Qge_bool_true in H. cbn. rewrite H. reflexivity.
    + intros -> H. apply Qge_bool_false in H. cbn. rewrite H. reflexivity.
    + intros ->. reflexivity.
    + intros H1 H2 H3.
      destruct (AdaptiveDebate.status debate_result); try reflexivity; congruence.
Qed.

Definition failed_vote : VotingResult := mkVotingResult false 60 [] [] 0.
Definition passed_vote : VotingResult := mkVotingResult true 90 [] [] 0.
Definition debate_with (st : DebateStatus) (score : Q) : DebateResult :=
  mkResult st 3 [] score None [] [] [] 0.

Lemma verdict_precedence_witness :
  verdict (generate (debate_with CONSENSUS_REACHED 90) (Some failed_vote))
  = lit "REJECTED"
  /\ verdict (generate (debate_with CONSENSUS_REACHED 90) (Some passed_vote))
     = lit "VALIDATED"
  /\ verdict (generate (debate_with CONVERGED 70) (Some passed_vote))
     = lit "NEEDS REVISION"
  /\ verdict (generate (debate_with DEADLOCK 90) (Some passed_vote))
     = lit "INCONCLUSIVE"
  /\ verdict (generate (debate_with MAX_ROUNDS_REACHED 90) (Some passed_vote))
     = lit "PARTIALLY VALIDATED".
Proof.
  repeat apply conj.
  - exact (proj1 (verdict_precedence (debate_with CONSENSUS_REACHED 90) failed_vote)
                 eq_refl).
  - apply (proj2 (verdict_precedence (debate_with CONSENSUS_REACHED 90) passed_vote)
                 eq_refl); [reflexivity | cbn; discriminate].
  - apply (proj2 (verdict_precedence (debate_with CONVERGED 70) passed_vote) eq_refl);
      [reflexivity | reflexivity].
  - apply (proj2 (verdict_precedence (debate_with DEADLOCK 90) passed_vote) eq_refl).
    reflexivity.
  - apply (proj2 (verdict_precedence (debate_with MAX_ROUNDS_REACHED 90) passed_vote)
                 eq_refl); cbn; discriminate.
Defined.

End ConsensusTheorems.

(** ** Agent failures inside the moat *)

Module AgentFailureTheorems.
Import PyStr Extractor WebValidator Eff MoatEngine MoatFacts MoatTheorems.

(** C2, as the code has it. When an agent's [verify_citation] raises inside
    [_agent_verify], the exception is caught there and the agent's verdict is
    the web result: true exactly when the web status is VERIFIED. No
    exception leaves [verify_text], which returns a report holding one
    verification per extracted citation. *)
Theorem agent_failure_falls_back_to_web
        (W : Type) (self : CitationMoatEngine W) (agent : CitationAgent W)
        (citation : ExtractedCitation) (web_result : ValidationResult)
        (w w1 : W) (e : exn) :
  verify_citation agent (raw_text citation) (to_search_query citation) w
  = (Raised e, w1) ->
  _agent_verify agent citation web_result w
  = (Returned (web_verified web_result), w1)
  /\ (web_verified web_result = true <-> WebValidator.status web_result = VERIFIED)
  /\ forall (text : str) (w0 : W),
      exists report w',
        verify_text self text w0 = (Returned report, w')
        /\ List.length (verifications report) = List.length (extract_all text).
Proof.
  intros Hraise. split; [|split].
  - unfold _agent_verify, try_except, bind. rewrite Hraise. reflexivity.
  - unfold web_verified. destruct (WebValidator.status web_result); cbn;
      split; congruence.
  - intros text w0.
    destruct (verify_text_counts self text w0) as (report & w' & Hrun & _ & _ & Hlen).
    eauto.
Qed.

(** C2, against the claim as stated: with a verified web status and two
    agents whose [verify_citation] raises, both verdicts are true and the
    citation is kept. *)
Lemma agent_failure_counts_as_verified :
  let self := Scripted.moat Scripted.broken Scripted.broken VERIFIED true in
  (forall claim citation w,
      exists e, fst (verify_citation Scripted.broken claim citation w) = Raised e)
  /\ map (fun v => (agent_a_verified v, agent_b_verified v, decision v))
         (verifications (report_of (verify_text self Scripted.doi_text 0)))
     = [(true, true, KEEP)].
Proof.
  split.
  - intros claim citation w. eexists. reflexivity.
  - vm_compute. reflexivity.
Qed.

Definition smith_2024 : ExtractedCitation :=
  mkCitation (lit "(Smith, 2024)") AUTHOR_YEAR (30, 43)
             (Some (lit "Smith")) (Some (lit "2024")) None None None.

Lemma agent_failure_falls_back_to_web_witness :
  _agent_verify Scripted.broken smith_2024 (fst (Scripted.web VERIFIED [] None None 0)) 0
  = (Returned true, 1)
  /\ _agent_verify Scripted.broken smith_2024
                   (fst (Scripted.web NOT_FOUND [] None None 0)) 0
     = (Returned false, 1).
Proof.
  split.
  - exact (proj1 (@agent_failure_falls_back_to_web
                    _ (Scripted.moat Scripted.broken Scripted.broken VERIFIED true)
                    Scripted.broken smith_2024
                    (fst (Scripted.web VERIFIED [] None None 0)) 0 1
                    (External (lit "backend unavailable")) eq_refl)).
  - exact (proj1 (@agent_failure_falls_back_to_web
                    _ (Scripted.moat Scripted.broken Scripted.broken NOT_FOUND true)
                    Scripted.broken smith_2024
                    (fst (Scripted.web NOT_FOUND [] None None 0)) 0 1
                    (External (lit "backend unavailable")) eq_refl)).
Defined.

End AgentFailureTheorems.

(** ** Matching: every match is a non-empty span of the subject *)

Module ReFacts.
Import PyStr Re.

(** [s'] is reached from [s] by consuming a prefix of the rest of [s]. *)
Definition extends (s s' : mstate) : Prop :=
  exists consumed,
    rest s = consumed ++ rest s' /\ pos s' = pos s + List.length consumed.

Lemma extends_refl (s : mstate) : extends s s.
Proof. exists []. split; [reflexivity | cbn; lia]. Qed.

Lemma extends_trans (s1 s2 s3 : mstate) :
  extends s1 s2 -> extends s2 s3 -> extends s1 s3.
Proof.
  intros (c1 & Hr1 & Hp1) (c2 & Hr2 & Hp2). exists (c1 ++ c2). split.
  - rewrite Hr1, Hr2. apply app_assoc.
  - rewrite length_app. lia.
Qed.

Lemma extends_pos (s s' : mstate) : extends s s' -> pos s <= pos s'.
Proof. intros (c & _ & Hp). lia. Qed.

Lemma extends_bound (s s' : mstate) :
  extends s s' -> pos s' + List.length (rest s') = pos s + List.length (rest s).
Proof. intros (c & Hr & Hp). rewrite Hr, length_app. lia. Qed.

Section Repetition.
Variable step : mstate -> list mstate.
Hypothesis step_extends : forall s s', In s' (step s) -> extends s s'.

Lemma rep_extends (fuel lo : nat) (hi : option nat) (s s' : mstate) :
  In s' (rep step fuel lo hi s) -> extends s s'.
Proof.
  revert lo hi s. induction fuel as [|f IH]; intros lo hi s Hin; cbn in Hin.
  - destruct (lo =? 0); [|contradiction].
    destruct Hin as [<-|[]]. apply extends_refl.
  - assert (Hstop : In s' (if lo =? 0 then [s] else []) -> extends s s').
    { destruct (lo =? 0); [|contradiction].
      intros [<-|[]]. apply extends_refl. }
    destruct hi as [[|h]|]; auto;
      apply in_app_or in Hin; destruct Hin as [Hin|Hin]; auto;
      apply in_flat_map in Hin; destruct Hin as (s1 & H1 & H2);
      apply filter_In in H1; destruct H1 as (H1 & _);
      eapply extends_trans; eauto.
Qed.

Lemma rep_progress (fuel lo : nat) (hi : option nat) (s s' : mstate) :
  0 < lo -> In s' (rep step fuel lo hi s) -> pos s < pos s'.
Proof.
  intros Hlo Hin.
  assert (E : (lo =? 0) = false) by (apply Nat.eqb_neq; lia).
  destruct fuel as [|f]; cbn in Hin; rewrite E in Hin; [contradiction|].
  destruct hi as [[|h]|]; try contradiction;
    rewrite app_nil_r in Hin;
    apply in_flat_map in Hin; destruct Hin as (s1 & H1 & H2);
    apply filter_In in H1; destruct H1 as (_ & H1);
    apply Nat.ltb_lt in H1;
    apply rep_extends, extends_pos in H2; lia.
Qed.
End Repetition.

Lemma run_extends (r : re) (s s' : mstate) : In s' (run r s) -> extends s s'.
Proof.
  revert s s'. induction r as [p| |a IHa b IHb|a IHa b IHb|a IHa lo hi|n a IHa|];
    intros s s' Hin; cbn [run] in Hin.
  - destruct (rest s) as [|c t] eqn:E; [contradiction|].
    destruct (p c); [|contradiction]. destruct Hin as [<-|[]].
    exists [c]. cbn. split; [exact E | lia].
  - destruct Hin as [<-|[]]. apply extends_refl.
  - apply in_flat_map in Hin. destruct Hin as (s1 & H1 & H2).
    eapply extends_trans; eauto.
  - apply in_app_or in Hin. destruct Hin; auto.
  - eapply rep_extends; eauto.
  - apply in_map_iff in Hin. destruct Hin as (s1 & <- & H1).
    destruct (IHa _ _ H1) as (c & Hr & Hp). exists c. cbn. auto.
  - destruct (xorb _ _); [|contradiction]. destruct Hin as [<-|[]].
    apply extends_refl.
Qed.

(** A sufficient condition for a pattern to match non-empty spans only. *)
Fixpoint consuming (r : re) : bool :=
  match r with
  | Chr _ => true
  | Eps | WordB => false
  | Seq a b => consuming a || consuming b
  | Alt a b => consuming a && consuming b
  | Rep _ lo _ => 0 <? lo
  | Grp _ a => consuming a
  end.

Lemma run_progress (r : re) (s s' : mstate) :
  consuming r = true -> In s' (run r s) -> pos s < pos s'.
Proof.
  revert s s'. induction r as [p| |a IHa b IHb|a IHa b IHb|a IHa lo hi|n a IHa|];
    intros s s' Hc Hin; cbn [consuming] in Hc; cbn [run] in Hin; try discriminate.
  - destruct (rest s) as [|c t]; [contradiction|].
    destruct (p c); [|contradiction]. destruct Hin as [<-|[]]. cbn. lia.
  - apply in_flat_map in Hin. destruct Hin as (s1 & H1 & H2).
    pose proof (extends_pos (run_extends _ _ _ H1)).
    pose proof (extends_pos (run_extends _ _ _ H2)).
    apply orb_true_iff in Hc. destruct Hc as [Hc|Hc].
    + specialize (IHa _ _ Hc H1). lia.
    + specialize (IHb _ _ Hc H2). lia.
  - apply andb_true_iff in Hc. destruct Hc as (Ha & Hb).
    apply in_app_or in Hin. destruct Hin; auto.
  - apply Nat.ltb_lt in Hc.
    eapply rep_progress; eauto using run_extends.
  - apply in_map_iff in Hin. destruct Hin as (s1 & <- & H1).
    cbn. eauto.
Qed.

Lemma match_at_span (r : re) (subject : str) (p : nat) (before : option ascii)
      (suffix : str) (m : rmatch) :
  consuming r = true ->
  match_at r subject p before suffix = Some m ->
  m_string m = subject /\ m_start m = p
  /\ p < m_end m <= p + List.length suffix.
Proof.
  intros Hc. unfold match_at.
  destruct (run r (MState p before suffix [])) as [|s' l] eqn:E; [discriminate|].
  intros [= <-]. cbn.
  assert (Hin : In s' (run r (MState p before suffix []))) by (rewrite E; left; reflexivity).
  pose proof (run_progress _ _ _ Hc Hin) as Hlt.
  pose proof (extends_bound (run_extends _ _ _ Hin)) as Hb.
  cbn in Hlt, Hb. repeat split; lia.
Qed.

Lemma scan_spans (r : re) (subject : str) :
  consuming r = true ->
  forall (suffix : str) (p : nat) (before : option ascii) (skip : nat) (m : rmatch),
    p + List.length suffix = List.length subject ->
    In m (scan r subject p before suffix skip) ->
    m_string m = subject /\ m_start m < m_end m <= List.length subject.
Proof.
  intros Hc. induction suffix as [|c t IH]; intros p before skip m Hlen Hin; cbn in Hin.
  - destruct skip; [|contradiction].
    destruct (match_at r subject p before []) as [m0|] eqn:E; [|contradiction].
    destruct Hin as [<-|[]].
    destruct (match_at_span _ _ _ _ _ Hc E) as (H1 & H2 & H3).
    cbn in Hlen, H3. lia.
  - assert (Hlen' : S p + List.length t = List.length subject) by (cbn in Hlen; lia).
    destruct skip as [|k]; [|eauto].
    destruct (match_at r subject p before (c :: t)) as [m0|] eqn:E; [|eauto].
    destruct Hin as [<-|Hin]; [|eauto].
    destruct (match_at_span _ _ _ _ _ Hc E) as (H1 & H2 & H3).
    split; [exact H1|]. lia.
Qed.

Lemma finditer_spans (r : re) (subject : str) (m : rmatch) :
  consuming r = true ->
  In m (finditer r subject) ->
  m_string m = subject /\ m_start m < m_end m <= List.length subject.
Proof.
  intros Hc. unfold finditer. apply scan_spans; [exact Hc | reflexivity].
Qed.

End ReFacts.

(** ** Stable sorting *)

Module PySortFacts.
Import PySort.

Section Insertion.
Variable A : Type.
Variable before : A -> A -> bool.

Lemma in_insert (x y : A) (l : list A) :
  In y (insert before x l) <-> y = x \/ In y l.
Proof.
  induction l as [|z l IH]; cbn.
  - intuition congruence.
  - destruct (before x z); cbn; rewrite ?IH; intuition congruence.
Qed.

Lemma in_isort (y : A) (l : list A) : In y (isort before l) <-> In y l.
Proof.
  induction l as [|x l IH]; cbn; [tauto|].
  rewrite in_insert, IH. intuition congruence.
Qed.

Lemma insert_first (x : A) (l : list A) :
  Forall (fun y => before x y = true) l -> insert before x l = x :: l.
Proof.
  intros H. destruct l as [|y l]; [reflexivity|]. cbn.
  inversion H as [|? ? Hy _]; subst. rewrite Hy. reflexivity.
Qed.

Lemma insert_last (x : A) (l : list A) :
  Forall (fun y => before x y = false) l -> insert before x l = l ++ [x].
Proof.
  induction 1 as [|y l Hy _ IH]; cbn; [reflexivity|].
  rewrite Hy, IH. reflexivity.
Qed.
End Insertion.

Section Keys.
Variable A : Type.
Variable key : A -> nat.

Definition ascending (l : list A) : Prop :=
  StronglySorted (fun a b => key a <= key b) l.

Definition increasing (l : list A) : Prop :=
  StronglySorted (fun a b => key a < key b) l.

Lemma insert_ascending (x : A) (l : list A) :
  ascending l -> ascending (insert (fun a b => key a <=? key b) x l).
Proof.
  unfold ascending. induction 1 as [|y l Hl IH Hy]; cbn.
  - repeat constructor.
  - destruct (Nat.leb_spec (key x) (key y)) as [Hle|Hgt].
    + constructor; [constructor; assumption|].
      constructor; [exact Hle|].
      eapply Forall_impl; [|exact Hy]. cbn. intros. lia.
    + constructor; [exact IH|].
      apply Forall_forall. intros z Hz. apply in_insert in Hz.
      destruct Hz as [->|Hz]; [lia|].
      rewrite Forall_forall in Hy. auto.
Qed.

Lemma sorted_by_ascending (l : list A) : ascending (sorted_by key l).
Proof.
  unfold sorted_by. induction l as [|x l IH]; cbn.
  - constructor.
  - apply insert_ascending. exact IH.
Qed.

Lemma in_sorted_by (x : A) (l : list A) : In x (sorted_by key l) <-> In x l.
Proof. apply in_isort. Qed.

(** Sorting a list that is in order already changes nothing. *)
Lemma sorted_by_id (l : list A) : ascending l -> sorted_by key l = l.
Proof.
  unfold sorted_by. induction 1 as [|x l Hl IH Hx]; cbn; [reflexivity|].
  rewrite IH. apply insert_first.
  eapply Forall_impl; [|exact Hx]. cbn. intros y Hy. apply Nat.leb_le. exact Hy.
Qed.

(** Sorting in descending order reverses a list of increasing keys. *)
Lemma sorted_by_desc_rev (l : list A) : increasing l -> sorted_by_desc key l = rev l.
Proof.
  unfold sorted_by_desc. induction 1 as [|x l Hl IH Hx]; cbn; [reflexivity|].
  rewrite IH. apply insert_last.
  apply Forall_forall. intros y Hy. apply in_rev in Hy.
  rewrite Forall_forall in Hx. specialize (Hx _ Hy).
  apply Nat.leb_gt. exact Hx.
Qed.
End Keys.

End PySortFacts.

(** ** The extractor: spans, overlap resolution *)

Module ExtractorFacts.
Import PyStr Re ReFacts PySort PySortFacts Extractor.

(** The spans of a list never overlap and come in order. *)
Definition nonoverlap (l : list ExtractedCitation) : Prop :=
  StronglySorted (fun a b => c_end a <= c_start b) l.

(** A non-empty span inside a text of length [n]. *)
Definition span_in (n : nat) (c : ExtractedCitation) : Prop :=
  c_start c < c_end c <= n.

Lemma _create_citation_position (r : re) (m : rmatch) (ctype : CitationType) :
  position (_create_citation r m ctype) = m_span m
  /\ citation_type (_create_citation r m ctype) = ctype.
Proof.
  unfold _create_citation. destruct ctype; cbn;
    repeat match goal with
      | |- context [match ?x with _ => _ end] => destruct x
      end; split; reflexivity.
Qed.

Lemma patterns_consuming (ctype : CitationType) (patterns : list re) (r : re) :
  In (ctype, patterns) PATTERNS -> In r patterns -> consuming r = true.
Proof.
  intros H Hr. cbn in H.
  repeat (destruct H as [H|H]; [injection H as <- <-|]); try contradiction;
    cbn in Hr; repeat (destruct Hr as [<-|Hr]; [reflexivity|]); contradiction.
Qed.

Lemma in_scan_all (text : str) (c : ExtractedCitation) :
  In c (scan_all text) ->
  exists ctype patterns r m,
    In (ctype, patterns) PATTERNS /\ In r patterns /\ In m (finditer r text)
    /\ c = _create_citation r m ctype.
Proof.
  unfold scan_all. intros H.
  apply in_flat_map in H. destruct H as ([ctype patterns] & H1 & H2).
  apply in_flat_map in H2. destruct H2 as (r & H2 & H3).
  apply in_map_iff in H3. destruct H3 as (m & <- & H3).
  exists ctype, patterns, r, m. auto.
Qed.

Lemma scan_all_spans (text : str) :
  Forall (span_in (List.length text)) (scan_all text).
Proof.
  apply Forall_forall. intros c Hc.
  destruct (in_scan_all _ _ Hc) as (ctype & patterns & r & m & H1 & H2 & H3 & ->).
  pose proof (patterns_consuming _ H1 H2) as Hcons.
  destruct (finditer_spans _ _ _ Hcons H3) as (_ & Hspan).
  unfold span_in, c_start, c_end.
  destruct (_create_citation_position r m ctype) as (-> & _). exact Hspan.
Qed.

Lemma nonoverlap_snoc (kept : list ExtractedCitation) (last : ExtractedCitation) :
  nonoverlap kept -> Forall (fun k => c_end k <= c_start last) kept ->
  nonoverlap (kept ++ [last]).
Proof.
  unfold nonoverlap. induction 1 as [|x l Hl IH Hx]; intros Hk; cbn.
  - repeat constructor.
  - inversion Hk as [|? ? Hx' Hl']; subst.
    constructor; [auto|].
    apply Forall_app. split; [exact Hx | constructor; [exact Hx' | constructor]].
Qed.

(** The loop of [_deduplicate] over citations that are sorted by start. *)
Lemma dedup_loop (others : list ExtractedCitation) :
  forall (kept : list ExtractedCitation) (last : ExtractedCitation),
    nonoverlap kept ->
    Forall (fun k => c_end k <= c_start last) kept ->
    Forall (fun c => c_start last <= c_start c) others ->
    ascending c_start others ->
    let (kept', last') := fold_left dedup_step others (kept, last) in
    nonoverlap (kept' ++ [last'])
    /\ forall x, In x (kept' ++ [last']) -> In x (kept ++ [last]) \/ In x others.
Proof.
  induction others as [|c others IH]; intros kept last Hk Hkl Hlo Hasc; cbn [fold_left].
  - split; [apply nonoverlap_snoc; assumption | auto].
  - inversion Hlo as [|? ? Hc Hlo']; subst.
    inversion Hasc as [|? ? Hasc' Hco]; subst.
    assert (Hkc : Forall (fun k => c_end k <= c_start c) kept).
    { eapply Forall_impl; [|exact Hkl]. cbn. intros. lia. }
    unfold dedup_step at 2.
    destruct (Nat.leb_spec (c_end last) (c_start c)) as [Hfree|Hover].
    + (* no overlap: append *)
      specialize (IH (kept ++ [last]) c).
      destruct (fold_left dedup_step others (kept ++ [last], c)) as [k' l'].
      destruct IH as (H1 & H2); auto.
      * apply nonoverlap_snoc; assumption.
      * apply Forall_app. split; [exact Hkc | repeat constructor; exact Hfree].
      * split; [exact H1|]. intros x Hx; specialize (H2 x Hx); rewrite ?in_app_iff in *; cbn [In] in *; intuition (subst; auto).
    + destruct ((c_end last <? c_end c) && (_priority last <? _priority c)) eqn:E.
      * (* replace the last one *)
        apply andb_true_iff in E. destruct E as (E1 & E2). rewrite E1, E2.
        specialize (IH kept c).
        destruct (fold_left dedup_step others (kept, c)) as [k' l'].
        destruct IH as (H1 & H2); auto.
        split; [exact H1|]. intros x Hx; specialize (H2 x Hx); rewrite ?in_app_iff in *; cbn [In] in *; intuition (subst; auto).
      * (* drop the citation *)
        assert (Hsame :
                 (if c_end last <? c_end c
                  then if _priority last <? _priority c then (kept, c) else (kept, last)
                  else (kept, last)) = (kept, last)).
        { destruct (c_end last <? c_end c), (_priority last <? _priority c);
            try reflexivity; discriminate. }
        rewrite Hsame.
        specialize (IH kept last).
        destruct (fold_left dedup_step others (kept, last)) as [k' l'].
        destruct IH as (H1 & H2); auto.
        split; [exact H1|]. intros x Hx; specialize (H2 x Hx); rewrite ?in_app_iff in *; cbn [In] in *; intuition (subst; auto).
Qed.

Lemma _deduplicate_nonoverlap (citations : list ExtractedCitation) :
  nonoverlap (_deduplicate citations)
  /\ forall x, In x (_deduplicate citations) -> In x citations.
Proof.
  unfold _deduplicate.
  pose proof (sorted_by_ascending c_start citations) as Hasc.
  assert (Hin : forall x, In x (sorted_by c_start citations) -> In x citations)
    by (intros x; apply in_sorted_by).
  destruct (sorted_by c_start citations) as [|first others].
  - split; [constructor | contradiction].
  - inversion Hasc as [|? ? Hasc' Hfirst]; subst.
    pose proof (@dedup_loop others [] first) as H.
    destruct (fold_left dedup_step others ([], first)) as [k' l'].
    destruct H as (H1 & H2); auto; try (now constructor).
    split; [exact H1|]. intros x Hx. apply Hin.
    destruct (H2 x Hx) as [[<-|[]]|H]; [left; reflexivity | right; exact H].
Qed.

(** Non-overlapping non-empty spans are in increasing order of start. *)
Lemma nonoverlap_increasing (n : nat) (l : list ExtractedCitation) :
  nonoverlap l -> Forall (span_in n) l -> increasing c_start l.
Proof.
  unfold nonoverlap, increasing. induction 1 as [|x l Hl IH Hx]; intros Hs.
  - constructor.
  - inversion Hs as [|? ? Hsx Hsl]; subst. constructor; [auto|].
    eapply Forall_impl; [|exact Hx]. cbn. unfold span_in in Hsx. intros. lia.
Qed.

Lemma increasing_ascending (A : Type) (key : A -> nat) (l : list A) :
  increasing key l -> ascending key l.
Proof.
  unfold increasing, ascending. induction 1 as [|x l Hl IH Hx]; constructor; auto.
  eapply Forall_impl; [|exact Hx]. cbn. intros. lia.
Qed.

(** The citations of a text: taken from the scan, with non-empty spans
    inside the text, in order and without overlap. *)
Lemma extract_all_spans (text : str) :
  extract_all text = _deduplicate (scan_all text)
  /\ nonoverlap (extract_all text)
  /\ Forall (span_in (List.length text)) (extract_all text)
  /\ forall c, In c (extract_all text) -> In c (scan_all text).
Proof.
  destruct (_deduplicate_nonoverlap (scan_all text)) as (Hno & Hin).
  assert (Hsp : Forall (span_in (List.length text)) (_deduplicate (scan_all text))).
  { apply Forall_forall. intros c Hc.
    pose proof (scan_all_spans text) as H. rewrite Forall_forall in H. auto. }
  assert (E : extract_all text = _deduplicate (scan_all text)).
  { unfold extract_all. apply sorted_by_id.
    eapply increasing_ascending, nonoverlap_increasing; eauto. }
  rewrite E. auto.
Qed.

End ExtractorFacts.

Module ExtractorTheorems.
Import PyStr Re PySort PySortFacts Extractor ExtractorFacts.







End ExtractorTheorems.

(** ** The rewritten text *)

Module CleanTextFacts.
Import PyStr PySort PySortFacts Extractor ExtractorFacts WebValidator Eff MoatEngine
       MoatFacts.

(** What a decision puts in the place of the span of its citation. *)
Definition rendered (text : str) (v : CitationVerification) : str :=
  let original := slice (v_start v) (v_end v) text in
  match decision v with
  | KEEP | MODIFY => original
  | DELETE => lit "[CITATION REMOVED]"
  | FLAG => lit "[NEEDS REVIEW: " ++ original ++ lit "]"
  end.

(** The text from [cursor] on, span by span: the text between two spans is
    copied, each span is replaced by what its decision renders. *)
Fixpoint rewritten (text : str) (cursor : nat) (vs : list CitationVerification) : str :=
  match vs with
  | [] => from cursor text
  | v :: others =>
      slice cursor (v_start v) text ++ rendered text v
        ++ rewritten text (v_end v) others
  end.

(** The spans of [vs] are non-empty, in order, disjoint, and lie between
    [lo] and [hi]. *)
Fixpoint tiled (lo hi : nat) (vs : list CitationVerification) : Prop :=
  match vs with
  | [] => lo <= hi
  | v :: others => lo <= v_start v /\ v_start v < v_end v /\ tiled (v_end v) hi others
  end.

Lemma tiled_le (vs : list CitationVerification) (lo hi : nat) : tiled lo hi vs -> lo <= hi.
Proof.
  revert lo. induction vs as [|v vs IH]; cbn; intros lo H; [exact H|].
  destruct H as (H1 & H2 & H3). specialize (IH _ H3). lia.
Qed.

Lemma tiled_increasing (vs : list CitationVerification) (lo hi : nat) :
  tiled lo hi vs ->
  increasing v_start vs /\ Forall (fun v => lo <= v_start v) vs.
Proof.
  revert lo. induction vs as [|v vs IH]; cbn; intros lo H.
  - split; constructor.
  - destruct H as (H1 & H2 & H3). destruct (IH _ H3) as (Hinc & Hlo).
    split.
    + constructor; [exact Hinc|].
      eapply Forall_impl; [|exact Hlo]. cbn. intros. lia.
    + constructor; [exact H1|].
      eapply Forall_impl; [|exact Hlo]. cbn. intros. lia.
Qed.

(** Slices of a text and of a text whose tail was rewritten. *)
Lemma upto_slice (text : str) (i j : nat) :
  i <= j -> upto i text ++ slice i j text = upto j text.
Proof.
  intros Hij. unfold upto, slice.
  replace j with (i + (j - i)) at 2 by lia.
  rewrite <- (firstn_skipn i (firstn (i + (j - i)) text)).
  rewrite firstn_firstn, Nat.min_l by lia.
  f_equal. rewrite firstn_skipn_comm. reflexivity.
Qed.

Lemma upto_prefix (text tail : str) (i j : nat) :
  i <= j <= List.length text -> upto i (upto j text ++ tail) = upto i text.
Proof.
  intros H. unfold upto.
  rewrite firstn_app, length_firstn, Nat.min_l by lia.
  replace (i - j) with 0 by lia. cbn. rewrite app_nil_r.
  rewrite firstn_firstn, Nat.min_l by lia. reflexivity.
Qed.

Lemma from_prefix (text tail : str) (j : nat) :
  j <= List.length text -> from j (upto j text ++ tail) = tail.
Proof.
  intros H. unfold from, upto.
  rewrite skipn_app, length_firstn, Nat.min_l by lia.
  rewrite skipn_all2 by (rewrite length_firstn; lia).
  replace (j - j) with 0 by lia. reflexivity.
Qed.

Lemma slice_prefix (text tail : str) (i j : nat) :
  i <= j <= List.length text -> slice i j (upto j text ++ tail) = slice i j text.
Proof.
  intros H. unfold slice, upto.
  rewrite skipn_app, length_firstn, Nat.min_l by lia.
  replace (i - j) with 0 by lia. cbn [skipn].
  rewrite firstn_app, length_skipn, length_firstn, Nat.min_l by lia.
  replace (j - i - (j - i)) with 0 by lia. cbn [firstn]. rewrite app_nil_r.
  rewrite firstn_all2 by (rewrite length_skipn, length_firstn; lia).
  replace j with (i + (j - i)) at 1 by lia.
  rewrite <- firstn_skipn_comm. reflexivity.
Qed.

Lemma fold_left_rev (A B : Type) (g : A -> B -> A) (l : list B) (i : A) :
  fold_left g (rev l) i = fold_right (fun y a => g a y) i l.
Proof.
  induction l as [|x l IH]; cbn; [reflexivity|].
  rewrite fold_left_app. cbn. rewrite IH. reflexivity.
Qed.

(** The loop of [_generate_clean_text], last span first. *)
Lemma rewrite_backwards (text : str) (vs : list CitationVerification) :
  Forall (fun v => alternative_source v = None) vs ->
  forall lo, tiled lo (List.length text) vs ->
  fold_right (fun v clean => rewrite_step clean v) text vs
  = upto lo text ++ rewritten text lo vs.
Proof.
  induction 1 as [|v vs Hv _ IH]; intros lo Ht; cbn [fold_right rewritten].
  - unfold upto, from. symmetry. apply firstn_skipn.
  - cbn in Ht. destruct Ht as (H1 & H2 & H3).
    pose proof (tiled_le _ _ _ H3) as Hend.
    rewrite (IH _ H3).
    rewrite app_assoc, (upto_slice text H1).
    unfold rewrite_step, rendered. rewrite Hv.
    destruct (decision v).
    + rewrite app_assoc, upto_slice by lia. reflexivity.
    + rewrite app_assoc, upto_slice by lia. reflexivity.
    + rewrite upto_prefix, from_prefix by lia. reflexivity.
    + rewrite upto_prefix, from_prefix, slice_prefix by lia.
      rewrite <- !app_assoc. reflexivity.
Qed.

Lemma _generate_clean_text_rewritten (text : str) (vs : list CitationVerification) :
  Forall (fun v => alternative_source v = None) vs ->
  tiled 0 (List.length text) vs ->
  _generate_clean_text text vs = rewritten text 0 vs.
Proof.
  intros Hv Ht. unfold _generate_clean_text.
  rewrite sorted_by_desc_rev by (eapply tiled_increasing; eassumption).
  rewrite fold_left_rev.
  rewrite (rewrite_backwards text Hv 0 Ht). reflexivity.
Qed.

Lemma slice_from (text : str) (i j : nat) :
  i <= j -> slice i j text ++ from j text = from i text.
Proof.
  intros Hij. unfold slice, from.
  replace j with ((j - i) + i) at 2 by lia.
  rewrite <- skipn_skipn. apply firstn_skipn.
Qed.

(** Without a DELETE or FLAG decision nothing changes. *)
Lemma rewritten_unchanged (text : str) (vs : list CitationVerification) :
  Forall (fun v => decision v = KEEP \/ decision v = MODIFY) vs ->
  forall lo, tiled lo (List.length text) vs -> rewritten text lo vs = from lo text.
Proof.
  induction 1 as [|v vs Hv _ IH]; intros lo Ht; cbn [rewritten]; [reflexivity|].
  cbn in Ht. destruct Ht as (H1 & H2 & H3).
  rewrite (IH _ H3).
  assert (Hr : rendered text v = slice (v_start v) (v_end v) text)
    by (unfold rendered; destruct Hv as [-> | ->]; reflexivity).
  rewrite Hr, (@slice_from text (v_start v) (v_end v)) by lia.
  apply slice_from. exact H1.
Qed.

(** The verifications of a text tile it. *)
Lemma verifications_tiled (W : Type) (self : CitationMoatEngine W)
      (cs : list ExtractedCitation) (vs : list CitationVerification) (n : nat) :
  Forall2 (verified_as self) cs vs ->
  nonoverlap cs -> Forall (span_in n) cs ->
  forall lo, lo <= n -> Forall (fun c => lo <= c_start c) cs -> tiled lo n vs.
Proof.
  induction 1 as [|c v cs vs Hcv _ IH]; intros Hno Hsp lo Hn Hlo; cbn.
  - exact Hn.
  - inversion Hno as [|? ? Hno' Hc]; subst.
    inversion Hsp as [|? ? Hspan Hsp']; subst.
    inversion Hlo as [|? ? Hloc _]; subst.
    destruct Hcv as (Horig & _).
    unfold v_start, v_end. rewrite Horig. unfold span_in in Hspan.
    split; [exact Hloc | split; [lia|]].
    apply IH; auto. lia.
Qed.

Lemma verified_without_alternative (W : Type) (self : CitationMoatEngine W)
      (cs : list ExtractedCitation) (vs : list CitationVerification) :
  Forall2 (verified_as self) cs vs ->
  Forall (fun v => alternative_source v = None) vs.
Proof.
  induction 1 as [|c v cs vs (_ & Hv & _) _ IH]; constructor; auto.
Qed.

End CleanTextFacts.

Module CleanTextTheorems.
Import PyStr Extractor ExtractorFacts WebValidator Eff MoatEngine MoatFacts
       CleanTextFacts.

(** C10. [verify_text] leaves [alternative_source] at [None] in every
    verification. The spans of the verifications tile the text, and
    [clean_text] is the text with each span replaced by what its decision
    renders: the span itself for KEEP and MODIFY, the removal marker for
    DELETE, the span wrapped in the review marker for FLAG; the text between
    the spans is copied. With KEEP and MODIFY decisions only, [clean_text]
    is the text. *)
Theorem clean_text_rewrites_delete_and_flag_only
        (W : Type) (self : CitationMoatEngine W) (text : str) (w : W) :
  exists report w',
    verify_text self text w = (Returned report, w')
    /\ Forall (fun v => alternative_source v = None) (verifications report)
    /\ tiled 0 (List.length text) (verifications report)
    /\ clean_text report = rewritten text 0 (verifications report)
    /\ (Forall (fun v => decision v = KEEP \/ decision v = MODIFY)
               (verifications report) ->
        clean_text report = text).
Proof.
  destruct (verify_text_returns self text w) as (vs & w' & Hvs & Heq).
  destruct (extract_all_spans text) as (_ & Hno & Hsp & _).
  eexists. exists w'. split; [exact Heq|].
  destruct (count_loop vs
              (mkReport (Z.of_nat (List.length (extract_all text))) 0 0 0 0 vs []))
    as (_ & Hverif & _).
  cbn [set_clean_text verifications clean_text]. cbn in Hverif. rewrite Hverif.
  pose proof (verified_without_alternative Hvs) as Halt.
  assert (Ht : tiled 0 (List.length text) vs).
  { eapply verifications_tiled; eauto; [lia|].
    apply Forall_forall. intros. lia. }
  rewrite (_generate_clean_text_rewritten text Halt Ht).
  repeat split; auto.
  intros Hkeep. rewrite (rewritten_unchanged text Hkeep 0 Ht). reflexivity.
Qed.

Lemma clean_text_rewrites_delete_and_flag_only_witness :
  exists report w',
    verify_text (Scripted.moat (Scripted.answering "Verified")
                               (Scripted.answering "Verified") VERIFIED true)
                Scripted.doi_text 0
    = (Returned report, w')
    /\ clean_text report = Scripted.doi_text.
Proof.
  destruct (clean_text_rewrites_delete_and_flag_only
              (Scripted.moat (Scripted.answering "Verified")
                             (Scripted.answering "Verified") VERIFIED true)
              Scripted.doi_text 0)
    as (report & w' & Hrun & _ & _ & _ & Hkeep).
  exists report, w'. split; [exact Hrun|].
  apply Hkeep.
  pose proof Hrun as Hc. vm_compute in Hc.
  injection Hc as Hr _. subst report.
  repeat constructor.
Defined.

End CleanTextTheorems.

(** ** The debate engine: rounds, convergence, re-evaluation *)

Module DebateFacts.
Import PyStr Eff EffFacts MoatEngine MoatFacts Scoring Voting AdaptiveDebate.
Local Open Scope eff_scope.

(** The last [n] elements of a list. *)
Definition lastn (A : Type) (n : nat) (l : list A) : list A :=
  skipn (List.length l - n) l.

Lemma length_lastn (A : Type) (n : nat) (l : list A) :
  List.length (lastn n l) = Nat.min n (List.length l).
Proof. unfold lastn. rewrite length_skipn. lia. Qed.

Lemma lastn_all (A : Type) (n : nat) (l : list A) :
  List.length l <= n -> lastn n l = l.
Proof. intros H. unfold lastn. replace (List.length l - n) with 0 by lia. reflexivity. Qed.

Lemma lastn_snoc (A : Type) (n : nat) (l : list A) (x : A) :
  1 <= n <= List.length l -> lastn n (l ++ [x]) = tl (lastn n l ++ [x]).
Proof.
  intros H. unfold lastn. rewrite length_app. cbn [List.length].
  rewrite skipn_app.
  replace (List.length l + 1 - n - List.length l) with 0 by lia. cbn [skipn].
  replace (List.length l + 1 - n) with (1 + (List.length l - n)) by lia.
  rewrite <- skipn_skipn.
  destruct (skipn (List.length l - n) l) as [|y t] eqn:E.
  - apply (f_equal (@List.length A)) in E. rewrite length_skipn in E. cbn in E. lia.
  - reflexivity.
Qed.

Lemma firstn_snoc (A : Type) (k : nat) (l : list A) (x : A) :
  k <= List.length l -> firstn k (l ++ [x]) = firstn k l.
Proof.
  intros H. rewrite firstn_app. replace (k - List.length l) with 0 by lia.
  cbn. apply app_nil_r.
Qed.

Lemma Qlt_bool_true (a b : Q) : Qlt_bool a b = true <-> (a < b)%Q.
Proof.
  unfold Qlt_bool. split.
  - intros H. apply Qnot_le_lt. intros Hle. apply Qle_bool_iff in Hle.
    rewrite Hle in H. discriminate.
  - intros H. destruct (Qle_bool b a) eqn:E; [|reflexivity].
    apply Qle_bool_iff in E. exfalso. exact (Qlt_not_le _ _ H E).
Qed.

(** The total score a round recorded. *)
Definition round_total (r : DebateRound) : Q :=
  match round_score r with
  | Some s => total_score s
  | None => 0%Q
  end.

Definition scores (rounds : list DebateRound) : list Q := map round_total rounds.

Section Engine.
Variable W : Type.
Variable self : AdaptiveDebateEngine W.

(** The sliding window after round [k]: the last [convergence_rounds]
    total scores of the rounds 1..k. *)
Definition window (rounds : list DebateRound) (k : nat) : list Q :=
  lastn (Z.to_nat (convergence_rounds self)) (firstn k (scores rounds)).

(** The window after round [k] is full and its population variance is
    below 25. *)
Definition converged_at (rounds : list DebateRound) (k : nat) : Prop :=
  Z.of_nat (List.length (window rounds k)) = convergence_rounds self
  /\ (variance (window rounds k) < 25)%Q.

(** The collaborators of the debate answer every call. *)
Definition agents_respond : Prop :=
  (forall q c, total (generate_initial_position (proponent self) q c))
  /\ (forall critique position,
         total (respond_to_critique (proponent self) critique position))
  /\ total (provide_final_position (proponent self))
  /\ (forall prompt, total (generate_response (proponent self) prompt))
  /\ (forall position c, total (review_position (reviewer self) position c)).

(** *** The re-evaluation loop *)

Lemma revote_loop_bound (fuel : nat) :
  forall (st st' : VoteState) (w w' : W),
    revote_loop self fuel st w = (Returned st', w') ->
    (v_re_evaluations st <= 3)%Z ->
    (v_re_evaluations st <= v_re_evaluations st' <= 3)%Z.
Proof.
  induction fuel as [|fuel IH]; intros st st' w w' Hrun Hle;
    cbn [revote_loop] in Hrun.
  - destruct (negb (passed (v_result st)) && (v_re_evaluations st <? 3)%Z);
      injection Hrun as <- _; lia.
  - destruct (negb (passed (v_result st)) && (v_re_evaluations st <? 3)%Z) eqn:G.
    + apply andb_true_iff in G. destruct G as (_ & G). apply Z.ltb_lt in G.
      apply bind_inv in Hrun. destruct Hrun as (rev & w1 & _ & Hrun).
      apply IH in Hrun; cbn [v_re_evaluations] in Hrun |- *; lia.
    + injection Hrun as <- _. lia.
Qed.

(** Three units of fuel are enough: more fuel changes nothing. *)
Lemma revote_loop_fuel (fuel : nat) :
  forall (st : VoteState) (extra : nat) (w : W),
    (3 - v_re_evaluations st <= Z.of_nat fuel)%Z ->
    revote_loop self (fuel + extra) st w = revote_loop self fuel st w.
Proof.
  induction fuel as [|fuel IH]; intros st extra w Hfuel.
  - cbn [Nat.add]. destruct extra as [|extra]; [reflexivity|]. cbn [revote_loop].
    destruct (Z.ltb_spec (v_re_evaluations st) 3) as [|_]; [lia|].
    rewrite andb_false_r. reflexivity.
  - cbn [Nat.add revote_loop].
    destruct (negb (passed (v_result st)) && (v_re_evaluations st <? 3)%Z);
      [|reflexivity].
    unfold bind.
    destruct (_request_revision self (v_position st) (v_result st) w)
      as [[rev|e] w1]; [|reflexivity].
    apply IH. cbn [v_re_evaluations]. lia.
Qed.

Lemma revote_loop_total (fuel : nat) :
  agents_respond ->
  forall st, total (revote_loop self fuel st).
Proof.
  intros (_ & _ & _ & Hgen & _).
  induction fuel as [|fuel IH]; intros st w; cbn [revote_loop].
  - destruct (_ && _); unfold ret; eauto.
  - destruct (_ && _); [|unfold ret; eauto].
    unfold _request_revision.
    destruct (Hgen (mkPrompt
                      (map fst (filter (fun cs => Qlt_bool (snd cs)
                                          (pass_threshold (voting_engine self)))
                                       (criterion_scores (v_result st))))
                      (v_position st) (v_result st)) w) as (rev & w1 & Hrev).
    unfold bind. rewrite Hrev. apply IH.
Qed.

(** *** One round *)

Lemma play_round_inv (round_num : Z) (position : str) (context : option str)
      (w w' : W) (dr : DebateRound) (rs : RoundScore) :
  play_round self round_num position context w = (Returned (dr, rs), w') ->
  round_score dr = Some rs /\ round_number dr = round_num.
Proof.
  unfold play_round. intros H.
  apply bind_inv in H. destruct H as (review & w1 & _ & H).
  apply bind_inv in H. destruct H as (defense & w2 & _ & H).
  apply bind_inv in H. destruct H as (report & w3 & _ & H).
  injection H as <- <- _. split; reflexivity.
Qed.

Lemma play_round_total (round_num : Z) (position : str) (context : option str) :
  agents_respond -> total (play_round self round_num position context).
Proof.
  intros (_ & Hdef & _ & _ & Hrev) w. unfold play_round, bind.
  destruct (Hrev position context w) as (review & w1 & ->).
  destruct (Hdef review position w1) as (defense & w2 & ->).
  destruct (verify_text_returns (citation_moat self)
              (defense ++ lit (String "010" EmptyString) ++ review) w2)
    as (vs & w3 & _ & ->).
  unfold ret. eauto.
Qed.

(** *** The sliding window *)

Lemma window_push (s : list Q) (x : Q) :
  (0 < convergence_rounds self)%Z ->
  let recent := lastn (Z.to_nat (convergence_rounds self)) s ++ [x] in
  (if (convergence_rounds self <? Z.of_nat (List.length recent))%Z
   then tl recent else recent)
  = lastn (Z.to_nat (convergence_rounds self)) (s ++ [x]).
Proof.
  intros Hc recent. subst recent.
  rewrite length_app, length_lastn. cbn [List.length].
  destruct (Nat.le_gt_cases (Z.to_nat (convergence_rounds self)) (List.length s))
    as [Hfull|Hsmall].
  - destruct (Z.ltb_spec (convergence_rounds self)
                (Z.of_nat (Nat.min (Z.to_nat (convergence_rounds self))
                                   (List.length s) + 1))) as [_|H]; [|lia].
    symmetry. apply lastn_snoc. lia.
  - destruct (Z.ltb_spec (convergence_rounds self)
                (Z.of_nat (Nat.min (Z.to_nat (convergence_rounds self))
                                   (List.length s) + 1))) as [H|_]; [lia|].
    rewrite (lastn_all (n := Z.to_nat (convergence_rounds self)) s) by lia.
    symmetry. apply lastn_all. rewrite length_app. cbn. lia.
Qed.

Lemma _check_convergence_full (recent : list Q) :
  (0 < convergence_rounds self)%Z ->
  (List.length recent <= Z.to_nat (convergence_rounds self))%nat ->
  exists b,
    _check_convergence self recent = Returned b
    /\ (b = true <->
        Z.of_nat (List.length recent) = convergence_rounds self
        /\ (variance recent < 25)%Q).
Proof.
  intros Hc Hlen. unfold _check_convergence.
  destruct (Z.ltb_spec (Z.of_nat (List.length recent)) (convergence_rounds self))
    as [Hlt|Hge].
  - exists false. split; [reflexivity|]. split; [discriminate | intros (H & _); lia].
  - destruct recent as [|y t] eqn:E; [cbn in Hge; lia|].
    rewrite <- E in *. eexists. split; [reflexivity|].
    rewrite Qlt_bool_true. split; [intros H; split; [lia | exact H] | tauto].
Qed.

Lemma _check_convergence_empty :
  (convergence_rounds self <= 0)%Z ->
  _check_convergence self [] = Raised ZeroDivisionError.
Proof.
  intros Hc. unfold _check_convergence. cbn [List.length].
  destruct (Z.ltb_spec (Z.of_nat 0) (convergence_rounds self)); [lia | reflexivity].
Qed.

(** *** The round loop *)

(** At the head of the loop: the debate is in progress, the window holds
    the last scores, and no round so far saw a full window of low
    variance. *)
Definition at_loop_head (st : LoopState) : Prop :=
  l_status st = IN_PROGRESS
  /\ l_round_num st = Z.of_nat (List.length (l_rounds st))
  /\ l_recent_scores st
     = lastn (Z.to_nat (convergence_rounds self)) (scores (l_rounds st))
  /\ forall k, 1 <= k <= List.length (l_rounds st) ->
               ~ converged_at (l_rounds st) k.

Definition after_loop (start : Z) (st : LoopState) : Prop :=
  (Z.of_nat (List.length (l_rounds st)) <= Z.max start (max_rounds self))%Z
  /\ (l_status st = IN_PROGRESS \/ l_status st = CONVERGED
      \/ l_status st = CONSENSUS_REACHED)
  /\ forall k, 1 <= k <= List.length (l_rounds st) ->
               converged_at (l_rounds st) k ->
               l_status st = CONVERGED /\ List.length (l_rounds st) = k.

Lemma converged_at_snoc (rounds : list DebateRound) (r : DebateRound) (k : nat) :
  k <= List.length rounds ->
  converged_at (rounds ++ [r]) k <-> converged_at rounds k.
Proof.
  intros Hk. unfold converged_at, window, scores.
  rewrite map_app. cbn [map].
  rewrite firstn_snoc by (rewrite length_map; exact Hk). tauto.
Qed.

Lemma window_last (rounds : list DebateRound) :
  window rounds (List.length rounds)
  = lastn (Z.to_nat (convergence_rounds self)) (scores rounds).
Proof.
  unfold window. rewrite firstn_all2; [reflexivity|].
  unfold scores. rewrite length_map. lia.
Qed.

Lemma at_loop_head_done (st : LoopState) :
  at_loop_head st -> after_loop (l_round_num st) st.
Proof.
  intros (Hs & Hn & _ & Hnone). unfold after_loop.
  split; [lia | split; [auto|]].
  intros k Hk Hconv. exfalso. eapply Hnone; eauto.
Qed.

Lemma round_loop_spec (fuel : nat) (context : option str) :
  forall (st st' : LoopState) (w w' : W),
    at_loop_head st ->
    round_loop self fuel context st w = (Returned st', w') ->
    after_loop (l_round_num st) st'.
Proof.
  induction fuel as [|fuel IH]; intros st st' w w' Hinv Hrun; cbn [round_loop] in Hrun.
  - destruct (l_round_num st <? max_rounds self)%Z;
      injection Hrun as <- _; apply at_loop_head_done; exact Hinv.
  - destruct (Z.ltb_spec (l_round_num st) (max_rounds self)) as [Hguard|_];
      [|injection Hrun as <- _; apply at_loop_head_done; exact Hinv].
    apply bind_inv in Hrun. destruct Hrun as ([dr rs] & w1 & Hplay & Hrun).
    destruct (play_round_inv _ _ _ _ Hplay) as (Hscore & _).
    destruct Hinv as (Hs & Hn & Hrecent & Hnone).
    assert (Hscores : scores (l_rounds st ++ [dr])
                      = scores (l_rounds st) ++ [total_score rs]).
    { unfold scores. rewrite map_app. cbn. unfold round_total.
      rewrite Hscore. reflexivity. }
    rewrite Hrecent in Hrun.
    destruct (Z.le_gt_cases (convergence_rounds self) 0) as [Hc|Hc].
    + (* no window: the variance divides by zero *)
      exfalso.
      replace (Z.to_nat (convergence_rounds self)) with 0%nat in Hrun by lia.
      unfold lastn in Hrun at 1 2 3. rewrite Nat.sub_0_r, skipn_all in Hrun.
      cbn [app List.length] in Hrun.
      destruct (Z.ltb_spec (convergence_rounds self) (Z.of_nat 1)) as [_|]; [|lia].
      cbn [tl] in Hrun.
      apply bind_inv in Hrun. destruct Hrun as (b & w2 & Hcheck & _).
      unfold lift_outcome in Hcheck.
      rewrite (_check_convergence_empty Hc) in Hcheck. discriminate.
    + rewrite (window_push (scores (l_rounds st)) (total_score rs)) in Hrun
        by lia.
      rewrite <- Hscores in Hrun.
      set (rounds' := l_rounds st ++ [dr]) in *.
      set (recent' := lastn (Z.to_nat (convergence_rounds self)) (scores rounds'))
        in *.
      assert (Hlen' : List.length rounds' = S (List.length (l_rounds st))).
      { subst rounds'. rewrite length_app. cbn. lia. }
      destruct (@_check_convergence_full recent') as (b & Hcheck & Hb);
        [lia | subst recent'; rewrite length_lastn; lia |].
      apply bind_inv in Hrun. destruct Hrun as (b' & w2 & Hcheck' & Hrun).
      unfold lift_outcome in Hcheck'. rewrite Hcheck in Hcheck'.
      injection Hcheck' as <- <-.
      assert (Hearlier : forall k, 1 <= k <= List.length (l_rounds st) ->
                                   ~ converged_at rounds' k).
      { intros k Hk Hconv. apply (Hnone k Hk).
        apply converged_at_snoc in Hconv; [exact Hconv | lia]. }
      assert (Hlast : converged_at rounds' (List.length rounds') <-> b = true).
      { unfold converged_at. rewrite window_last. fold recent'. tauto. }
      destruct b.
      * (* converged: break *)
        injection Hrun as <- _. unfold after_loop. cbn [l_rounds l_status].
        split; [lia | split; [auto|]].
        intros k Hk Hconv. split; [reflexivity|].
        destruct (Nat.eq_dec k (List.length rounds')) as [->|Hne]; [reflexivity|].
        exfalso. apply (Hearlier k); [lia | assumption].
      * assert (Hnone' : forall k, 1 <= k <= List.length rounds' ->
                                   ~ converged_at rounds' k).
        { intros k Hk Hconv.
          destruct (Nat.eq_dec k (List.length rounds')) as [->|Hne].
          - apply Hlast in Hconv. discriminate.
          - apply (Hearlier k); [lia | assumption]. }
        destruct (_ && _) in Hrun.
        -- (* consensus: break *)
           injection Hrun as <- _. unfold after_loop. cbn [l_rounds l_status].
           split; [lia | split; [auto|]].
           intros k Hk Hconv. exfalso. eapply Hnone'; eauto.
        -- (* next round *)
           apply IH in Hrun.
           ++ cbn [l_round_num] in Hrun. destruct Hrun as (H1 & H2 & H3).
              unfold after_loop. split; [lia | split; [exact H2 | exact H3]].
           ++ unfold at_loop_head. cbn [l_status l_rounds l_round_num l_recent_scores].
              split; [exact Hs | split; [lia | split; [reflexivity | exact Hnone']]].
Qed.

Lemma round_loop_total (fuel : nat) (context : option str) :
  agents_respond -> (0 < convergence_rounds self)%Z ->
  forall st, total (round_loop self fuel context st).
Proof.
  intros Hagents Hc.
  induction fuel as [|fuel IH]; intros st w; cbn [round_loop].
  - destruct (_ <? _)%Z; unfold ret; eauto.
  - destruct (_ <? _)%Z; [|unfold ret; eauto].
    destruct (play_round_total (l_round_num st + 1) (l_position st) context
                               Hagents w) as ([dr rs] & w1 & Hplay).
    unfold bind at 1. rewrite Hplay.
    match goal with
    | |- context [_check_convergence self ?r] =>
        assert (Hcheck : exists b, _check_convergence self r = Returned b)
    end.
    { unfold _check_convergence.
      destruct (_ <? _)%Z; [eauto|].
      match goal with
      | |- context [match ?r with [] => _ | _ :: _ => _ end] =>
          destruct r eqn:E
      end; [|eauto].
      exfalso.
      match type of E with
      | (if ?c then _ else _) = [] => destruct c eqn:G
      end.
      - apply Z.ltb_lt in G. rewrite length_app in G. cbn [List.length] in G.
        destruct (l_recent_scores st) as [|y [|z t]]; cbn in E, G;
          try discriminate; lia.
      - destruct (l_recent_scores st); discriminate. }
    destruct Hcheck as (b & Hcheck).
    unfold bind, lift_outcome. rewrite Hcheck.
    destruct b; [unfold ret; eauto|].
    destruct (_ && _); [unfold ret; eauto | apply IH].
Qed.

(** As many units of fuel as [max_rounds] are enough. *)
Lemma round_loop_fuel (fuel : nat) (context : option str) :
  forall (st : LoopState) (extra : nat) (w : W),
    (max_rounds self - l_round_num st <= Z.of_nat fuel)%Z ->
    round_loop self (fuel + extra) context st w = round_loop self fuel context st w.
Proof.
  induction fuel as [|fuel IH]; intros st extra w Hfuel.
  - cbn [Nat.add]. destruct extra as [|extra]; [reflexivity|]. cbn [round_loop].
    destruct (Z.ltb_spec (l_round_num st) (max_rounds self)) as [|_]; [lia|].
    reflexivity.
  - cbn [Nat.add round_loop].
    destruct (Z.ltb_spec (l_round_num st) (max_rounds self)) as [_|_];
      [|reflexivity].
    unfold bind at 1 3.
    destruct (play_round self (l_round_num st + 1) (l_position st) context w)
      as [[[dr rs]|e] w1]; [|reflexivity].
    unfold bind, lift_outcome.
    destruct (_check_convergence self _) as [[|]|e]; try reflexivity.
    destruct (_ && _); [reflexivity|].
    apply IH. cbn [l_round_num]. lia.
Qed.

End Engine.

End DebateFacts.

Module DebateTheorems.
Import PyStr Eff EffFacts WebValidator MoatEngine Scoring Voting AdaptiveDebate
       DebateFacts.

Lemma run_debate_inv (W : Type) (self : AdaptiveDebateEngine W) (question : str)
      (context : option str) (w w' : W) (res : DebateResult) :
  run_debate self question context w = (Returned res, w') ->
  exists initial w1 st w2 vs w3,
    round_loop self (Z.to_nat (max_rounds self)) context
               (mkLoop IN_PROGRESS [] 0 initial []) w1 = (Returned st, w2)
    /\ revote_loop self 3
                   (mkVoteState (l_position st) (_run_voting self (l_position st)) 0)
                   w2 = (Returned vs, w3)
    /\ AdaptiveDebate.status res
       = (if status_eqb (l_status st) IN_PROGRESS then MAX_ROUNDS_REACHED
          else l_status st)
    /\ rounds res = l_rounds st
    /\ total_rounds res = List.length (l_rounds st)
    /\ re_evaluations res = v_re_evaluations vs
    /\ voting_result res = Some (v_result vs).
Proof.
  unfold run_debate. intros H.
  apply bind_inv in H. destruct H as (initial & w1 & _ & H).
  apply bind_inv in H. destruct H as (st & w2 & Hloop & H).
  apply bind_inv in H. destruct H as (vs & w3 & Hvote & H).
  apply bind_inv in H. destruct H as (final & w4 & _ & H).
  destruct (_extract_points (l_rounds st)) as [consensus disputed].
  injection H as <- _.
  exists initial, w1, st, w2, vs, w3.
  refine (conj Hloop (conj Hvote _)).
  repeat apply conj; reflexivity.
Qed.

Lemma run_debate_total (W : Type) (self : AdaptiveDebateEngine W) (question : str)
      (context : option str) :
  agents_respond self -> (0 < convergence_rounds self)%Z ->
  total (run_debate self question context).
Proof.
  intros Hagents Hc w. unfold run_debate, bind.
  pose proof Hagents as (Hinit & _ & Hfinal & _).
  destruct (Hinit question context w) as (initial & w1 & ->).
  destruct (round_loop_total (Z.to_nat (max_rounds self)) context Hagents Hc
              (mkLoop IN_PROGRESS [] 0 initial []) w1) as (st & w2 & ->).
  destruct (revote_loop_total 3 Hagents
              (mkVoteState (l_position st) (_run_voting self (l_position st)) 0) w2)
    as (vs & w3 & ->).
  destruct (Hfinal w3) as (final & w4 & ->).
  destruct (_extract_points (l_rounds st)). unfold ret. eauto.
Qed.

(** The re-evaluation counter of a finished debate is between 0 and 3. *)
Lemma re_evaluations_at_most_3 (W : Type) (self : AdaptiveDebateEngine W)
      (question : str) (context : option str) (w w' : W) (res : DebateResult) :
  run_debate self question context w = (Returned res, w') ->
  (0 <= re_evaluations res <= 3)%Z.
Proof.
  intros H. apply run_debate_inv in H.
  destruct H as (initial & w1 & st & w2 & vs & w3 & _ & Hvote & _ & _ & _ & -> & _).
  apply revote_loop_bound in Hvote; cbn [v_re_evaluations] in Hvote |- *; lia.
Qed.


Lemma scripted_agents_respond (engine : AdaptiveDebateEngine Scripted.W)
      (position revision critique : string) :
  proponent engine = Scripted.proponent position revision ->
  reviewer engine = Scripted.reviewer critique ->
  agents_respond engine.
Proof.
  intros Hp Hr. unfold agents_respond. rewrite Hp, Hr. cbn.
  repeat split; intros; intro; do 2 eexists; reflexivity.
Qed.


(** C3, on the code. The voting engine of a debate engine created with
    MAX_RETRIES=1 in the environment has [max_retries] = 1; a debate whose
    position and revisions all fail the vote still returns normally, with
    [re_evaluations] = 3 and a failed vote. The bound of the re-evaluation
    loop is the constant 3 for every engine. *)
Theorem revote_cap_ignores_max_retries :
  let engine :=
    AdaptiveDebate.init (mkEnviron None None None (Some 1%Z))
                        (Scripted.web NOT_FOUND) Scripted.unresolved
                        (Scripted.proponent "x" "y") (Scripted.reviewer "z")
                        (Some 1%Z) None 3 in
  max_retries (voting_engine engine) = 1%Z
  /\ (exists res w',
         run_debate engine (lit "Is X true?") None 0 = (Returned res, w')
         /\ re_evaluations res = 3%Z
         /\ option_map passed (voting_result res) = Some false)
  /\ (forall (W : Type) (self : AdaptiveDebateEngine W) (question : str)
             (context : option str) (w w' : W) (res : DebateResult),
         run_debate self question context w = (Returned res, w') ->
         (0 <= re_evaluations res <= 3)%Z).
Proof.
  cbv zeta. split; [reflexivity | split].
  - do 2 eexists. split; [vm_compute; reflexivity|]. split; reflexivity.
  - intros. eapply re_evaluations_at_most_3; eassumption.
Qed.

End DebateTheorems.

(* ================================================================== *)
(** * Further properties of the engines *)

(** ** Voting: ranges of the scores, pass and fail *)

Module VotingFacts.
Import PyStr Voting ScoreTheorems.
Local Open Scope Q_scope.

Lemma clamp_within (lo hi a b x : Q) :
  lo <= a -> b <= hi -> a <= x <= b -> a <= Qmin hi (Qmax lo x) <= b.
Proof.
  intros Hlo Hhi (Ha & Hb).
  assert (Hmax : Qmax lo x == x) by (apply Q.max_r; lra).
  assert (Hmin : Qmin hi (Qmax lo x) == x).
  { rewrite Hmax. apply Q.min_r. lra. }
  rewrite Hmin. split; assumption.
Qed.

Lemma of_nat_bounds (n k : nat) :
  (n <= k)%nat -> 0 <= of_nat n <= inject_Z (Z.of_nat k).
Proof.
  intros H. unfold of_nat. split.
  - change 0 with (inject_Z 0). rewrite <- Zle_Qle. lia.
  - rewrite <- Zle_Qle. lia.
Qed.

Ltac pick_criterion :=
  unfold _analyze_criterion;
  cbv beta iota zeta delta [String.eqb Ascii.eqb Bool.eqb].

Ltac decide_markers :=
  repeat match goal with
    | |- context [if ?c then _ else _] => destruct c
    end.

Ltac concrete_bounds := split; vm_compute; discriminate.

Lemma accuracy_range (position : str) :
  45 <= _analyze_criterion "accuracy" position <= 90.
Proof. pick_criterion. decide_markers; concrete_bounds. Qed.

Lemma evidence_range (position : str) :
  60 <= _analyze_criterion "evidence" position <= 85.
Proof.
  pick_criterion.
  match goal with
  | |- context [of_nat ?n] =>
      pose proof (@of_nat_bounds n 25 (Nat.le_min_r _ _)) as H; generalize dependent (of_nat n)
  end.
  intros q (H1 & H2). change (inject_Z (Z.of_nat 25)) with 25 in H2.
  apply clamp_within; lra.
Qed.

Lemma logic_range (position : str) :
  50 <= _analyze_criterion "logic" position <= 80.
Proof.
  pick_criterion.
  match goal with
  | |- context [of_nat ?n] =>
      pose proof (@of_nat_bounds n 20 (Nat.le_min_r _ _)) as H; generalize dependent (of_nat n)
  end.
  intros q (H1 & H2). change (inject_Z (Z.of_nat 20)) with 20 in H2.
  decide_markers; apply clamp_within; lra.
Qed.

Lemma methodology_range (position : str) :
  60 <= _analyze_criterion "methodology" position <= 80.
Proof.
  pick_criterion.
  match goal with
  | |- context [of_nat ?n] =>
      pose proof (@of_nat_bounds n 20 (Nat.le_min_r _ _)) as H; generalize dependent (of_nat n)
  end.
  intros q (H1 & H2). change (inject_Z (Z.of_nat 20)) with 20 in H2.
  apply clamp_within; lra.
Qed.

Lemma clarity_range (position : str) :
  50 <= _analyze_criterion "clarity" position <= 75.
Proof.
  pick_criterion.
  match goal with
  | |- context [of_nat ?n] =>
      pose proof (@of_nat_bounds n 15 (Nat.le_min_r _ _)) as H; generalize dependent (of_nat n)
  end.
  intros q (H1 & H2). change (inject_Z (Z.of_nat 15)) with 15 in H2.
  decide_markers; apply clamp_within; lra.
Qed.

(** The weighted average, criterion by criterion. *)
Lemma vote_weighted_average (self : VotingEngine) (position : str) :
  weighted_average (vote self position)
  = 0 + _analyze_criterion "accuracy" position * 0.25
    + _analyze_criterion "evidence" position * 0.25
    + _analyze_criterion "logic" position * 0.20
    + _analyze_criterion "methodology" position * 0.15
    + _analyze_criterion "clarity" position * 0.15.
Proof. reflexivity. Qed.

Lemma vote_passed (self : VotingEngine) (position : str) :
  passed (vote self position)
  = Qge_bool (weighted_average (vote self position)) (pass_threshold self).
Proof. reflexivity. Qed.

Lemma vote_votes (self : VotingEngine) (position : str) :
  criterion_votes (vote self position)
  = map (fun c => _vote_criterion self c "" position)
        ["accuracy"; "evidence"; "logic"; "methodology"; "clarity"]%string.
Proof. reflexivity. Qed.

Lemma weighted_average_range (self : VotingEngine) (position : str) :
  52.75 <= weighted_average (vote self position) <= 83.
Proof.
  rewrite vote_weighted_average.
  pose proof (accuracy_range position). pose proof (evidence_range position).
  pose proof (logic_range position). pose proof (methodology_range position).
  pose proof (clarity_range position).
  split; lra.
Qed.

End VotingFacts.

Module VotingTheorems.
Import PyStr Voting ScoreTheorems VotingFacts ConsensusTheorems.
Local Open Scope Q_scope.

(** X1. Whatever the position, the weighted average of [vote] lies between
    52.75 and 83: an engine with a pass threshold above 83 passes no position,
    one with a threshold of at most 52.75 passes every position. *)
Theorem vote_weighted_average_range (self : VotingEngine) (position : str) :
  52.75 <= weighted_average (vote self position) <= 83
  /\ (83 < pass_threshold self -> passed (vote self position) = false)
  /\ (pass_threshold self <= 52.75 -> passed (vote self position) = true).
Proof.
  pose proof (weighted_average_range self position) as (Hlo & Hhi).
  split; [split; assumption|]. rewrite vote_passed. split; intros H.
  - apply Qge_bool_false. lra.
  - apply Qge_bool_true. lra.
Qed.

Definition is_pass (s : VoteStatus) : bool :=
  match s with PASS => true | _ => false end.

Lemma _vote_criterion_pass (self : VotingEngine) (c q : string) (position : str) :
  is_pass (Voting.status (_vote_criterion self c q position))
  = Qge_bool (_analyze_criterion c position) (pass_threshold self).
Proof.
  unfold _vote_criterion. cbn [Voting.status].
  destruct (Qge_bool (_analyze_criterion c position) (pass_threshold self));
    [reflexivity|].
  destruct (Qge_bool _ _); reflexivity.
Qed.

(** X2. The criteria [get_failed_criteria] reports for the engine's own pass
    threshold are those whose vote is not PASS, in the order of the votes.
    When every criterion votes PASS the position passes; when none does, it
    fails. *)
Theorem vote_failed_criteria (self : VotingEngine) (position : str) :
  let r := vote self position in
  get_failed_criteria r (pass_threshold self)
  = map criterion
        (filter (fun v => negb (is_pass (Voting.status v))) (criterion_votes r))
  /\ (Forall (fun v => Voting.status v = PASS) (criterion_votes r) ->
      passed r = true)
  /\ (Forall (fun v => Voting.status v <> PASS) (criterion_votes r) ->
      passed r = false).
Proof.
  cbv zeta.
  assert (Hpass : forall c,
             is_pass (Voting.status (_vote_criterion self c "" position))
             = Qge_bool (_analyze_criterion c position) (pass_threshold self))
    by (intros; apply _vote_criterion_pass).
  split; [|split].
  - unfold get_failed_criteria.
    rewrite (proj1 (vote_scores self position)), vote_votes.
    cbn [map filter snd fst]. rewrite !Hpass. unfold Qge_bool.
    repeat match goal with
      | |- context [Qle_bool ?a ?b] => destruct (Qle_bool a b)
      end; reflexivity.
  - intros Hall. rewrite vote_votes in Hall.
    assert (Hge : forall c,
               In c ["accuracy"; "evidence"; "logic"; "methodology"; "clarity"]%string ->
               pass_threshold self <= _analyze_criterion c position).
    { intros c Hc. apply Qge_bool_true. rewrite <- Hpass.
      rewrite Forall_forall in Hall.
      rewrite (Hall (_vote_criterion self c "" position)); [reflexivity|].
      exact (in_map (fun c => _vote_criterion self c "" position) _ _ Hc). }
    rewrite vote_passed, vote_weighted_average. apply Qge_bool_true.
    pose proof (Hge "accuracy"%string ltac:(cbn; auto)).
    pose proof (Hge "evidence"%string ltac:(cbn; auto)).
    pose proof (Hge "logic"%string ltac:(cbn; auto)).
    pose proof (Hge "methodology"%string ltac:(cbn; auto)).
    pose proof (Hge "clarity"%string ltac:(cbn; auto 6)).
    lra.
  - intros Hnone. rewrite vote_votes in Hnone.
    assert (Hlt : forall c,
               In c ["accuracy"; "evidence"; "logic"; "methodology"; "clarity"]%string ->
               _analyze_criterion c position < pass_threshold self).
    { intros c Hc. apply Qge_bool_false. rewrite <- Hpass.
      rewrite Forall_forall in Hnone.
      specialize (Hnone (_vote_criterion self c "" position)
                        (in_map (fun c => _vote_criterion self c "" position) _ _ Hc)).
      destruct (Voting.status _); try reflexivity. congruence. }
    rewrite vote_passed, vote_weighted_average. apply Qge_bool_false.
    pose proof (Hlt "accuracy"%string ltac:(cbn; auto)).
    pose proof (Hlt "evidence"%string ltac:(cbn; auto)).
    pose proof (Hlt "logic"%string ltac:(cbn; auto)).
    pose proof (Hlt "methodology"%string ltac:(cbn; auto)).
    pose proof (Hlt "clarity"%string ltac:(cbn; auto 6)).
    lra.
Qed.

End VotingTheorems.

(** ** Scoring: the total score, accuracy against verification *)

Module ScoringTheorems.
Import PyStr MoatEngine Scoring ScoreTheorems.
Local Open Scope Q_scope.

(** X3. The total score of a scored round lies between 0 and 100, whatever
    the texts and the optional report. *)
Theorem score_round_total_range (proponent_response reviewer_response : str)
        (citation_report : option MoatReport) :
  0 <= total_score (score_round proponent_response reviewer_response citation_report)
  <= 100.
Proof.
  unfold total_score, score_round.
  cbn [accuracy evidence logic methodology clarity].
  unfold _score_accuracy, _score_evidence, _score_logic, _score_methodology,
    _score_clarity; cbv zeta.
  repeat match goal with
    | |- context [clamp01 ?x] =>
        let H := fresh "H" in
        pose proof (clamp01_bounds x) as H; generalize dependent (clamp01 x); intros
    end.
  split; lra.
Qed.

Lemma clamp01_monotone (x y : Q) : x <= y -> clamp01 x <= clamp01 y.
Proof.
  intros H. unfold clamp01.
  apply Q.min_le_compat_l. apply Q.max_le_compat_l. exact H.
Qed.

(** X4. For two reports with the same positive number of citations, the one
    with more verified citations gets at least the accuracy score of the
    other, for the same reviewer text. *)
Theorem _score_accuracy_monotone (r1 r2 : MoatReport) (reviewer_response : str) :
  (0 < total_citations r1)%Z ->
  total_citations r1 = total_citations r2 ->
  (verified_count r1 <= verified_count r2)%Z ->
  _score_accuracy (Some r1) reviewer_response
  <= _score_accuracy (Some r2) reviewer_response.
Proof.
  intros Hpos Htot Hver.
  assert (Hrate : verification_rate r1 / 100 <= verification_rate r2 / 100).
  { unfold verification_rate. rewrite <- Htot.
    destruct (Z.eqb_spec (total_citations r1) 0) as [E|_]; [lia|].
    assert (Hd : 0 < inject_Z (total_citations r1))
      by (change 0 with (inject_Z 0); rewrite <- Zlt_Qlt; exact Hpos).
    assert (Hn : inject_Z (verified_count r1) <= inject_Z (verified_count r2))
      by (rewrite <- Zle_Qle; exact Hver).
    apply Qmult_le_compat_r; [|apply Qlt_le_weak, Qinv_lt_0_compat; reflexivity].
    apply Qmult_le_compat_r; [|discriminate].
    apply Qmult_le_compat_r; [exact Hn|].
    apply Qlt_le_weak, Qinv_lt_0_compat. exact Hd. }
  unfold _score_accuracy. cbv zeta.
  destruct (_ || _).
  - apply clamp01_monotone. lra.
  - destruct (_ || _).
    + apply clamp01_monotone. apply Q.min_le_compat_l. lra.
    + apply clamp01_monotone. exact Hrate.
Qed.

Lemma _score_accuracy_monotone_witness :
  _score_accuracy (Some (mkReport 10 3 0 0 0 [] [])) (lit "The claim is accurate.")
  <= _score_accuracy (Some (mkReport 10 9 0 0 0 [] [])) (lit "The claim is accurate.").
Proof.
  apply (@_score_accuracy_monotone (mkReport 10 3 0 0 0 [] []) (mkReport 10 9 0 0 0 [] []));
    [reflexivity | reflexivity | cbn; lia].
Defined.

End ScoringTheorems.

(** ** The moat: verdicts, confidence, the rewritten text *)

Module MoatShape.
Import PyStr Extractor WebValidator Eff MoatEngine MoatFacts CleanTextFacts.

Section Engine.
Variable W : Type.
Variable self : CitationMoatEngine W.

(** Everything [_verify_single_citation] fixes about a verification. *)
Definition shaped (c : ExtractedCitation) (v : CitationVerification) : Prop :=
  verified_as self c v
  /\ (exists w, web_validation v
                = Some (fst (validate self (to_search_query c) (doi c) (url c) w)))
  /\ confidence v = _calculate_confidence v
  /\ (proponent self = None ->
      forall web, web_validation v = Some web -> agent_a_verified v = web_verified web)
  /\ (reviewer self = None ->
      forall web, web_validation v = Some web -> agent_b_verified v = web_verified web).

Lemma _verify_single_citation_shaped (c : ExtractedCitation) (w : W) :
  exists v w', _verify_single_citation self c w = (Returned v, w') /\ shaped c v.
Proof.
  unfold _verify_single_citation, bind, call, ret, lift_outcome.
  destruct (validate self (to_search_query c) (doi c) (url c) w) as [web w1] eqn:Eweb.
  assert (Hweb : web = fst (validate self (to_search_query c) (doi c) (url c) w))
    by (rewrite Eweb; reflexivity).
  clear Eweb.
  destruct (doi c) as [[|x d]|] eqn:Ed; destruct (proponent self) as [pa|] eqn:Ep;
    destruct (reviewer self) as [ra|] eqn:Er;
    repeat match goal with
      | |- context [resolve ?s ?d ?w] => destruct (resolve s d w) as [? ?]
      | |- context [_agent_verify ?a ?c ?web ?w] =>
          let H := fresh in
          destruct (_agent_verify_returns a c web w) as (? & ? & H); rewrite H
      end;
    match goal with
    | |- context [_make_decision self ?v] =>
        let H := fresh in
        destruct (@_make_decision_table _ self v web eq_refl) as (why & H); rewrite H
    end;
    do 2 eexists; (split; [reflexivity|]);
    (split; [repeat split; cbn; eauto|]);
    (split; [exists w; cbn [web_validation]; rewrite Ed, Hweb; reflexivity|]);
    (split; [reflexivity|]);
    split; intros Hnone web' Hw'; try congruence;
    cbn [web_validation agent_a_verified agent_b_verified] in Hw' |- *;
    injection Hw' as <-; reflexivity.
Qed.

Lemma _verify_citations_shaped (cs : list ExtractedCitation) (w : W) :
  exists vs w',
    _verify_citations self cs w = (Returned vs, w') /\ Forall2 shaped cs vs.
Proof.
  revert w. induction cs as [|c cs IH]; intros w; cbn [_verify_citations].
  - unfold ret. eauto.
  - unfold bind.
    destruct (_verify_single_citation_shaped c w) as (v & w1 & -> & Hv).
    destruct (IH w1) as (vs & w2 & -> & Hvs).
    unfold ret. eauto.
Qed.

(** The report of [verify_text], field by field. *)
Lemma verify_text_shaped (text : str) (w : W) :
  exists report w',
    verify_text self text w = (Returned report, w')
    /\ Forall2 shaped (extract_all text) (verifications report)
    /\ clean_text report = rewritten text 0 (verifications report)
    /\ tiled 0 (List.length text) (verifications report)
    /\ total_citations report = Z.of_nat (List.length (verifications report))
    /\ verified_count report = count_of KEEP (verifications report)
    /\ modified_count report = count_of MODIFY (verifications report)
    /\ deleted_count report = count_of DELETE (verifications report)
    /\ flagged_count report = count_of FLAG (verifications report).
Proof.
  unfold verify_text.
  destruct (ExtractorFacts.extract_all_spans text) as (_ & Hno & Hsp & _).
  destruct (extract_all text) as [|c cs] eqn:E.
  - eexists. exists w. split; [reflexivity|].
    cbn. repeat split; try constructor. lia.
  - unfold bind.
    destruct (_verify_citations_shaped (c :: cs) w) as (vs & w1 & -> & Hvs).
    eexists. exists w1. split; [reflexivity|].
    pose proof (count_loop vs
                  (mkReport (Z.of_nat (List.length (c :: cs))) 0 0 0 0 vs []))
      as (H1 & H2 & _ & H4 & H5 & H6 & H7).
    unfold set_clean_text, set_verifications.
    cbn [total_citations verified_count
         modified_count deleted_count flagged_count verifications clean_text]
      in H1, H2, H4, H5, H6, H7 |- *.
    rewrite H1, H2, H4, H5, H6, H7.
    assert (Hva : Forall2 (verified_as self) (c :: cs) vs).
    { clear - Hvs. induction Hvs as [|? ? ? ? (H & _) _ IH]; constructor; auto. }
    assert (Ht : tiled 0 (List.length text) vs).
    { eapply verifications_tiled; eauto; [lia|].
      apply Forall_forall. intros. lia. }
    rewrite (_generate_clean_text_rewritten text (verified_without_alternative Hva) Ht).
    pose proof (Forall2_length Hvs) as Hlen.
    repeat split; auto; lia.
Qed.

End Engine.

(** [p in s] for a tail of [p]. *)
Lemma startswith_tail (p1 p2 s : str) :
  startswith (p1 ++ p2) s = true -> contains p2 s = true.
Proof.
  revert s. induction p1 as [|a p1 IH]; intros s H; cbn [app] in H.
  - destruct s; cbn [contains]; rewrite H; reflexivity.
  - destruct s as [|b s]; cbn [startswith] in H; [discriminate|].
    apply andb_true_iff in H. destruct H as (_ & H).
    cbn [contains]. rewrite (IH _ H). apply orb_true_r.
Qed.

Lemma contains_tail (p1 p2 s : str) :
  contains (p1 ++ p2) s = true -> contains p2 s = true.
Proof.
  induction s as [|b s IH]; cbn [contains]; intros H.
  - rewrite orb_false_r in H. apply startswith_tail in H. exact H.
  - apply orb_true_iff in H. destruct H as [H|H].
    + apply startswith_tail in H. exact H.
    + rewrite (IH H). apply orb_true_r.
Qed.

End MoatShape.

Module MoatMoreTheorems.
Import PyStr Extractor WebValidator Eff MoatEngine MoatFacts CleanTextFacts MoatShape.

Lemma Forall2_right (A B : Type) (R : A -> B -> Prop) (l : list A) (l' : list B) :
  Forall2 R l l' -> Forall (fun b => exists a, R a b) l'.
Proof. induction 1; constructor; eauto. Qed.

Ltac settle_Q :=
  vm_compute;
  first [ reflexivity | discriminate | tauto
        | split; intros; first [reflexivity | discriminate | tauto] ].

(** X5. Every verification of a report carries the confidence that
    [_calculate_confidence] gives it, between 0 and 100: it is 100 exactly for
    a KEEP decision, at most 60 for DELETE, between 50 and 80 for MODIFY and
    at most 70 for FLAG. *)
Theorem verify_text_confidence
        (W : Type) (self : CitationMoatEngine W) (text : str) (w : W) :
  exists report w',
    verify_text self text w = (Returned report, w')
    /\ Forall (fun v =>
                 confidence v = _calculate_confidence v
                 /\ (0 <= confidence v <= 100)%Q
                 /\ (decision v = KEEP <-> (confidence v == 100)%Q)
                 /\ (decision v = DELETE -> (confidence v <= 60)%Q)
                 /\ (decision v = MODIFY -> (50 <= confidence v <= 80)%Q)
                 /\ (decision v = FLAG -> (confidence v <= 70)%Q))
              (verifications report).
Proof.
  destruct (verify_text_shaped self text w) as (report & w' & Hrun & Hvs & _).
  exists report, w'. split; [exact Hrun|].
  apply Forall2_right in Hvs. eapply Forall_impl; [|exact Hvs].
  intros v (c & (_ & _ & web & Hweb & Hdec) & _ & Hconf & _).
  split; [exact Hconf|]. rewrite Hconf, Hdec.
  unfold _calculate_confidence. rewrite Hweb.
  destruct (WebValidator.status web), (agent_a_verified v), (agent_b_verified v),
    (strict_mode self);
    cbn [status_eqb table_decision andb orb];
    (split; [split; vm_compute; discriminate|]);
    (split; [split; intros H; first [reflexivity | discriminate H]|]);
    (split; [intros H; first [discriminate H | vm_compute; discriminate]|]);
    (split; [intros H; first [discriminate H | split; vm_compute; discriminate]|]);
    intros H; first [discriminate H | vm_compute; discriminate].
Qed.

(** X6. A moat without agents takes the web result for both verdicts: every
    verification has both verdicts true exactly when the web status is
    VERIFIED, is kept exactly then, and is never modified. *)
Theorem verify_text_without_agents
        (W : Type) (self : CitationMoatEngine W) (text : str) (w w' : W)
        (report : MoatReport) :
  proponent self = None -> reviewer self = None ->
  verify_text self text w = (Returned report, w') ->
  Forall (fun v =>
            exists web,
              web_validation v = Some web
              /\ agent_a_verified v = web_verified web
              /\ agent_b_verified v = web_verified web
              /\ (decision v = KEEP <-> WebValidator.status web = VERIFIED)
              /\ decision v <> MODIFY)
         (verifications report).
Proof.
  intros Hp Hr Hrun.
  destruct (verify_text_shaped self text w) as (report' & w1 & Hrun' & Hvs & _).
  rewrite Hrun in Hrun'. injection Hrun' as <- _.
  apply Forall2_right in Hvs. eapply Forall_impl; [|exact Hvs].
  intros v (c & (_ & _ & web & Hweb & Hdec) & _ & _ & Ha & Hb).
  exists web. specialize (Ha Hp web Hweb). specialize (Hb Hr web Hweb).
  split; [exact Hweb | split; [exact Ha | split; [exact Hb|]]].
  rewrite Hdec, Ha, Hb. unfold web_verified.
  destruct (WebValidator.status web), (strict_mode self); cbn;
    split; try discriminate; try tauto; split; congruence.
Qed.

Lemma verify_text_without_agents_witness :
  let self := mkEngine None None true (Scripted.web PARTIAL_MATCH) Scripted.unresolved in
  let report := MoatTheorems.report_of (verify_text self Scripted.doi_text 0) in
  Forall (fun v =>
            exists web,
              web_validation v = Some web
              /\ agent_a_verified v = web_verified web
              /\ agent_b_verified v = web_verified web
              /\ (decision v = KEEP <-> WebValidator.status web = VERIFIED)
              /\ decision v <> MODIFY)
         (verifications report).
Proof.
  cbv zeta.
  apply (@verify_text_without_agents
           _ (mkEngine None None true (Scripted.web PARTIAL_MATCH) Scripted.unresolved)
           Scripted.doi_text 0
           (snd (verify_text (mkEngine None None true (Scripted.web PARTIAL_MATCH)
                                       Scripted.unresolved) Scripted.doi_text 0)));
    [reflexivity | reflexivity | vm_compute; reflexivity].
Defined.

(** X7. An agent whose answer, in lower case, contains "unverified" or
    "invalid" counts as having verified the citation: both words contain a
    confirmation token. *)
Theorem _agent_verify_negative_answer
        (W : Type) (agent : CitationAgent W) (citation : ExtractedCitation)
        (web_result : ValidationResult) (w w1 : W) (content : str) :
  verify_citation agent (raw_text citation) (to_search_query citation) w
  = (Returned content, w1) ->
  contains (lit "unverified") (lower content) = true
  \/ contains (lit "invalid") (lower content) = true ->
  _agent_verify agent citation web_result w = (Returned true, w1).
Proof.
  intros Hcall Hneg. unfold _agent_verify, try_except, bind, ret. rewrite Hcall.
  destruct Hneg as [H|H].
  - apply (contains_tail (lit "un") (lit "verified")) in H. rewrite H. reflexivity.
  - apply (contains_tail (lit "in") (lit "valid")) in H. rewrite H.
    rewrite orb_true_r. reflexivity.
Qed.

Lemma _agent_verify_negative_answer_witness :
  _agent_verify (Scripted.answering "[VERIFICATION: Unverified]")
                AgentFailureTheorems.smith_2024
                (fst (Scripted.web NOT_FOUND [] None None 0)) 0
  = (Returned true, 1).
Proof.
  apply (@_agent_verify_negative_answer
           _ (Scripted.answering "[VERIFICATION: Unverified]")
           AgentFailureTheorems.smith_2024
           (fst (Scripted.web NOT_FOUND [] None None 0)) 0 1
           (lit "[VERIFICATION: Unverified]"));
    [reflexivity | left; vm_compute; reflexivity].
Defined.

(** Length of the rewritten text when nothing is deleted. *)
Lemma rewritten_length (text : str) (vs : list CitationVerification) :
  Forall (fun v => decision v <> DELETE) vs ->
  forall lo, tiled lo (List.length text) vs ->
  (Z.of_nat (List.length (rewritten text lo vs)) + Z.of_nat lo
   = Z.of_nat (List.length text) + 16 * count_of FLAG vs)%Z.
Proof.
  induction 1 as [|v vs Hv _ IH]; intros lo Ht; cbn [rewritten].
  - cbn in Ht. unfold from, count_of. rewrite length_skipn. cbn. lia.
  - cbn [tiled] in Ht. destruct Ht as (H1 & H2 & H3).
    pose proof (tiled_le _ _ _ H3) as Hend.
    specialize (IH _ H3).
    assert (Hslice : forall i j, i <= j <= List.length text ->
                                 List.length (slice i j text) = j - i).
    { intros i j Hij. unfold slice. rewrite length_firstn, length_skipn. lia. }
    rewrite !length_app, (Hslice lo (v_start v)) by lia.
    assert (Hcount : count_of FLAG (v :: vs)
                     = ((if match decision v with FLAG => true | _ => false end
                         then 1 else 0) + count_of FLAG vs)%Z).
    { unfold count_of. cbn [filter]. destruct (decision v); cbn [List.length]; lia. }
    rewrite Hcount. unfold rendered.
    destruct (decision v); try congruence;
      rewrite ?length_app, ?(Hslice (v_start v) (v_end v)) by lia;
      cbn [List.length lit list_ascii_of_string]; lia.
Qed.

(** X8. Outside strict mode nothing is deleted: the rewritten text is the
    text with 16 more characters for every flagged citation. *)
Theorem verify_text_lenient_length
        (W : Type) (self : CitationMoatEngine W) (text : str) (w w' : W)
        (report : MoatReport) :
  strict_mode self = false ->
  verify_text self text w = (Returned report, w') ->
  deleted_count report = 0%Z
  /\ (Z.of_nat (List.length (clean_text report))
      = Z.of_nat (List.length text) + 16 * flagged_count report)%Z.
Proof.
  intros Hstrict Hrun.
  destruct (verify_text_shaped self text w)
    as (report' & w1 & Hrun' & Hvs & Hclean & Ht & _ & _ & _ & Hdel & Hflag).
  rewrite Hrun in Hrun'. injection Hrun' as <- _.
  assert (Hnodel : Forall (fun v => decision v <> DELETE) (verifications report)).
  { apply Forall2_right in Hvs. eapply Forall_impl; [|exact Hvs].
    intros v (c & (_ & _ & web & _ & Hdec) & _). rewrite Hdec, Hstrict.
    destruct (WebValidator.status web), (agent_a_verified v), (agent_b_verified v);
      discriminate. }
  split.
  - rewrite Hdel. unfold count_of.
    clear - Hnodel. induction Hnodel as [|v vs Hv _ IH]; [reflexivity|].
    cbn [filter]. destruct (decision v); try congruence; exact IH.
  - rewrite Hclean, Hflag.
    pose proof (rewritten_length text Hnodel 0 Ht). lia.
Qed.

Lemma verify_text_lenient_length_witness :
  let self := Scripted.moat (Scripted.answering "Verified")
                            (Scripted.answering "Uncertain") NOT_FOUND false in
  let report := MoatTheorems.report_of (verify_text self Scripted.doi_text 0) in
  deleted_count report = 0%Z
  /\ (Z.of_nat (List.length (clean_text report))
      = Z.of_nat (List.length Scripted.doi_text) + 16 * flagged_count report)%Z.
Proof.
  cbv zeta.
  apply (@verify_text_lenient_length
           _ (Scripted.moat (Scripted.answering "Verified")
                            (Scripted.answering "Uncertain") NOT_FOUND false)
           Scripted.doi_text 0
           (snd (verify_text (Scripted.moat (Scripted.answering "Verified")
                                            (Scripted.answering "Uncertain")
                                            NOT_FOUND false) Scripted.doi_text 0)));
    [reflexivity | vm_compute; reflexivity].
Defined.

End MoatMoreTheorems.

(** ** The debate: what a finished run records *)

Module DebateRecord.
Import PyStr Eff EffFacts WebValidator MoatEngine MoatFacts MoatShape Scoring Voting
       AdaptiveDebate DebateFacts ConsensusTheorems.
Local Open Scope eff_scope.

Section Engine.
Variable W : Type.
Variable self : AdaptiveDebateEngine W.

(** A round as [play_round] records it. *)
Definition good_round (r : DebateRound) : Prop :=
  exists rs rep,
    round_score r = Some rs
    /\ citation_report r = Some rep
    /\ rs = score_round (proponent_response r) (reviewer_response r) (Some rep)
    /\ deleted_count rep = count_of DELETE (verifications rep)
    /\ verified_count rep = count_of KEEP (verifications rep).

(** Rounds numbered 1, 2, ... in the order played. *)
Definition recorded (rounds : list DebateRound) : Prop :=
  map round_number rounds = map Z.of_nat (seq 1 (List.length rounds))
  /\ Forall good_round rounds.

(** The position under debate after some rounds. *)
Definition position_after (initial : str) (rounds : list DebateRound) : str :=
  last (map proponent_response rounds) initial.

Lemma play_round_good (round_num : Z) (position : str) (context : option str)
      (w w' : W) (dr : DebateRound) (rs : RoundScore) :
  play_round self round_num position context w = (Returned (dr, rs), w') ->
  round_number dr = round_num /\ good_round dr.
Proof.
  unfold play_round. intros H.
  apply bind_inv in H. destruct H as (review & w1 & _ & H).
  apply bind_inv in H. destruct H as (defense & w2 & _ & H).
  apply bind_inv in H. destruct H as (report & w3 & Hmoat & H).
  destruct (verify_text_shaped (citation_moat self)
              (defense ++ lit (String "010" EmptyString) ++ review) w2)
    as (report' & w4 & Hrun & _ & _ & _ & _ & Hk & _ & Hd & _).
  rewrite Hmoat in Hrun. injection Hrun as <- _.
  injection H as <- <- _. split; [reflexivity|].
  exists (score_round defense review (Some report)), report.
  cbn [round_score citation_report proponent_response reviewer_response]. auto.
Qed.

Lemma recorded_snoc (rounds : list DebateRound) (r : DebateRound) :
  recorded rounds -> good_round r ->
  round_number r = (Z.of_nat (List.length rounds) + 1)%Z ->
  recorded (rounds ++ [r]).
Proof.
  intros (Hn & Hg) Hr Hnum. split.
  - rewrite map_app, length_app. cbn [map List.length].
    rewrite Nat.add_1_r, seq_S, map_app, Hn, Hnum. cbn [map].
    do 2 f_equal. lia.
  - apply Forall_app. split; [exact Hg | constructor; [exact Hr | constructor]].
Qed.

Lemma position_after_snoc (initial : str) (rounds : list DebateRound) (r : DebateRound) :
  position_after initial (rounds ++ [r]) = proponent_response r.
Proof. unfold position_after. rewrite map_app. cbn [map]. apply last_last. Qed.

Definition loop_pre (initial : str) (st : LoopState) : Prop :=
  at_loop_head self st
  /\ recorded (l_rounds st)
  /\ l_position st = position_after initial (l_rounds st).

Definition loop_post (initial : str) (st : LoopState) : Prop :=
  let rounds := l_rounds st in
  let win := window self rounds (List.length rounds) in
  l_round_num st = Z.of_nat (List.length rounds)
  /\ recorded rounds
  /\ l_position st = position_after initial rounds
  /\ (l_status st = IN_PROGRESS \/ l_status st = CONVERGED
      \/ l_status st = CONSENSUS_REACHED)
  /\ (l_status st = IN_PROGRESS -> (max_rounds self <= l_round_num st)%Z)
  /\ (l_status st = CONVERGED ->
      1 <= List.length rounds /\ converged_at self rounds (List.length rounds))
  /\ (l_status st = CONSENSUS_REACHED ->
      1 <= List.length rounds
      /\ (convergence_rounds self <= Z.of_nat (List.length win))%Z
      /\ Forall (fun s => (quality_threshold self <= s)%Q) win
      /\ ~ converged_at self rounds (List.length rounds)).

Lemma forallb_Qge (q : Q) (l : list Q) :
  forallb (fun s => Qge_bool s q) l = true -> Forall (fun s => (q <= s)%Q) l.
Proof.
  intros H. apply Forall_forall. intros s Hs.
  rewrite forallb_forall in H. apply Qge_bool_true. auto.
Qed.

Lemma round_loop_record (initial : str) (fuel : nat) (context : option str) :
  forall (st st' : LoopState) (w w' : W),
    loop_pre initial st ->
    (max_rounds self - l_round_num st <= Z.of_nat fuel)%Z ->
    round_loop self fuel context st w = (Returned st', w') ->
    loop_post initial st'.
Proof.
  induction fuel as [|fuel IH]; intros st st' w w' Hpre Hfuel Hrun;
    cbn [round_loop] in Hrun.
  - destruct (Z.ltb_spec (l_round_num st) (max_rounds self)) as [Hguard|Hguard];
      [lia|].
    injection Hrun as <- _.
    destruct Hpre as ((Hs & Hn & _ & _) & Hrec & Hpos).
    unfold loop_post. cbv zeta.
    split; [exact Hn | split; [exact Hrec | split; [exact Hpos | split; [auto|]]]].
    rewrite Hs. split; [intros _; exact Hguard | split; discriminate].
  - destruct (Z.ltb_spec (l_round_num st) (max_rounds self)) as [Hguard|Hguard].
    2:{ injection Hrun as <- _.
        destruct Hpre as ((Hs & Hn & _ & _) & Hrec & Hpos).
        unfold loop_post. cbv zeta.
        split; [exact Hn | split; [exact Hrec | split; [exact Hpos | split; [auto|]]]].
        rewrite Hs. split; [intros _; exact Hguard | split; discriminate]. }
    apply bind_inv in Hrun. destruct Hrun as ([dr rs] & w1 & Hplay & Hrun).
    destruct (play_round_inv _ _ _ _ _ Hplay) as (Hscore & _).
    destruct (play_round_good _ _ _ _ Hplay) as (Hnum & Hgood).
    destruct Hpre as ((Hs & Hn & Hrecent & Hnone) & Hrec & Hpos).
    assert (Hscores : scores (l_rounds st ++ [dr])
                      = scores (l_rounds st) ++ [total_score rs]).
    { unfold scores. rewrite map_app. cbn [map]. unfold round_total.
      rewrite Hscore. reflexivity. }
    rewrite Hrecent in Hrun.
    destruct (Z.le_gt_cases (convergence_rounds self) 0) as [Hc|Hc].
    + exfalso.
      replace (Z.to_nat (convergence_rounds self)) with 0%nat in Hrun by lia.
      unfold lastn in Hrun at 1 2 3. rewrite Nat.sub_0_r, skipn_all in Hrun.
      cbn [app List.length] in Hrun.
      destruct (Z.ltb_spec (convergence_rounds self) (Z.of_nat 1)) as [_|]; [|lia].
      cbn [tl] in Hrun.
      apply bind_inv in Hrun. destruct Hrun as (b & w2 & Hcheck & _).
      unfold lift_outcome in Hcheck.
      rewrite (_check_convergence_empty self Hc) in Hcheck. discriminate.
    + rewrite (window_push self (scores (l_rounds st)) (total_score rs)) in Hrun
        by lia.
      rewrite <- Hscores in Hrun.
      set (rounds' := l_rounds st ++ [dr]) in *.
      set (recent' := lastn (Z.to_nat (convergence_rounds self)) (scores rounds'))
        in *.
      assert (Hlen' : List.length rounds' = S (List.length (l_rounds st))).
      { subst rounds'. rewrite length_app. cbn [List.length]. lia. }
      assert (Hrec' : recorded rounds').
      { apply recorded_snoc; [exact Hrec | exact Hgood | lia]. }
      assert (Hpos' : proponent_response dr = position_after initial rounds').
      { subst rounds'. rewrite position_after_snoc. reflexivity. }
      assert (Hwin : window self rounds' (List.length rounds') = recent')
        by apply window_last.
      destruct (@_check_convergence_full _ self recent') as (b & Hcheck & Hb);
        [lia | subst recent'; rewrite length_lastn; lia |].
      apply bind_inv in Hrun. destruct Hrun as (b' & w2 & Hcheck' & Hrun).
      unfold lift_outcome in Hcheck'. rewrite Hcheck in Hcheck'.
      injection Hcheck' as <- <-.
      assert (Hlast : converged_at self rounds' (List.length rounds') <-> b = true).
      { unfold converged_at. rewrite Hwin. tauto. }
      destruct b.
      * injection Hrun as <- _. unfold loop_post. cbv zeta.
        cbn [l_rounds l_status l_round_num l_position].
        split; [lia | split; [exact Hrec' | split; [exact Hpos' | split; [auto|]]]].
        split; [discriminate | split; [|discriminate]].
        intros _. split; [lia | apply Hlast; reflexivity].
      * destruct (_ && _) eqn:Hq in Hrun.
        -- injection Hrun as <- _. unfold loop_post. cbv zeta.
           cbn [l_rounds l_status l_round_num l_position].
           split; [lia | split; [exact Hrec' | split; [exact Hpos' | split; [auto|]]]].
           split; [discriminate | split; [discriminate|]].
           intros _. rewrite Hwin.
           apply andb_true_iff in Hq. destruct Hq as (Hq & Hall).
           apply andb_true_iff in Hq. destruct Hq as (_ & Hfull).
           apply Z.leb_le in Hfull.
           split; [lia | split; [exact Hfull | split; [apply forallb_Qge; exact Hall|]]].
           intros Hconv. apply Hlast in Hconv. discriminate.
        -- apply IH in Hrun; [exact Hrun | | cbn [l_round_num]; lia].
           unfold loop_pre, at_loop_head.
           cbn [l_status l_rounds l_round_num l_recent_scores l_position].
           split; [|split; [exact Hrec' | exact Hpos']].
           split; [exact Hs | split; [lia | split; [reflexivity|]]].
           intros k Hk Hconv.
           destruct (Nat.eq_dec k (List.length rounds')) as [->|Hne].
           ++ apply Hlast in Hconv. discriminate.
           ++ apply (Hnone k); [lia|].
              apply (converged_at_snoc self (l_rounds st) dr); [lia | exact Hconv].
Qed.

(** *** The re-evaluation loop *)

Definition vote_post (st : VoteState) : Prop :=
  v_result st = _run_voting self (v_position st)
  /\ (0 <= v_re_evaluations st <= 3)%Z
  /\ (passed (v_result st) = false -> v_re_evaluations st = 3%Z).

Lemma revote_loop_record (fuel : nat) :
  forall (st st' : VoteState) (w w' : W),
    v_result st = _run_voting self (v_position st) ->
    (0 <= v_re_evaluations st <= 3)%Z ->
    (3 - v_re_evaluations st <= Z.of_nat fuel)%Z ->
    revote_loop self fuel st w = (Returned st', w') ->
    vote_post st'
    /\ (v_re_evaluations st' = v_re_evaluations st -> st' = st).
Proof.
  induction fuel as [|fuel IH]; intros st st' w w' Hres Hre Hfuel Hrun;
    cbn [revote_loop] in Hrun.
  - destruct (Z.ltb_spec (v_re_evaluations st) 3) as [|Hge]; [lia|].
    rewrite andb_false_r in Hrun. injection Hrun as <- _.
    split; [|reflexivity]. unfold vote_post. repeat split; auto; lia.
  - destruct (negb (passed (v_result st))) eqn:Hp;
      destruct (Z.ltb_spec (v_re_evaluations st) 3) as [Hlt|Hge];
      cbn [andb] in Hrun;
      try (injection Hrun as <- _; split; [|reflexivity]; unfold vote_post;
           repeat split; auto; try lia;
           intros Hf; rewrite Hf in Hp; cbn in Hp; try discriminate; lia).
    apply bind_inv in Hrun. destruct Hrun as (rev & w1 & _ & Hrun).
    pose proof (@revote_loop_bound _ self fuel _ _ _ _ Hrun) as Hb.
    cbn [v_re_evaluations] in Hb.
    apply IH in Hrun; cbn [v_result v_position v_re_evaluations]; try reflexivity;
      try lia.
    destruct Hrun as (Hpost & _). split; [exact Hpost|].
    intros Heq. lia.
Qed.

End Engine.

End DebateRecord.

Module DebateMoreTheorems.
Import PyStr Eff EffFacts WebValidator MoatEngine MoatFacts Scoring Voting
       AdaptiveDebate DebateFacts DebateRecord ConsensusTheorems DebateTheorems.

(** A finished run, by the states its two loops ended in. *)
Lemma run_debate_record (W : Type) (self : AdaptiveDebateEngine W) (question : str)
      (context : option str) (w w' : W) (res : DebateResult) :
  run_debate self question context w = (Returned res, w') ->
  exists initial st vs,
    loop_post self initial st
    /\ after_loop self 0 st
    /\ vote_post self vs
    /\ (v_re_evaluations vs = 0%Z -> v_position vs = l_position st)
    /\ AdaptiveDebate.status res
       = (if status_eqb (l_status st) IN_PROGRESS then MAX_ROUNDS_REACHED
          else l_status st)
    /\ rounds res = l_rounds st
    /\ total_rounds res = List.length (l_rounds st)
    /\ final_score res = weighted_average (v_result vs)
    /\ voting_result res = Some (v_result vs)
    /\ re_evaluations res = v_re_evaluations vs
    /\ (consensus_points res, disputed_points res) = _extract_points (l_rounds st).
Proof.
  unfold run_debate. intros H.
  apply bind_inv in H. destruct H as (initial & w1 & _ & H).
  apply bind_inv in H. destruct H as (st & w2 & Hloop & H).
  apply bind_inv in H. destruct H as (vs & w3 & Hvote & H).
  apply bind_inv in H. destruct H as (final & w4 & _ & H).
  assert (Hhead : at_loop_head self (mkLoop IN_PROGRESS [] 0 initial [])).
  { unfold at_loop_head. cbn [l_status l_round_num l_rounds l_recent_scores].
    split; [reflexivity | split; [reflexivity | split; [reflexivity|]]].
    cbn. intros; lia. }
  pose proof Hloop as Hafter.
  apply round_loop_spec in Hafter; [|exact Hhead].
  cbn [l_round_num] in Hafter.
  apply round_loop_record with (initial := initial) in Hloop.
  2:{ split; [exact Hhead|]. split; [|reflexivity].
      split; [reflexivity | constructor]. }
  2:{ cbn [l_round_num]. lia. }
  apply revote_loop_record in Hvote;
    cbn [v_result v_position v_re_evaluations]; try reflexivity; try lia.
  destruct Hvote as (Hvote & Hsame).
  exists initial, st, vs.
  destruct (_extract_points (l_rounds st)) as [consensus disputed] eqn:Ep.
  injection H as <- _.
  cbn [AdaptiveDebate.status rounds total_rounds final_score voting_result
       re_evaluations consensus_points disputed_points].
  refine (conj Hloop (conj Hafter (conj Hvote (conj _ _)))).
  - intros Hz. rewrite (Hsame Hz). reflexivity.
  - repeat apply conj; reflexivity.
Qed.

Lemma window_length (W : Type) (self : AdaptiveDebateEngine W)
      (rounds : list DebateRound) (k : nat) :
  List.length (window self rounds k) <= List.length rounds.
Proof.
  unfold window. rewrite length_lastn, length_firstn. unfold scores.
  rewrite length_map. lia.
Qed.

(** X9. A run of [run_debate] that returns ends in one of the statuses
    CONVERGED, CONSENSUS_REACHED and MAX_ROUNDS_REACHED. With
    MAX_ROUNDS_REACHED exactly [max_rounds] rounds were played (none for a
    negative [max_rounds]); with the other two at least one round and at least
    [convergence_rounds] rounds were played. *)
Theorem run_debate_terminal_status
        (W : Type) (self : AdaptiveDebateEngine W) (question : str)
        (context : option str) (w w' : W) (res : DebateResult) :
  run_debate self question context w = (Returned res, w') ->
  let st := AdaptiveDebate.status res in
  (st = CONVERGED \/ st = CONSENSUS_REACHED \/ st = MAX_ROUNDS_REACHED)
  /\ (st = MAX_ROUNDS_REACHED ->
      Z.of_nat (total_rounds res) = Z.max 0 (max_rounds self))
  /\ (st = CONVERGED \/ st = CONSENSUS_REACHED ->
      1 <= total_rounds res
      /\ (convergence_rounds self <= Z.of_nat (total_rounds res))%Z).
Proof.
  intros Hrun. apply run_debate_record in Hrun.
  destruct Hrun as (initial & st & vs & Hpost & Hafter & _ & _
                    & Hstatus & _ & Htotal & _).
  destruct Hpost as (Hn & _ & _ & Hcases & Hprog & Hconv & Hcons).
  destruct Hafter as (Hmax & _).
  cbv zeta. rewrite Hstatus, Htotal.
  pose proof (window_length self (l_rounds st) (List.length (l_rounds st))) as Hwin.
  destruct Hcases as [Hs|[Hs|Hs]]; rewrite Hs in *; cbn [status_eqb].
  - specialize (Hprog eq_refl).
    split; [auto | split; [intros _; lia | intros [H|H]; discriminate]].
  - destruct (Hconv eq_refl) as (H1 & Hfull & _).
    split; [auto | split; [discriminate | intros _; split; [exact H1 | lia]]].
  - destruct (Hcons eq_refl) as (H1 & Hfull & _).
    split; [auto | split; [discriminate | intros _; split; [exact H1 | lia]]].
Qed.

Lemma run_debate_terminal_status_witness :
  let engine :=
    AdaptiveDebate.init (mkEnviron None None None None)
                        (Scripted.web NOT_FOUND) Scripted.unresolved
                        (Scripted.proponent "x" "y") (Scripted.reviewer "z")
                        (Some 2%Z) None 3 in
  exists res w',
    run_debate engine (lit "Is X true?") None 0 = (Returned res, w')
    /\ AdaptiveDebate.status res = MAX_ROUNDS_REACHED
    /\ total_rounds res = 2.
Proof.
  cbv zeta.
  set (engine := AdaptiveDebate.init _ _ _ _ _ _ _ _).
  destruct (@run_debate_total _ engine (lit "Is X true?") None) with (w := 0)
    as (res & w' & Hrun).
  - eapply scripted_agents_respond; reflexivity.
  - reflexivity.
  - exists res, w'. split; [exact Hrun|].
    destruct (@run_debate_terminal_status _ engine _ _ _ _ _ Hrun) as (_ & Hmax & _).
    pose proof Hrun as Hc. vm_compute in Hc. injection Hc as Hr _.
    assert (Hs : AdaptiveDebate.status res = MAX_ROUNDS_REACHED)
      by (subst res; reflexivity).
    split; [exact Hs|].
    specialize (Hmax Hs). change (max_rounds engine) with 2%Z in Hmax. lia.
Defined.






(** X12. The voting result of a finished debate is the vote of the voting
    engine on some position, and [final_score] is its weighted average. If
    the vote failed, three re-evaluations were made. Without re-evaluation the
    position voted on is the defense of the last round. *)
Theorem run_debate_final_vote
        (W : Type) (self : AdaptiveDebateEngine W) (question : str)
        (context : option str) (w w' : W) (res : DebateResult) :
  run_debate self question context w = (Returned res, w') ->
  exists position,
    voting_result res = Some (vote (voting_engine self) position)
    /\ final_score res = weighted_average (vote (voting_engine self) position)
    /\ (passed (vote (voting_engine self) position) = false ->
        re_evaluations res = 3%Z)
    /\ (re_evaluations res = 0%Z ->
        forall r, last (map Some (rounds res)) None = Some r ->
                  position = proponent_response r).
Proof.
  intros Hrun. apply run_debate_record in Hrun.
  destruct Hrun as (initial & st & vs & Hpost & _ & Hvote & Hsame
                    & _ & Hrounds & _ & Hfinal & Hvr & Hre & _).
  destruct Hvote as (Hres & _ & Hfail).
  destruct Hpost as (_ & _ & Hpos & _).
  exists (v_position vs). unfold _run_voting in Hres.
  rewrite Hvr, Hfinal, Hre, Hrounds, Hres.
  split; [reflexivity | split; [reflexivity | split]].
  - rewrite <- Hres. exact Hfail.
  - intros Hz r Hlast. rewrite (Hsame Hz), Hpos. unfold position_after.
    clear - Hlast. induction (l_rounds st) as [|x l IH]; [discriminate|].
    destruct l as [|y l].
    + cbn in Hlast |- *. injection Hlast as <-. reflexivity.
    + apply IH. exact Hlast.
Qed.

Lemma run_debate_final_vote_witness :
  let engine :=
    AdaptiveDebate.init (mkEnviron None None None None)
                        (Scripted.web NOT_FOUND) Scripted.unresolved
                        (Scripted.proponent "x" "y") (Scripted.reviewer "z")
                        (Some 1%Z) None 3 in
  exists res w' position,
    run_debate engine (lit "Is X true?") None 0 = (Returned res, w')
    /\ voting_result res = Some (vote (voting_engine engine) position)
    /\ final_score res = weighted_average (vote (voting_engine engine) position).
Proof.
  cbv zeta.
  set (engine := AdaptiveDebate.init _ _ _ _ _ _ _ _).
  destruct (@run_debate_total _ engine (lit "Is X true?") None) with (w := 0)
    as (res & w' & Hrun).
  - eapply scripted_agents_respond; reflexivity.
  - reflexivity.
  - destruct (@run_debate_final_vote _ engine _ _ _ _ _ Hrun)
      as (position & Hv & Hf & _).
    exists res, w', position. split; [exact Hrun | split; assumption].
Defined.

End DebateMoreTheorems.

Module PointsTheorems.
Import PyStr AdaptiveDebate DebateFacts MoatShape.

Definition agrees (r : DebateRound) : bool :=
  let content := lower (proponent_response r) in
  contains (lit "agree") content || contains (lit "concede") content.

Definition disputes (r : DebateRound) : bool :=
  let content := lower (proponent_response r) in
  contains (lit "disagree") content || contains (lit "dispute") content.

Definition agreement (r : DebateRound) : str :=
  lit "Round " ++ str_of_Z (round_number r) ++ lit ": Agreement reached".

Definition dispute (r : DebateRound) : str :=
  lit "Round " ++ str_of_Z (round_number r) ++ lit ": Dispute continues".

Lemma points_loop (l : list DebateRound) (c d : list str) :
  fold_left
    (fun (acc : list str * list str) (round : DebateRound) =>
       let (consensus, disputed) := acc in
       let content := lower (proponent_response round) in
       let consensus :=
         if contains (lit "agree") content || contains (lit "concede") content
         then consensus ++ [lit "Round " ++ str_of_Z (round_number round)
                             ++ lit ": Agreement reached"]
         else consensus in
       let disputed :=
         if contains (lit "disagree") content || contains (lit "dispute") content
         then disputed ++ [lit "Round " ++ str_of_Z (round_number round)
                            ++ lit ": Dispute continues"]
         else disputed in
       (consensus, disputed))
    l (c, d)
  = (c ++ map agreement (filter agrees l), d ++ map dispute (filter disputes l)).
Proof.
  revert c d. induction l as [|r l IH]; intros c d.
  - cbn [fold_left filter map]. rewrite !app_nil_r. reflexivity.
  - cbn [fold_left filter]. cbv zeta. rewrite IH.
    fold (agrees r). fold (disputes r). fold (agreement r). fold (dispute r).
    destruct (agrees r), (disputes r); cbn [map];
      rewrite <- ?app_assoc; reflexivity.
Qed.

(** The loop of [_extract_points], as a filter of the last three rounds. *)
Lemma _extract_points_filter (rounds : list DebateRound) :
  _extract_points rounds
  = (map agreement (filter agrees (last3 rounds)),
     map dispute (filter disputes (last3 rounds))).
Proof. unfold _extract_points. apply points_loop. Qed.

Lemma length_last3 (A : Type) (l : list A) : List.length (last3 l) <= 3.
Proof. unfold last3. rewrite length_skipn. lia. Qed.

Lemma length_filter_le (A : Type) (f : A -> bool) (l : list A) :
  List.length (filter f l) <= List.length l.
Proof.
  induction l as [|a l IH]; cbn [filter]; [lia|].
  destruct (f a); cbn [List.length]; lia.
Qed.

(** X13. [_extract_points] looks at the last three rounds only, so each of
    its two lists has at most three entries, in the order of the rounds. A
    round whose defense contains "disagree" is listed as an agreement as well
    as a dispute, since "agree" is searched as a substring. *)
Theorem _extract_points_last_three (rounds : list DebateRound) :
  let consensus := fst (_extract_points rounds) in
  let disputed := snd (_extract_points rounds) in
  consensus = map agreement (filter agrees (skipn (List.length rounds - 3) rounds))
  /\ disputed = map dispute (filter disputes (skipn (List.length rounds - 3) rounds))
  /\ List.length consensus <= 3
  /\ List.length disputed <= 3
  /\ forall r, In r (skipn (List.length rounds - 3) rounds) ->
               contains (lit "disagree") (lower (proponent_response r)) = true ->
               In (agreement r) consensus /\ In (dispute r) disputed.
Proof.
  cbv zeta. rewrite _extract_points_filter. cbn [fst snd].
  fold (last3 rounds).
  split; [reflexivity | split; [reflexivity|]].
  pose proof (length_last3 rounds) as H3.
  pose proof (length_filter_le agrees (last3 rounds)).
  pose proof (length_filter_le disputes (last3 rounds)).
  rewrite !length_map.
  split; [lia | split; [lia|]].
  intros r Hin Hdis.
  assert (Hagree : contains (lit "agree") (lower (proponent_response r)) = true)
    by exact (contains_tail (lit "dis") (lit "agree") _ Hdis).
  split; apply in_map; apply filter_In; split; try exact Hin.
  - unfold agrees. cbv zeta. rewrite Hagree. reflexivity.
  - unfold disputes. cbv zeta. rewrite Hdis. reflexivity.
Qed.

End PointsTheorems.

Module ConsensusMoreTheorems.
Import PyStr Eff WebValidator MoatEngine MoatFacts Scoring Voting AdaptiveDebate
       DebateFacts DebateRecord DebateMoreTheorems Consensus ConsensusTheorems
       DebateTheorems.
Local Open Scope Q_scope.

Lemma run_debate_final_score
      (W : Type) (self : AdaptiveDebateEngine W) (question : str)
      (context : option str) (w w' : W) (res : DebateResult) :
  run_debate self question context w = (Returned res, w') ->
  (exists v, voting_result res = Some v /\ final_score res = weighted_average v)
  /\ 52.75 <= final_score res <= 83
  /\ (0 <= re_evaluations res <= 3)%Z
  /\ (AdaptiveDebate.status res = CONVERGED
      \/ AdaptiveDebate.status res = CONSENSUS_REACHED
      \/ AdaptiveDebate.status res = MAX_ROUNDS_REACHED).
Proof.
  intros Hrun. apply run_debate_record in Hrun.
  destruct Hrun as (initial & st & vs & Hpost & _ & Hvote & _
                    & Hstatus & _ & _ & Hfinal & Hvr & Hre & _).
  destruct Hvote as (Hres & Hbound & _).
  destruct Hpost as (_ & _ & _ & Hcases & _).
  split; [exists (v_result vs); auto|].
  rewrite Hfinal, Hre, Hstatus, Hres. unfold _run_voting.
  split; [apply VotingFacts.weighted_average_range | split; [exact Hbound|]].
  destruct Hcases as [Hs|[Hs|Hs]]; rewrite Hs; cbn [status_eqb]; auto.
Qed.

(** X14. For the result of a run of [run_debate], neither way of calling the
    consensus generator (with the result's own voting result, or without a
    voting result) gives the verdict VALIDATED or INCONCLUSIVE: the final
    score is a weighted average of the voting engine and lies between 52.75
    and 83, below the 85 that VALIDATED asks for, and the status is never
    DEADLOCK. Without a voting result the verdict is never REJECTED
    either. *)
Theorem run_debate_verdict
        (W : Type) (self : AdaptiveDebateEngine W) (question : str)
        (context : option str) (w w' : W) (res : DebateResult) :
  run_debate self question context w = (Returned res, w') ->
  let v := verdict (generate res (voting_result res)) in
  let g := verdict (generate res None) in
  (v = lit "REJECTED" \/ v = lit "PARTIALLY VALIDATED" \/ v = lit "NEEDS REVISION")
  /\ (g = lit "PARTIALLY VALIDATED" \/ g = lit "NEEDS REVISION")
  /\ v <> lit "VALIDATED" /\ g <> lit "VALIDATED"
  /\ 52.75 <= final_score res <= 83.
Proof.
  intros Hrun. apply run_debate_final_score in Hrun.
  destruct Hrun as ((vr & Hvr & _) & Hrange & _ & Hstatus).
  assert (H85 : Qge_bool (final_score res) 85 = false).
  { apply Qge_bool_false. destruct Hrange as (_ & Hhi).
    eapply Qle_lt_trans; [exact Hhi | reflexivity]. }
  assert (Hg : let g := verdict (generate res None) in
               g = lit "PARTIALLY VALIDATED" \/ g = lit "NEEDS REVISION").
  { cbv zeta. unfold generate, _determine_verdict. cbn [verdict].
    destruct Hstatus as [Hs|[Hs|Hs]]; rewrite Hs; cbn [status_eqb];
      rewrite ?H85; auto.
    destruct (Qge_bool (final_score res) 75); auto. }
  assert (Hv : let v := verdict (generate res (voting_result res)) in
               v = lit "REJECTED" \/ v = lit "PARTIALLY VALIDATED"
               \/ v = lit "NEEDS REVISION").
  { cbv zeta. unfold generate, _determine_verdict. cbn [verdict].
    rewrite Hvr. destruct (negb (passed vr)); [auto|].
    destruct Hstatus as [Hs|[Hs|Hs]]; rewrite Hs; cbn [status_eqb];
      rewrite ?H85; auto.
    destruct (Qge_bool (final_score res) 75); auto. }
  cbv zeta in Hg, Hv |- *.
  split; [exact Hv | split; [exact Hg | split; [|split; [|exact Hrange]]]].
  - destruct Hv as [Hs|[Hs|Hs]]; rewrite Hs; vm_compute; discriminate.
  - destruct Hg as [Hs|Hs]; rewrite Hs; vm_compute; discriminate.
Qed.

Lemma run_debate_verdict_witness :
  let engine :=
    AdaptiveDebate.init (mkEnviron None None None None)
                        (Scripted.web NOT_FOUND) Scripted.unresolved
                        (Scripted.proponent "x" "y") (Scripted.reviewer "z")
                        (Some 1%Z) None 3 in
  exists res w',
    run_debate engine (lit "Is X true?") None 0%nat = (Returned res, w')
    /\ verdict (generate res (voting_result res)) = lit "REJECTED"
    /\ verdict (generate res None) = lit "PARTIALLY VALIDATED"
    /\ final_score res <= 83.
Proof.
  cbv zeta.
  set (engine := AdaptiveDebate.init _ _ _ _ _ _ _ _).
  destruct (@run_debate_total _ engine (lit "Is X true?") None) with (w := 0%nat)
    as (res & w' & Hrun).
  - eapply scripted_agents_respond; reflexivity.
  - reflexivity.
  - exists res, w'. split; [exact Hrun|].
    destruct (@run_debate_verdict _ engine _ _ _ _ _ Hrun)
      as (_ & _ & _ & _ & _ & Hhi).
    pose proof Hrun as Hc. vm_compute in Hc. injection Hc as Hr _.
    split; [subst res; vm_compute; reflexivity|].
    split; [subst res; vm_compute; reflexivity | exact Hhi].
Defined.

(** X15. The confidence of a consensus is never negative. For the result of
    a run of [run_debate] taken with its own voting result it is the final
    score less five points for each re-evaluation, or 0 if that is negative,
    and it is at most 83. *)
Theorem run_debate_confidence
        (W : Type) (self : AdaptiveDebateEngine W) (question : str)
        (context : option str) (w w' : W) (res : DebateResult) :
  run_debate self question context w = (Returned res, w') ->
  let c := confidence (generate res (voting_result res)) in
  c == Qmax 0 (final_score res - inject_Z (5 * re_evaluations res))
  /\ 0 <= c <= 83.
Proof.
  intros Hrun. apply run_debate_final_score in Hrun.
  destruct Hrun as ((vr & Hvr & Hfinal) & (_ & Hhi) & (Hre & _) & _).
  cbv zeta. unfold generate, _calculate_confidence. cbn [confidence].
  rewrite Hvr, <- Hfinal.
  assert (Hp : 0 <= inject_Z (re_evaluations res * 5)).
  { change 0 with (inject_Z 0). rewrite <- Zle_Qle. lia. }
  assert (Heq : (final_score res + final_score res) / 2
                - inject_Z (re_evaluations res * 5)
                == final_score res - inject_Z (5 * re_evaluations res)).
  { rewrite (Z.mul_comm 5). field. }
  split; [rewrite Heq; reflexivity|].
  split; [apply Q.le_max_l|].
  apply Q.max_lub; [discriminate|]. rewrite Heq, (Z.mul_comm 5). lra.
Qed.

Lemma run_debate_confidence_witness :
  let engine :=
    AdaptiveDebate.init (mkEnviron None None None None)
                        (Scripted.web NOT_FOUND) Scripted.unresolved
                        (Scripted.proponent "x" "y") (Scripted.reviewer "z")
                        (Some 1%Z) None 3 in
  exists res w',
    run_debate engine (lit "Is X true?") None 0%nat = (Returned res, w')
    /\ confidence (generate res (voting_result res))
       == Qmax 0 (final_score res - 15).
Proof.
  cbv zeta.
  set (engine := AdaptiveDebate.init _ _ _ _ _ _ _ _).
  destruct (@run_debate_total _ engine (lit "Is X true?") None) with (w := 0%nat)
    as (res & w' & Hrun).
  - eapply scripted_agents_respond; reflexivity.
  - reflexivity.
  - exists res, w'. split; [exact Hrun|].
    destruct (@run_debate_confidence _ engine _ _ _ _ _ Hrun) as (Hc & _).
    pose proof Hrun as Hv. vm_compute in Hv. injection Hv as Hr _.
    assert (Hre : re_evaluations res = 3%Z) by (subst res; reflexivity).
    rewrite Hre in Hc. exact Hc.
Defined.

(** The citations a report deleted, as the consensus lists them. *)
Definition deleted_of (r : DebateRound) : Z :=
  match citation_report r with
  | Some report => deleted_count report
  | None => 0%Z
  end.

Lemma rejected_of_report (vs : list CitationVerification) :
  Z.of_nat (List.length
              (flat_map (fun v => match decision v with
                                  | DELETE =>
                                      [Extractor.raw_text (original_citation v)
                                       ++ lit " - Reason: " ++ reason v]
                                  | _ => []
                                  end) vs))
  = count_of DELETE vs.
Proof.
  unfold count_of. f_equal.
  induction vs as [|v vs IH]; [reflexivity|].
  cbn [flat_map filter]. rewrite length_app, IH.
  destruct (decision v); reflexivity.
Qed.

Lemma length_flat_map_sum (A B : Type) (f : A -> list B) (g : A -> Z) (l : list A) :
  Forall (fun a => Z.of_nat (List.length (f a)) = g a) l ->
  Z.of_nat (List.length (flat_map f l)) = fold_right Z.add 0%Z (map g l).
Proof.
  induction 1 as [|a l Ha _ IH]; [reflexivity|].
  cbn [flat_map map fold_right]. rewrite length_app, Nat2Z.inj_add, IH, Ha.
  reflexivity.
Qed.

(** X16. The consensus of a run of [run_debate] lists one rejected claim for
    each citation that the citation reports of the rounds counted as
    deleted, and its remaining disputes are the disputed points of the
    result. *)
Theorem run_debate_rejected_claims
        (W : Type) (self : AdaptiveDebateEngine W) (question : str)
        (context : option str) (w w' : W) (res : DebateResult)
        (vr : option VotingResult) :
  run_debate self question context w = (Returned res, w') ->
  Z.of_nat (List.length (rejected_claims (generate res vr)))
  = fold_right Z.add 0%Z (map deleted_of (rounds res))
  /\ remaining_disputes (generate res vr) = snd (_extract_points (rounds res)).
Proof.
  intros Hrun. apply run_debate_record in Hrun.
  destruct Hrun as (initial & st & vs & Hpost & _ & _ & _
                    & _ & Hrounds & _ & _ & _ & _ & Hpoints).
  destruct Hpost as (_ & (_ & Hgood) & _).
  unfold generate, _extract_rejected_claims.
  cbn [rejected_claims remaining_disputes].
  rewrite Hrounds, <- Hpoints. split; [|reflexivity].
  apply length_flat_map_sum. eapply Forall_impl; [|exact Hgood].
  intros r (rs & rep & _ & Hrep & _ & Hdel & _).
  unfold deleted_of. rewrite Hrep, Hdel. apply rejected_of_report.
Qed.

Lemma run_debate_rejected_claims_witness :
  let engine :=
    AdaptiveDebate.init (mkEnviron None None None None)
                        (Scripted.web NOT_FOUND) Scripted.unresolved
                        (Scripted.proponent "x (Smith, 2024) is confirmed [1]" "y")
                        (Scripted.reviewer "z") (Some 2%Z) None 3 in
  exists res w',
    run_debate engine (lit "Is X true?") None 0%nat = (Returned res, w')
    /\ List.length (rejected_claims (generate res None)) = 4%nat.
Proof.
  cbv zeta.
  set (engine := AdaptiveDebate.init _ _ _ _ _ _ _ _).
  destruct (@run_debate_total _ engine (lit "Is X true?") None) with (w := 0%nat)
    as (res & w' & Hrun).
  - eapply scripted_agents_respond; reflexivity.
  - reflexivity.
  - exists res, w'. split; [exact Hrun|].
    destruct (@run_debate_rejected_claims _ engine _ _ _ _ _ None Hrun) as (Hn & _).
    pose proof Hrun as Hv. vm_compute in Hv. injection Hv as Hr _.
    apply Nat2Z.inj. rewrite Hn. subst res. vm_compute. reflexivity.
Defined.

End ConsensusMoreTheorems.

(** ** The web validator: which results the cascade of strategies gives *)

Module WebSourcesFacts.
Import PyStr Re Eff WebValidator WebSources.

Section Validator.
Variable W : Type.
Variable net : Network W.

(** What one strategy answers: its own query, and either a verified result
    of the strategy's confidence and source, or nothing found; the URL
    check alone may also answer with a partial match. *)
Definition answers (partial : bool) (query : str) (conf : Q) (src : string)
           (r : ValidationResult) : Prop :=
  search_queries_used r = [query]
  /\ ((status r = VERIFIED /\ confidence r = conf /\ source r = Some (lit src))
      \/ (status r = NOT_FOUND /\ confidence r = 0%Q)
      \/ (partial = true /\ status r = PARTIAL_MATCH)).

Ltac settle_answer :=
  unfold answers; cbn [search_queries_used status confidence source or_else];
  split; [reflexivity | auto 6].

Lemma _validate_doi_answers (doi : str) (w : W) :
  answers false (lit "DOI: " ++ doi) 100 "DOI.org" (fst (_validate_doi net doi w)).
Proof.
  unfold _validate_doi, attempt, bind, ret.
  destruct (head net (lit "https://doi.org/" ++ doi) w) as [[[st u]|e] w1];
    [destruct (st =? 200)%Z|]; cbn [fst]; settle_answer.
Qed.

Lemma _validate_url_answers (url : str) (w : W) :
  answers true (lit "URL: " ++ url) 90 "Direct URL" (fst (_validate_url net url w)).
Proof.
  unfold _validate_url, attempt, bind, ret.
  destruct (head net url w) as [[[st u]|e] w1];
    [destruct (st =? 200)%Z; [|destruct (st =? 403)%Z]|]; cbn [fst]; settle_answer.
Qed.

Lemma _search_semantic_scholar_answers (query : str) (w : W) :
  answers false (lit "Semantic Scholar: " ++ query) 85 "Semantic Scholar"
          (fst (_search_semantic_scholar net query w)).
Proof.
  unfold _search_semantic_scholar, attempt, bind, ret.
  destruct (get_semantic_scholar net query w) as [[[st [|p ps]]|e] w1];
    try destruct (st =? 200)%Z; cbn [fst]; settle_answer.
Qed.

Lemma _search_crossref_answers (query : str) (w : W) :
  answers false (lit "CrossRef: " ++ query) 85 "CrossRef"
          (fst (_search_crossref net query w)).
Proof.
  unfold _search_crossref, attempt, bind, ret, raise.
  destruct (get_crossref net query w) as [[[st [|[[[|t ts]|] d] ps]]|e] w1];
    try destruct (st =? 200)%Z; cbn [fst work_title]; settle_answer.
Qed.

Lemma _search_arxiv_answers (query : str) (w : W) :
  answers false (lit "arXiv: " ++ query) 80 "arXiv" (fst (_search_arxiv net query w)).
Proof.
  unfold _search_arxiv, attempt, bind, ret, raise.
  destruct (get_arxiv net (lit "all:" ++ query) w) as [[[st body]|e] w1];
    [destruct (st =? 200)%Z|]; cbn [fst]; try settle_answer.
  destruct (search title_pattern body) as [m|]; [|settle_answer].
  destruct (group m 1) as [title|]; [|settle_answer].
  destruct (negb (contains (lit "arxiv") (lower title))); settle_answer.
Qed.

(** The queries [validate] has made when every strategy was tried. *)
Definition doi_query (doi : option str) : list str :=
  match doi with
  | Some ((_ :: _) as d) => [lit "DOI: " ++ d]
  | _ => []
  end.

Definition url_query (url : option str) : list str :=
  match url with
  | Some ((_ :: _) as u) => [lit "URL: " ++ u]
  | _ => []
  end.

Definition source_queries (query : str) : list str :=
  [lit "Semantic Scholar: " ++ query; lit "CrossRef: " ++ query;
   lit "arXiv: " ++ query].

(** The result of [validate], case by case. *)
Definition validated (query : str) (doi url : option str) (r : ValidationResult)
  : Prop :=
  (status r = VERIFIED /\ confidence r = 100%Q /\ source r = Some (lit "DOI.org")
   /\ truthy doi = true /\ search_queries_used r = doi_query doi)
  \/ (status r = VERIFIED /\ confidence r = 90%Q /\ source r = Some (lit "Direct URL")
      /\ truthy url = true /\ search_queries_used r = url_query url)
  \/ (status r = VERIFIED /\ confidence r = 85%Q
      /\ source r = Some (lit "Semantic Scholar")
      /\ search_queries_used r
         = doi_query doi ++ url_query url ++ firstn 1 (source_queries query))
  \/ (status r = VERIFIED /\ confidence r = 85%Q /\ source r = Some (lit "CrossRef")
      /\ search_queries_used r
         = doi_query doi ++ url_query url ++ firstn 2 (source_queries query))
  \/ (status r = VERIFIED /\ confidence r = 80%Q /\ source r = Some (lit "arXiv")
      /\ search_queries_used r
         = doi_query doi ++ url_query url ++ source_queries query)
  \/ (status r = NOT_FOUND /\ confidence r = 0%Q /\ source r = None
      /\ error_message r = Some (lit "Citation not found in any source: " ++ query)
      /\ search_queries_used r
         = doi_query doi ++ url_query url ++ source_queries query).

Ltac use_answer H :=
  let Hq := fresh "Hq" in
  let Hs := fresh "Hs" in
  let Hc := fresh "Hc" in
  let Hsrc := fresh "Hsrc" in
  destruct H as (Hq & [(Hs & Hc & Hsrc)|[(Hs & Hc)|(? & Hs)]]);
  rewrite ?Hs; cbn [status_eqb]; try discriminate.

(** The part of [validate] after the URL check, and the part after the DOI
    check, under names of their own. *)
Definition searches (query : str) (search_queries : list str) (w : W)
  : ValidationResult * W :=
  let (result, w) := _search_semantic_scholar net query w in
  let search_queries := search_queries ++ search_queries_used result in
  if status_eqb (status result) VERIFIED then (set_queries result search_queries, w)
  else
    let (result, w) := _search_crossref net query w in
    let search_queries := search_queries ++ search_queries_used result in
    if status_eqb (status result) VERIFIED
    then (set_queries result search_queries, w)
    else
      let not_found (search_queries : list str) :=
        mkValidation NOT_FOUND 0 None None None None
                     (Some (lit "Citation not found in any source: " ++ query))
                     search_queries in
      if contains (lit "arxiv") (lower query)
         || negb (status_eqb (status result) VERIFIED)
      then
        let (arxiv_result, w) := _search_arxiv net query w in
        let search_queries := search_queries ++ search_queries_used arxiv_result in
        if status_eqb (status arxiv_result) VERIFIED
        then (set_queries arxiv_result search_queries, w)
        else (not_found search_queries, w)
      else (not_found search_queries, w).

Definition from_url (query : str) (url : option str) (search_queries : list str)
           (w : W) : ValidationResult * W :=
  match url with
  | Some ((_ :: _) as u) =>
      let (result, w) := _validate_url net u w in
      if status_eqb (status result) VERIFIED then (result, w)
      else searches query (search_queries ++ search_queries_used result) w
  | _ => searches query search_queries w
  end.

Lemma validate_steps (query : str) (doi url : option str) (w : W) :
  validate net query doi url w
  = match doi with
    | Some ((_ :: _) as d) =>
        let (result, w) := _validate_doi net d w in
        if status_eqb (status result) VERIFIED then (result, w)
        else from_url query url ([] ++ search_queries_used result) w
    | _ => from_url query url [] w
    end.
Proof. reflexivity. Qed.

Lemma searches_validated (query : str) (doi url : option str)
      (search_queries : list str) (w : W) :
  search_queries = doi_query doi ++ url_query url ->
  validated query doi url (fst (searches query search_queries w)).
Proof.
  intros ->. unfold validated, source_queries, searches.
  pose proof (_search_semantic_scholar_answers query w) as Hss.
  destruct (_search_semantic_scholar net query w) as [r1 w1]. cbn [fst] in Hss.
  use_answer Hss.
  { cbn [fst set_queries status confidence source search_queries_used firstn].
    rewrite Hq, <- app_assoc. do 2 right. left. auto. }
  pose proof (_search_crossref_answers query w1) as Hcr.
  destruct (_search_crossref net query w1) as [r2 w2]. cbn [fst] in Hcr.
  use_answer Hcr.
  { cbn [fst set_queries status confidence source search_queries_used firstn].
    rewrite Hq, Hq0, <- !app_assoc. do 3 right. left. auto. }
  cbn [negb]. rewrite orb_true_r.
  pose proof (_search_arxiv_answers query w2) as Hax.
  destruct (_search_arxiv net query w2) as [r3 w3]. cbn [fst] in Hax.
  use_answer Hax;
    cbn [fst set_queries status confidence source search_queries_used
         error_message];
    rewrite Hq, Hq0, Hq1, <- !app_assoc.
  - do 4 right. left. auto.
  - do 5 right. auto 6.
Qed.

Lemma from_url_validated (query : str) (doi url : option str)
      (search_queries : list str) (w : W) :
  search_queries = doi_query doi ->
  validated query doi url (fst (from_url query url search_queries w)).
Proof.
  intros ->. unfold from_url. destruct url as [[|c u]|].
  - apply searches_validated. cbn [url_query]. rewrite app_nil_r. reflexivity.
  - pose proof (_validate_url_answers (c :: u) w) as Hu.
    destruct (_validate_url net (c :: u) w) as [r w1]. cbn [fst] in Hu.
    destruct Hu as (Hq & [(Hs & Hc & Hsrc)|[(Hs & Hc)|(_ & Hs)]]);
      rewrite Hs; cbn [status_eqb].
    + right. left. cbn [fst truthy url_query]. auto 6.
    + apply searches_validated. rewrite Hq. reflexivity.
    + apply searches_validated. rewrite Hq. reflexivity.
  - apply searches_validated. cbn [url_query]. rewrite app_nil_r. reflexivity.
Qed.

Lemma validate_validated (query : str) (doi url : option str) (w : W) :
  validated query doi url (fst (validate net query doi url w)).
Proof.
  rewrite validate_steps. destruct doi as [[|c d]|].
  - apply from_url_validated. reflexivity.
  - pose proof (_validate_doi_answers (c :: d) w) as Hd.
    destruct (_validate_doi net (c :: d) w) as [r w1]. cbn [fst] in Hd.
    destruct Hd as (Hq & [(Hs & Hc & Hsrc)|[(Hs & Hc)|(Hf & _)]]);
      [| |discriminate]; rewrite Hs; cbn [status_eqb].
    + left. cbn [fst truthy doi_query]. auto 6.
    + apply from_url_validated. rewrite Hq. reflexivity.
  - apply from_url_validated. reflexivity.
Qed.

End Validator.

End WebSourcesFacts.

Module WebSourcesTheorems.
Import PyStr Re Eff Extractor WebValidator WebSources WebSourcesFacts MoatEngine
       MoatFacts MoatShape.

(** X17. [validate] gives only the statuses VERIFIED and NOT_FOUND, also when
    the URL check answered PARTIAL_MATCH (status 403): that answer is passed
    over like a failure. A verified result has the confidence of the
    strategy that found it, 100, 90, 85 or 80; a result NOT_FOUND has
    confidence 0, the message of [validate] and no source. *)
Theorem validate_status (W : Type) (net : Network W) (query : str)
        (doi url : option str) (w : W) :
  let r := fst (WebSources.validate net query doi url w) in
  (status r = VERIFIED
   /\ (WebValidator.confidence r = 100 \/ WebValidator.confidence r = 90
       \/ WebValidator.confidence r = 85
       \/ WebValidator.confidence r = 80)%Q)
  \/ (status r = NOT_FOUND
      /\ WebValidator.confidence r = 0%Q
      /\ source r = None
      /\ error_message r
         = Some (lit "Citation not found in any source: " ++ query)).
Proof.
  cbv zeta. pose proof (validate_validated net query doi url w) as H.
  unfold validated in H.
  destruct H as [H|[H|[H|[H|[H|H]]]]];
    [left|left|left|left|left|right]; intuition auto.
Qed.

(** X18. The queries a result of [validate] lists. A result verified by the
    DOI check lists the DOI query alone, one verified by the URL check the
    URL query alone, without the DOI query made before it. A result of one
    of the three searches lists every query made up to it, in order, and a
    result NOT_FOUND lists them all: the DOI query for a non-empty DOI, the
    URL query for a non-empty URL, then Semantic Scholar, CrossRef and arXiv,
    which is searched whether or not the query mentions it. *)
Theorem validate_queries_used (W : Type) (net : Network W) (query : str)
        (doi url : option str) (w : W) :
  let r := fst (WebSources.validate net query doi url w) in
  let made := doi_query doi ++ url_query url in
  (source r = Some (lit "DOI.org")
   /\ search_queries_used r = [lit "DOI: " ++ match doi with Some d => d | None => [] end])
  \/ (source r = Some (lit "Direct URL")
      /\ search_queries_used r
         = [lit "URL: " ++ match url with Some u => u | None => [] end])
  \/ (source r = Some (lit "Semantic Scholar")
      /\ search_queries_used r = made ++ [lit "Semantic Scholar: " ++ query])
  \/ (source r = Some (lit "CrossRef")
      /\ search_queries_used r
         = made ++ [lit "Semantic Scholar: " ++ query; lit "CrossRef: " ++ query])
  \/ ((source r = Some (lit "arXiv") \/ status r = NOT_FOUND)
      /\ search_queries_used r
         = made ++ [lit "Semantic Scholar: " ++ query; lit "CrossRef: " ++ query;
                    lit "arXiv: " ++ query]).
Proof.
  cbv zeta. pose proof (validate_validated net query doi url w) as H.
  unfold validated, source_queries in H. cbn [firstn] in H.
  destruct H as [H|[H|[H|[H|[H|H]]]]].
  - left. destruct H as (_ & _ & Hs & Ht & Hq). split; [exact Hs|].
    rewrite Hq. destruct doi as [[|c d]|]; try discriminate. reflexivity.
  - right. left. destruct H as (_ & _ & Hs & Ht & Hq). split; [exact Hs|].
    rewrite Hq. destruct url as [[|c u]|]; try discriminate. reflexivity.
  - do 2 right. left. destruct H as (_ & _ & Hs & Hq).
    rewrite Hq, app_assoc. auto.
  - do 3 right. left. destruct H as (_ & _ & Hs & Hq).
    rewrite Hq, app_assoc. auto.
  - do 4 right. destruct H as (_ & _ & Hs & Hq). rewrite Hq, app_assoc. auto.
  - do 4 right. destruct H as (Hs & _ & _ & _ & Hq). rewrite Hq, app_assoc. auto.
Qed.

Lemma count_of_none (d : MoatDecision) (vs : list CitationVerification) :
  Forall (fun v => decision v <> d) vs -> count_of d vs = 0%Z.
Proof.
  intros H. unfold count_of.
  induction H as [|v vs Hv _ IH]; [reflexivity|].
  cbn [filter]. destruct (decision v), d; try exact IH; congruence.
Qed.

(** X19. A moat engine whose web validator is [validate] never decides
    MODIFY: [verify_text] returns a report with [modified_count] 0, in which
    every citation is kept, flagged or deleted, and deleted only in strict
    mode. *)
Theorem verify_text_over_web_sources
        (W : Type) (net : Network W) (agent_a agent_b : option (CitationAgent W))
        (strict : bool) (resolver : str -> W -> DOIMetadata * W)
        (text : str) (w : W) :
  let self := mkEngine agent_a agent_b strict (WebSources.validate net) resolver in
  exists report w',
    verify_text self text w = (Returned report, w')
    /\ modified_count report = 0%Z
    /\ Forall (fun v => decision v = KEEP \/ decision v = FLAG
                        \/ (decision v = DELETE /\ strict = true))
              (verifications report).
Proof.
  cbv zeta.
  set (self := mkEngine agent_a agent_b strict (WebSources.validate net) resolver).
  destruct (verify_text_shaped self text w)
    as (report & w' & Hrun & Hshaped & _ & _ & _ & _ & Hmod & _).
  exists report, w'. split; [exact Hrun|].
  assert (Hall : Forall (fun v => decision v = KEEP \/ decision v = FLAG
                                  \/ (decision v = DELETE /\ strict = true))
                        (verifications report)).
  { clear - Hshaped.
    induction Hshaped as [|c v cs vs Hv _ IH]; constructor; [|exact IH].
    destruct Hv as ((_ & _ & web & Hweb & Hdec) & (w0 & Hsrc) & _).
    rewrite Hweb in Hsrc. injection Hsrc as ->.
    rewrite Hdec. cbn [strict_mode self MoatEngine.validate].
    destruct (validate_validated net (to_search_query c) (doi c) (url c) w0)
      as [H|[H|[H|[H|[H|H]]]]]; destruct H as (Hs & _); rewrite Hs;
      cbn [table_decision];
      try (destruct (agent_a_verified v && agent_b_verified v); auto);
      destruct strict; auto. }
  split; [|exact Hall].
  rewrite Hmod. apply count_of_none.
  eapply Forall_impl; [|exact Hall].
  intros v [H|[H|(H & _)]]; rewrite H; discriminate.
Qed.

End WebSourcesTheorems.

Module RevisionTheorems.
Import PyStr Eff Voting AdaptiveDebate VotingFacts ConsensusTheorems ScoreTheorems.
Local Open Scope Q_scope.

(** X20. A revision is requested only for a failed vote, and the prompt
    [_request_revision] then builds names at least one criterion: the
    weights of the criteria add up to 1, so a weighted average below the
    pass threshold leaves some criterion below it. The criteria named are
    those [get_failed_criteria] gives for the engine's pass threshold. *)
Theorem _request_revision_names_a_criterion
        (W : Type) (self : AdaptiveDebateEngine W) (current_position position : str) :
  let voting_result := _run_voting self position in
  passed voting_result = false ->
  exists failed,
    failed <> []
    /\ failed = get_failed_criteria voting_result (pass_threshold (voting_engine self))
    /\ _request_revision self current_position voting_result
       = generate_response (proponent self)
                           (mkPrompt failed current_position voting_result).
Proof.
  cbv zeta. unfold _run_voting. intros Hfail.
  eexists. split; [|split; reflexivity].
  rewrite vote_passed in Hfail. apply Qge_bool_false in Hfail.
  rewrite vote_weighted_average in Hfail.
  unfold get_failed_criteria.
  rewrite (proj1 (vote_scores (voting_engine self) position)).
  cbn [map filter snd fst].
  repeat match goal with
    | |- context [Qle_bool ?a ?b] =>
        let E := fresh "E" in
        destruct (Qle_bool a b) eqn:E;
        [apply Qle_bool_iff in E | cbn [negb map]; discriminate]
    end.
  exfalso. lra.
Qed.

Lemma _request_revision_names_a_criterion_witness :
  let engine :=
    AdaptiveDebate.init (mkEnviron None None None None)
                        (Scripted.web WebValidator.NOT_FOUND) Scripted.unresolved
                        (Scripted.proponent "x" "y") (Scripted.reviewer "z")
                        None None 3 in
  exists failed,
    failed <> []
    /\ _request_revision engine (lit "x") (_run_voting engine (lit "x"))
       = generate_response (proponent engine)
                           (mkPrompt failed (lit "x") (_run_voting engine (lit "x"))).
Proof.
  cbv zeta.
  set (engine := AdaptiveDebate.init _ _ _ _ _ _ _ _).
  destruct (@_request_revision_names_a_criterion _ engine (lit "x") (lit "x"))
    as (failed & Hne & _ & Hreq).
  - vm_compute. reflexivity.
  - exists failed. split; assumption.
Defined.

End RevisionTheorems.

(** ** The fields of the citations [extract_all] returns *)

Module ExtractorFieldFacts.
Import PyStr Re ReFacts Extractor ExtractorFacts.

(** What [_create_citation] fills in for each kind of citation. *)
Definition fields_of (text : str) (c : ExtractedCitation) : Prop :=
  raw_text c = slice (c_start c) (c_end c) text
  /\ match citation_type c with
     | AUTHOR_YEAR => doi c = None /\ url c = None /\ number c = None
     | NUMBERED => authors c = None /\ year c = None /\ doi c = None /\ url c = None
     | DOI =>
         authors c = None /\ year c = None /\ url c = None /\ number c = None
         /\ exists d, doi c = Some d /\ hd_error (rev d) <> Some "."%char
     | URL =>
         authors c = None /\ year c = None /\ doi c = None /\ number c = None
         /\ url c = Some (raw_text c)
     | UNKNOWN => False
     end.

Lemma lstrip_by_head (p : ascii -> bool) (s : str) (c : ascii) :
  hd_error (lstrip_by p s) = Some c -> p c = false.
Proof.
  induction s as [|a s IH]; cbn [lstrip_by]; [discriminate|].
  destruct (p a) eqn:E; [exact IH|]. cbn. intros H. injection H as <-. exact E.
Qed.

Lemma rstrip_by_last (p : ascii -> bool) (s : str) (c : ascii) :
  hd_error (rev (rstrip_by p s)) = Some c -> p c = false.
Proof. unfold rstrip_by. rewrite rev_involutive. apply lstrip_by_head. Qed.

Lemma _create_citation_fields (text : str) (ctype : CitationType)
      (patterns : list re) (r : re) (m : rmatch) :
  In (ctype, patterns) PATTERNS -> In r patterns -> In m (finditer r text) ->
  fields_of text (_create_citation r m ctype).
Proof.
  intros Hp Hr Hm.
  pose proof (patterns_consuming _ Hp Hr) as Hcons.
  destruct (finditer_spans _ _ _ Hcons Hm) as (Hsub & _).
  assert (Hraw : or_empty (group m 0) = slice (m_start m) (m_end m) text)
    by (cbn [group or_empty]; rewrite Hsub; reflexivity).
  unfold fields_of.
  cbn in Hp.
  repeat (destruct Hp as [Hp|Hp]; [injection Hp as <- <-|]); try contradiction.
  - (* AUTHOR_YEAR: each pattern has two groups *)
    assert (Hg : exists g0 g1 gs, groups r m = g0 :: g1 :: gs).
    { cbn in Hr. repeat (destruct Hr as [<-|Hr]; [do 3 eexists; reflexivity|]).
      contradiction. }
    destruct Hg as (g0 & g1 & gs & Hg).
    unfold _create_citation. rewrite Hg.
    cbn [raw_text citation_type c_start c_end position fst snd doi url number].
    split; [exact Hraw | auto].
  - unfold _create_citation.
    cbn [raw_text citation_type c_start c_end position fst snd authors year doi url].
    split; [exact Hraw | auto].
  - unfold _create_citation.
    cbn [raw_text citation_type c_start c_end position fst snd authors year doi url
         number].
    split; [exact Hraw|]. repeat (split; [reflexivity|]).
    eexists. split; [reflexivity|].
    intros H. apply rstrip_by_last in H. discriminate.
  - unfold _create_citation.
    cbn [raw_text citation_type c_start c_end position fst snd authors year doi url
         number].
    split; [exact Hraw|]. repeat (split; [reflexivity|]). reflexivity.
Qed.

Lemma extract_all_fields (text : str) :
  Forall (fields_of text) (extract_all text).
Proof.
  apply Forall_forall. intros c Hc.
  destruct (extract_all_spans text) as (_ & _ & _ & Hin).
  destruct (in_scan_all _ _ (Hin c Hc)) as (ctype & patterns & r & m & H1 & H2 & H3 & ->).
  eapply _create_citation_fields; eassumption.
Qed.

Lemma length_slice (i j : nat) (s : str) :
  j <= List.length s -> List.length (slice i j s) = j - i.
Proof. intros H. unfold slice. rewrite length_firstn, length_skipn. lia. Qed.

End ExtractorFieldFacts.

Module ExtractorFieldTheorems.
Import PyStr Re ReFacts Extractor ExtractorFacts ExtractorFieldFacts.

(** X21. Every citation [extract_all] returns has as [raw_text] the piece of
    the text between its two positions, which is not empty, and a type other
    than UNKNOWN. A URL citation has its raw text as [url] and no other
    field; a DOI citation has a [doi] that does not end in a full stop and no
    other field; a numbered citation has no authors, year, DOI or URL; an
    author-year citation has no DOI, URL or number. *)
Theorem extract_all_citation_fields (text : str) :
  Forall (fun c =>
            raw_text c = slice (c_start c) (c_end c) text
            /\ List.length (raw_text c) = c_end c - c_start c
            /\ 0 < List.length (raw_text c)
            /\ match citation_type c with
               | AUTHOR_YEAR => doi c = None /\ url c = None /\ number c = None
               | NUMBERED =>
                   authors c = None /\ year c = None /\ doi c = None /\ url c = None
               | DOI =>
                   authors c = None /\ year c = None /\ url c = None
                   /\ number c = None
                   /\ exists d, doi c = Some d /\ hd_error (rev d) <> Some "."%char
               | URL =>
                   authors c = None /\ year c = None /\ doi c = None
                   /\ number c = None /\ url c = Some (raw_text c)
               | UNKNOWN => False
               end)
         (extract_all text).
Proof.
  pose proof (extract_all_fields text) as Hf.
  destruct (extract_all_spans text) as (_ & _ & Hsp & _).
  rewrite Forall_forall in Hf, Hsp |- *. intros c Hc.
  destruct (Hf c Hc) as (Hraw & Hfields). pose proof (Hsp c Hc) as (Hlt & Hle).
  assert (Hlen : List.length (raw_text c) = c_end c - c_start c)
    by (rewrite Hraw; apply length_slice; exact Hle).
  split; [exact Hraw | split; [exact Hlen | split; [lia | exact Hfields]]].
Qed.

(** X22. The search query of an extracted citation: the raw text for a URL
    and for a numbered citation; for a DOI citation "DOI:" followed by the
    DOI, or the raw text should the cleaned DOI be empty. *)
Theorem extract_all_search_query (text : str) :
  Forall (fun c =>
            match citation_type c with
            | URL | NUMBERED => to_search_query c = raw_text c
            | DOI =>
                match doi c with
                | Some ((_ :: _) as d) => to_search_query c = lit "DOI:" ++ d
                | _ => to_search_query c = raw_text c
                end
            | _ => True
            end)
         (extract_all text).
Proof.
  pose proof (extract_all_fields text) as Hf.
  destruct (extract_all_spans text) as (_ & _ & Hsp & _).
  rewrite Forall_forall in Hf, Hsp |- *. intros c Hc.
  destruct (Hf c Hc) as (Hraw & Hfields). pose proof (Hsp c Hc) as (Hlt & Hle).
  assert (Hlen : List.length (raw_text c) = c_end c - c_start c)
    by (rewrite Hraw; apply length_slice; exact Hle).
  unfold to_search_query.
  destruct (citation_type c); try exact I.
  - destruct Hfields as (Ha & Hy & Hd & Hu). rewrite Hd, Ha, ?Hy, Hu. reflexivity.
  - destruct Hfields as (Ha & Hy & Hu & _ & d & Hd & _).
    rewrite Hd, Ha, ?Hy, ?Hu. destruct d; reflexivity.
  - destruct Hfields as (Ha & Hy & Hd & _ & Hu). rewrite Hd, Ha, ?Hy, Hu.
    destruct (raw_text c); [cbn in Hlen; lia | reflexivity].
Qed.

End ExtractorFieldTheorems.

Module ExtractorContextTheorems.
Import PyStr Extractor ExtractorFacts ExtractorFieldFacts ExtractorContext.

Lemma slice_slice (i j a b : nat) (s : str) :
  i + b <= j ->
  slice a b (slice i j s) = slice (i + a) (i + b) s.
Proof.
  intros H. unfold slice.
  rewrite skipn_firstn_comm, firstn_firstn, skipn_skipn.
  rewrite (Nat.add_comm a i). f_equal. lia.
Qed.

(** X23. For a non-negative [context_chars], [extract_with_context] pairs
    each citation of [extract_all], in the same order, with the piece of the
    text that reaches [context_chars] characters to either side of it, cut at
    the ends of the text. The raw text of the citation lies in that piece,
    after the characters taken in front of it, and the piece is at most
    twice [context_chars] longer than the raw text. *)
Theorem extract_with_context_window (text : str) (context_chars : Z) :
  (0 <= context_chars)%Z ->
  let k := Z.to_nat context_chars in
  map fst (extract_with_context text context_chars) = extract_all text
  /\ Forall (fun entry : ExtractedCitation * str =>
               let (c, context) := entry in
               let front := Nat.min (c_start c) k in
               context = slice (c_start c - k)
                               (Nat.min (List.length text) (c_end c + k)) text
               /\ slice front (front + List.length (raw_text c)) context = raw_text c
               /\ List.length (raw_text c) <= List.length context
                  <= List.length (raw_text c) + 2 * k)
            (extract_with_context text context_chars).
Proof.
  intros Hk. cbv zeta. unfold extract_with_context. split.
  - rewrite map_map. cbn [fst]. apply map_id.
  - apply Forall_map.
    pose proof (extract_all_fields text) as Hf.
    destruct (extract_all_spans text) as (_ & _ & Hsp & _).
    rewrite Forall_forall in Hf, Hsp |- *. intros c Hc.
    destruct (Hf c Hc) as (Hraw & _). pose proof (Hsp c Hc) as (Hlt & Hle).
    assert (Hlen : List.length (raw_text c) = c_end c - c_start c)
      by (rewrite Hraw; apply length_slice; exact Hle).
    set (k := Z.to_nat context_chars).
    assert (Hctx : slice_Z (Z.max 0 (Z.of_nat (c_start c) - context_chars))
                           (Z.min (Z.of_nat (List.length text))
                                  (Z.of_nat (c_end c) + context_chars)) text
                   = slice (c_start c - k)
                           (Nat.min (List.length text) (c_end c + k)) text).
    { unfold slice_Z, bound.
      destruct (Z.ltb_spec (Z.max 0 (Z.of_nat (c_start c) - context_chars)) 0);
        [lia|].
      destruct (Z.ltb_spec (Z.min (Z.of_nat (List.length text))
                                  (Z.of_nat (c_end c) + context_chars)) 0); [lia|].
      f_equal; unfold k; lia. }
    cbv beta iota zeta. rewrite Hctx. clear Hctx. clearbody k.
    split; [reflexivity|]. split.
    + rewrite slice_slice by (clear - Hlt Hle Hlen; lia).
      rewrite Hraw at 2. f_equal; clear - Hlt Hle Hlen; lia.
    + rewrite length_slice by (clear - Hlt Hle Hlen; lia).
      clear - Hlt Hle Hlen; lia.
Qed.

Lemma extract_with_context_window_witness :
  map snd (extract_with_context (lit "as shown in [12], twice") 4)
  = [lit " in [12], tw"]
  /\ map fst (extract_with_context (lit "as shown in [12], twice") 4)
     = extract_all (lit "as shown in [12], twice").
Proof.
  split; [vm_compute; reflexivity|].
  exact (proj1 (@extract_with_context_window (lit "as shown in [12], twice") 4%Z
                  ltac:(lia))).
Defined.

End ExtractorContextTheorems.

(** ** The feedback texts *)

Module FeedbackTheorems.
Import PyStr MoatEngine Scoring Voting Feedback ScoreTheorems VotingFacts
       ConsensusTheorems.
Local Open Scope Q_scope.

Lemma clamp01_floor (a x : Q) : 0 <= a <= 1 -> a <= x -> a <= clamp01 x.
Proof.
  intros (H0 & H1) Hx. unfold clamp01.
  apply Q.min_glb; [exact H1|].
  eapply Qle_trans; [exact Hx | apply Q.le_max_r].
Qed.

Lemma of_nat_nonneg (n : nat) : 0 <= Scoring.of_nat n.
Proof.
  unfold Scoring.of_nat. change 0 with (inject_Z 0). rewrite <- Zle_Qle. lia.
Qed.

Lemma _score_methodology_floor (proponent_response : str) :
  0.6 <= _score_methodology proponent_response.
Proof.
  unfold _score_methodology. cbv zeta.
  match goal with
  | |- context [Scoring.of_nat ?n] =>
      pose proof (of_nat_nonneg n) as H; generalize dependent (Scoring.of_nat n)
  end.
  intros q Hq.
  match goal with
  | |- context [if ?c then _ else _] => destruct c
  end; (apply clamp01_floor; [split; discriminate | lra]).
Qed.

Lemma _score_clarity_floor (proponent_response : str) :
  0.6 <= _score_clarity proponent_response.
Proof.
  unfold _score_clarity. cbv zeta.
  match goal with
  | |- context [Scoring.of_nat ?n] =>
      pose proof (of_nat_nonneg n) as H; generalize dependent (Scoring.of_nat n)
  end.
  intros q Hq.
  repeat match goal with
    | |- context [if ?c then _ else _] => destruct c
    end; (apply clamp01_floor; [split; discriminate | lra]).
Qed.

Lemma Qlt_bool_false (a b : Q) : b <= a -> Feedback.Qlt_bool a b = false.
Proof.
  intros H. unfold Feedback.Qlt_bool. apply Qle_bool_iff in H. rewrite H. reflexivity.
Qed.

(** X24. In the [RoundScore] of [score_round] the methodology and the
    clarity score are at least 0.6, so [generate_feedback] never gives its
    messages about methodology and clarity for it: the feedback is made of
    the messages about accuracy, evidence and logic, or is the message of
    good performance. *)
Theorem generate_feedback_of_score_round
        (proponent_response reviewer_response : str)
        (citation_report : option MoatReport) :
  let score := score_round proponent_response reviewer_response citation_report in
  0.6 <= methodology score
  /\ 0.6 <= clarity score
  /\ generate_feedback score
     = generate_feedback (mkRoundScore (accuracy score) (evidence score)
                                       (logic score) 1 1)
  /\ Forall (fun line =>
               In line
                  [lit "Accuracy needs improvement. Verify factual claims.";
                   lit "Evidence is weak. Add more citations from credible sources.";
                   lit "Logical coherence is lacking. Strengthen argument structure.";
                   lit "Good performance across all criteria."])
            (feedback_of score).
Proof.
  cbv zeta. unfold score_round.
  cbn [methodology clarity accuracy evidence logic].
  pose proof (_score_methodology_floor proponent_response) as Hm.
  pose proof (_score_clarity_floor proponent_response) as Hc.
  split; [exact Hm | split; [exact Hc|]].
  unfold generate_feedback, feedback_of.
  cbn [methodology clarity accuracy evidence logic].
  rewrite (Qlt_bool_false Hm), (Qlt_bool_false Hc).
  assert (H1 : Feedback.Qlt_bool 1 0.6 = false) by reflexivity.
  rewrite H1. split; [reflexivity|].
  destruct (Feedback.Qlt_bool (_score_accuracy citation_report reviewer_response) 0.6),
    (Feedback.Qlt_bool (_score_evidence proponent_response citation_report) 0.6),
    (Feedback.Qlt_bool (_score_logic proponent_response reviewer_response) 0.6);
    cbn [app];
    repeat match goal with
      | |- Forall _ (_ :: _) => apply Forall_cons
      | |- Forall _ [] => apply Forall_nil
      end; cbn [In]; auto 6.
Qed.

Definition graded (criterion grade : string) : str :=
  capitalize (lit criterion) ++ lit (": " ++ grade).

(** X25. The feedback [_vote_criterion] attaches to a vote, by criterion,
    whatever the position: for evidence it is never "Significant issues"; for
    logic and clarity it is never "Excellent"; for methodology it is "Good" or
    "Needs improvement". *)
Theorem _criterion_feedback_by_criterion (position : str) :
  let feedback criterion :=
    _criterion_feedback criterion (_analyze_criterion criterion position) in
  In (feedback "evidence"%string)
     [graded "evidence" "Excellent"; graded "evidence" "Good";
      graded "evidence" "Needs improvement"]
  /\ In (feedback "logic"%string)
        [graded "logic" "Good"; graded "logic" "Needs improvement";
         graded "logic" "Significant issues"]
  /\ In (feedback "methodology"%string)
        [graded "methodology" "Good"; graded "methodology" "Needs improvement"]
  /\ In (feedback "clarity"%string)
        [graded "clarity" "Good"; graded "clarity" "Needs improvement";
         graded "clarity" "Significant issues"].
Proof.
  cbv zeta. unfold _criterion_feedback.
  pose proof (evidence_range position) as (He1 & He2).
  pose proof (logic_range position) as (Hl1 & Hl2).
  pose proof (methodology_range position) as (Hm1 & Hm2).
  pose proof (clarity_range position) as (Hc1 & Hc2).
  assert (Hge : forall a b, b <= a -> Qge_bool a b = true)
    by (intros; apply Qge_bool_true; assumption).
  assert (Hlt : forall a b, a < b -> Qge_bool a b = false)
    by (intros; apply Qge_bool_false; assumption).
  split; [|split; [|split]].
  - rewrite (Hge _ 60 He1).
    destruct (Qge_bool _ 85); [left; reflexivity|].
    destruct (Qge_bool _ 75); cbn [In]; auto.
  - rewrite (Hlt (_analyze_criterion "logic" position) 85) by lra.
    destruct (Qge_bool _ 75); [left; reflexivity|].
    destruct (Qge_bool _ 60); cbn [In]; auto.
  - rewrite (Hlt (_analyze_criterion "methodology" position) 85) by lra.
    rewrite (Hge _ 60 Hm1).
    destruct (Qge_bool _ 75); cbn [In]; auto.
  - rewrite (Hlt (_analyze_criterion "clarity" position) 85) by lra.
    destruct (Qge_bool _ 75); [left; reflexivity|].
    destruct (Qge_bool _ 60); cbn [In]; auto.
Qed.

(** X26. The status of the votes, by the pass threshold of the engine: with
    a threshold of at most 600/7 (the default is 75) the votes on evidence
    and on methodology are never FAIL; with a threshold above 90 no vote is
    PASS. *)
Theorem vote_status_by_threshold (self : VotingEngine) (position : str) :
  let status_of criterion :=
    Voting.status (_vote_criterion self criterion "" position) in
  (pass_threshold self * 0.7 <= 60 ->
   status_of "evidence"%string <> FAIL /\ status_of "methodology"%string <> FAIL)
  /\ (90 < pass_threshold self ->
      Forall (fun v => Voting.status v <> PASS)
             (criterion_votes (vote self position))).
Proof.
  cbv zeta. split.
  - intros Ht. unfold _vote_criterion. cbn [Voting.status].
    pose proof (evidence_range position) as (He & _).
    pose proof (methodology_range position) as (Hm & _).
    assert (He' : Qge_bool (_analyze_criterion "evidence" position)
                           (pass_threshold self * 0.7) = true)
      by (apply Qge_bool_true; lra).
    assert (Hm' : Qge_bool (_analyze_criterion "methodology" position)
                           (pass_threshold self * 0.7) = true)
      by (apply Qge_bool_true; lra).
    rewrite He', Hm'.
    split; destruct (Qge_bool _ (pass_threshold self)); cbv beta iota; congruence.
  - intros Ht. rewrite vote_votes.
    pose proof (accuracy_range position) as (_ & Ha).
    pose proof (evidence_range position) as (_ & He).
    pose proof (logic_range position) as (_ & Hl).
    pose proof (methodology_range position) as (_ & Hm).
    pose proof (clarity_range position) as (_ & Hc).
    cbn [map]. unfold _vote_criterion. cbn [Voting.status].
    repeat match goal with
      | |- Forall _ (_ :: _) => apply Forall_cons
      | |- Forall _ [] => apply Forall_nil
      end;
      cbv beta; cbn [Voting.status];
      match goal with
      | |- context [Qge_bool ?a (pass_threshold self)] =>
          let E := fresh in
          assert (E : Qge_bool a (pass_threshold self) = false)
            by (apply Qge_bool_false; lra);
          rewrite E
      end;
      match goal with
      | |- context [if ?c then _ else _] => destruct c
      end; congruence.
Qed.

End FeedbackTheorems.

(** ** Finding a DOI: which pattern decides *)

Module SearchFacts.
Import PyStr Re ReFacts WebSources.

(** The character before a position [pre] characters into a scan that
    started after [before]. *)
Definition prev_of (before : option ascii) (pre : str) : option ascii :=
  match rev pre with
  | [] => before
  | c :: _ => Some c
  end.

Lemma prev_of_cons (before : option ascii) (c : ascii) (pre : str) :
  prev_of before (c :: pre) = prev_of (Some c) pre.
Proof.
  unfold prev_of. cbn [rev]. destruct (rev pre) as [|x l]; reflexivity.
Qed.

(** A scan that finds nothing has tried every position. *)
Lemma scan_nothing (r : re) (subject : str) :
  forall (suffix : str) (p : nat) (before : option ascii),
    scan r subject p before suffix 0 = [] ->
    forall pre suf,
      suffix = pre ++ suf ->
      match_at r subject (p + List.length pre) (prev_of before pre) suf = None.
Proof.
  induction suffix as [|c t IH]; intros p before Hscan pre suf Hsplit.
  - destruct pre; [|discriminate]. cbn in Hsplit. subst suf.
    cbn [scan] in Hscan. cbn [List.length prev_of rev]. rewrite Nat.add_0_r.
    destruct (match_at r subject p before []); [discriminate | reflexivity].
  - cbn [scan] in Hscan.
    destruct (match_at r subject p before (c :: t)) as [m|] eqn:E; [discriminate|].
    destruct pre as [|x pre].
    + cbn in Hsplit. subst suf. cbn [List.length prev_of rev].
      rewrite Nat.add_0_r. exact E.
    + cbn in Hsplit. injection Hsplit as <- Ht.
      rewrite prev_of_cons. cbn [List.length].
      replace (p + S (List.length pre)) with (S p + List.length pre) by lia.
      apply IH; assumption.
Qed.

(** A match of a scan was found at some position of the subject. *)
Lemma scan_found (r : re) (subject : str) :
  forall (suffix : str) (p : nat) (before : option ascii) (skip : nat) (m : rmatch),
    In m (scan r subject p before suffix skip) ->
    exists pre suf,
      suffix = pre ++ suf
      /\ match_at r subject (p + List.length pre) (prev_of before pre) suf = Some m.
Proof.
  induction suffix as [|c t IH]; intros p before skip m Hin; cbn [scan] in Hin.
  - destruct skip; [|contradiction].
    destruct (match_at r subject p before []) as [m'|] eqn:E; [|contradiction].
    destruct Hin as [<-|[]]. exists [], []. split; [reflexivity|].
    cbn [List.length prev_of rev]. rewrite Nat.add_0_r. exact E.
  - assert (Hlater : forall k,
               In m (scan r subject (S p) (Some c) t k) ->
               exists pre suf,
                 c :: t = pre ++ suf
                 /\ match_at r subject (p + List.length pre) (prev_of before pre) suf
                    = Some m).
    { intros k Hk. destruct (IH _ _ _ _ Hk) as (pre & suf & -> & Hm).
      exists (c :: pre), suf. split; [reflexivity|].
      rewrite prev_of_cons. cbn [List.length].
      replace (p + S (List.length pre)) with (S p + List.length pre) by lia.
      exact Hm. }
    destruct skip as [|k]; [|eauto].
    destruct (match_at r subject p before (c :: t)) as [m'|] eqn:E; [|eauto].
    destruct Hin as [<-|Hin]; [|eauto].
    exists [], (c :: t). split; [reflexivity|].
    cbn [List.length prev_of rev]. rewrite Nat.add_0_r. exact E.
Qed.

(** *** Patterns that end in another pattern *)

Inductive ends_in (q : re) : re -> Prop :=
| ends_here : ends_in q q
| ends_seq (a b : re) : ends_in q b -> ends_in q (Seq a b)
| ends_grp (n : nat) (a : re) : ends_in q a -> ends_in q (Grp n a).

Lemma flat_map_nonempty (A B : Type) (f : A -> list B) (l : list A) :
  flat_map f l <> [] -> exists a, In a l /\ f a <> [].
Proof.
  induction l as [|a l IH]; cbn [flat_map]; [congruence|].
  intros H. destruct (f a) as [|b bs] eqn:E.
  - destruct (IH H) as (a' & Hin & Hne). exists a'. split; [right; exact Hin | exact Hne].
  - exists a. split; [left; reflexivity | congruence].
Qed.

Lemma ends_in_run (q r : re) :
  ends_in q r ->
  forall s, run r s <> [] -> exists s', extends s s' /\ run q s' <> [].
Proof.
  induction 1 as [|a b _ IH|n a _ IH]; intros s Hne.
  - exists s. split; [apply extends_refl | exact Hne].
  - cbn [run] in Hne. apply flat_map_nonempty in Hne.
    destruct Hne as (s1 & Hin & Hne). destruct (IH _ Hne) as (s' & Hext & Hq).
    exists s'. split; [|exact Hq].
    eapply extends_trans; [eapply run_extends; exact Hin | exact Hext].
  - cbn [run] in Hne. apply IH.
    intros E. apply Hne. rewrite E. reflexivity.
Qed.

(** *** Patterns without a word boundary do not look behind *)

Fixpoint looks_behind (r : re) : bool :=
  match r with
  | Chr _ | Eps => false
  | Seq a b | Alt a b => looks_behind a || looks_behind b
  | Rep a _ _ | Grp _ a => looks_behind a
  | WordB => true
  end.

(** Two states at the same place of the subject. *)
Definition same_place (s s' : mstate) : Prop :=
  pos s = pos s' /\ rest s = rest s'.

Lemma Forall2_flat_map (A B : Type) (R : A -> A -> Prop) (S : B -> B -> Prop)
      (f g : A -> list B) (l l' : list A) :
  (forall a a', R a a' -> Forall2 S (f a) (g a')) ->
  Forall2 R l l' -> Forall2 S (flat_map f l) (flat_map g l').
Proof.
  intros Hf. induction 1 as [|a a' l l' Ha _ IH]; cbn [flat_map]; [constructor|].
  apply Forall2_app; auto.
Qed.

Lemma Forall2_filter (A : Type) (R : A -> A -> Prop) (p p' : A -> bool)
      (l l' : list A) :
  (forall a a', R a a' -> p a = p' a') ->
  Forall2 R l l' -> Forall2 R (filter p l) (filter p' l').
Proof.
  intros Hp. induction 1 as [|a a' l l' Ha _ IH]; cbn [filter]; [constructor|].
  rewrite (Hp _ _ Ha). destruct (p' a'); [constructor|]; assumption.
Qed.

Lemma rep_same_place (step : mstate -> list mstate) :
  (forall s s', same_place s s' -> Forall2 same_place (step s) (step s')) ->
  forall (fuel lo : nat) (hi : option nat) (s s' : mstate),
    same_place s s' ->
    Forall2 same_place (rep step fuel lo hi s) (rep step fuel lo hi s').
Proof.
  intros Hstep. induction fuel as [|f IH]; intros lo hi s s' Hs; cbn [rep].
  - destruct (lo =? 0);
      [apply Forall2_cons; [exact Hs | apply Forall2_nil] | apply Forall2_nil].
  - assert (Hstop : Forall2 same_place (if lo =? 0 then [s] else [])
                            (if lo =? 0 then [s'] else []))
      by (destruct (lo =? 0);
          [apply Forall2_cons; [exact Hs | apply Forall2_nil] | apply Forall2_nil]).
    destruct hi as [[|h]|]; try exact Hstop;
      (apply Forall2_app; [|exact Hstop]);
      (eapply Forall2_flat_map; [intros a a' Ha; apply IH; exact Ha|]);
      (apply Forall2_filter; [|apply Hstep; exact Hs]);
      intros a a' (Ha & _); destruct Hs as (Hp & _);
      unfold progressed; rewrite Ha, Hp; reflexivity.
Qed.

Lemma run_same_place (r : re) :
  looks_behind r = false ->
  forall s s', same_place s s' -> Forall2 same_place (run r s) (run r s').
Proof.
  induction r as [p| |a IHa b IHb|a IHa b IHb|a IHa lo hi|n a IHa|];
    intros Hr s s' Hs; cbn [looks_behind] in Hr; cbn [run]; try discriminate.
  - destruct Hs as (Hp & Hrest). rewrite <- Hrest.
    destruct (rest s) as [|c t]; [constructor|].
    destruct (p c); [|constructor].
    apply Forall2_cons; [|apply Forall2_nil]. split; cbn; congruence.
  - apply Forall2_cons; [exact Hs | apply Forall2_nil].
  - apply orb_false_iff in Hr. destruct Hr as (Ha & Hb).
    eapply Forall2_flat_map; [intros; apply IHb; eassumption | apply IHa; assumption].
  - apply orb_false_iff in Hr. destruct Hr as (Ha & Hb).
    apply Forall2_app; auto.
  - destruct Hs as (Hp & Hrest). rewrite <- Hrest.
    apply rep_same_place; [intros; apply IHa; assumption | split; assumption].
  - specialize (IHa Hr _ _ Hs). destruct Hs as (Hp & _).
    induction IHa as [|x y l l' (Hx & Hy) _ IH]; cbn [map]; constructor; auto.
    split; cbn; assumption.
Qed.

(** A pattern without groups leaves the captures as they were. *)
Lemma rep_caps (step : mstate -> list mstate) :
  (forall s s', In s' (step s) -> caps s' = caps s) ->
  forall (fuel lo : nat) (hi : option nat) (s s' : mstate),
    In s' (rep step fuel lo hi s) -> caps s' = caps s.
Proof.
  intros Hstep. induction fuel as [|f IH]; intros lo hi s s' Hin; cbn [rep] in Hin.
  - destruct (lo =? 0); [|contradiction]. destruct Hin as [<-|[]]. reflexivity.
  - assert (Hstop : In s' (if lo =? 0 then [s] else []) -> caps s' = caps s).
    { destruct (lo =? 0); [|contradiction]. intros [<-|[]]. reflexivity. }
    destruct hi as [[|h]|]; try (apply Hstop; exact Hin);
      (apply in_app_or in Hin; destruct Hin as [Hin|Hin]; [|apply Hstop; exact Hin]);
      apply in_flat_map in Hin; destruct Hin as (s1 & H1 & H2);
      apply filter_In in H1; destruct H1 as (H1 & _);
      rewrite (IH _ _ _ _ H2); apply Hstep; exact H1.
Qed.

Lemma run_caps (r : re) :
  ngroups r = 0 -> forall s s', In s' (run r s) -> caps s' = caps s.
Proof.
  induction r as [p| |a IHa b IHb|a IHa b IHb|a IHa lo hi|n a IHa|];
    intros Hr s s' Hin; cbn [ngroups] in Hr; cbn [run] in Hin; try discriminate.
  - destruct (rest s) as [|c t]; [contradiction|].
    destruct (p c); [|contradiction]. destruct Hin as [<-|[]]. reflexivity.
  - destruct Hin as [<-|[]]. reflexivity.
  - apply in_flat_map in Hin. destruct Hin as (s1 & H1 & H2).
    rewrite (IHb ltac:(lia) _ _ H2). apply IHa; [lia | exact H1].
  - apply in_app_or in Hin. destruct Hin as [Hin|Hin]; [apply IHa | apply IHb];
      (lia || exact Hin).
  - eapply rep_caps; [|exact Hin]. intros; apply IHa; assumption.
  - destruct (xorb _ _); [|contradiction]. destruct Hin as [<-|[]]. reflexivity.
Qed.

(** If a pattern that ends in [q] matches somewhere in a text, so does [q],
    provided [q] does not look behind. *)
Lemma search_ends_in (q r : re) (text : str) :
  ends_in q r -> looks_behind q = false ->
  search q text = None -> search r text = None.
Proof.
  intros Hends Hq Hnone. unfold search in *.
  destruct (finditer q text) as [|? ?] eqn:Eq; [|discriminate]. clear Hnone.
  destruct (finditer r text) as [|m ms] eqn:Er; [reflexivity|]. exfalso.
  assert (Hin : In m (finditer r text)) by (rewrite Er; left; reflexivity).
  unfold finditer in Hin, Eq.
  destruct (scan_found _ _ _ _ _ _ _ Hin) as (pre & suf & Hsplit & Hm).
  unfold match_at in Hm. cbn [Nat.add] in Hm.
  set (s := MState (List.length pre) (prev_of None pre) suf []) in Hm.
  assert (Hne : run r s <> []) by (destruct (run r s); [discriminate | congruence]).
  destruct (ends_in_run Hends _ Hne) as (s' & (consumed & Hrest & Hpos) & Hq').
  cbn [rest pos s] in Hrest, Hpos.
  assert (Hno : match_at q text (0 + List.length (pre ++ consumed))
                         (prev_of None (pre ++ consumed)) (rest s') = None).
  { eapply scan_nothing; [exact Eq|]. rewrite <- app_assoc, <- Hrest. exact Hsplit. }
  unfold match_at in Hno. cbn [Nat.add] in Hno.
  assert (Hsame : same_place s' (MState (List.length (pre ++ consumed))
                                        (prev_of None (pre ++ consumed)) (rest s') [])).
  { split; cbn [pos rest]; [rewrite length_app; exact Hpos | reflexivity]. }
  pose proof (run_same_place q Hq Hsame) as Hsim.
  destruct (run q s') as [|x xs]; [congruence|].
  inversion Hsim as [|? y ? ys _ _ E1 E2]. rewrite <- E2 in Hno. discriminate.
Qed.

End SearchFacts.

Module DOIResolverTheorems.
Import PyStr Re ReFacts Extractor ExtractorFacts ExtractorFieldFacts WebSources
       SearchFacts DOIResolver.

(** X27. [extract_doi] is decided by its first pattern, the bare DOI: when
    that pattern matches somewhere the result is the text of its first match
    without trailing punctuation, and when it matches nowhere the result is
    [None], since the patterns with the "doi:" label and with the doi.org
    link end in the bare pattern and cannot match either. A DOI returned
    never ends in one of the characters stripped. *)
Theorem extract_doi_first_pattern (text : str) :
  extract_doi text
  = match search doi_bare text with
    | Some m => Some (rstrip_by trailing (slice (m_start m) (m_end m) text))
    | None => None
    end
  /\ forall d c, extract_doi text = Some d ->
                 hd_error (rev d) = Some c -> trailing c = false.
Proof.
  assert (Hlab : ends_in doi_bare doi_labelled) by (repeat constructor).
  assert (Hlink : ends_in doi_bare doi_link) by (repeat constructor).
  assert (Hfirst :
            extract_doi text
            = match search doi_bare text with
              | Some m => Some (rstrip_by trailing (slice (m_start m) (m_end m) text))
              | None => None
              end).
  { unfold extract_doi, patterns. cbn [first_doi].
    destruct (search doi_bare text) as [m|] eqn:E.
    - unfold search in E.
      destruct (finditer doi_bare text) as [|m' ms] eqn:Ef; [discriminate|].
      injection E as ->.
      assert (Hin : In m (finditer doi_bare text)) by (rewrite Ef; left; reflexivity).
      destruct (finditer_spans doi_bare text m eq_refl Hin) as (Hsub & _).
      unfold finditer in Hin.
      destruct (scan_found _ _ _ _ _ _ _ Hin) as (pre & suf & _ & Hm).
      unfold match_at in Hm.
      set (s0 := MState (0 + List.length pre) (prev_of None pre) suf []) in Hm.
      destruct (run doi_bare s0) as [|s' l] eqn:Er; [discriminate|].
      assert (Hcaps : caps s' = caps s0)
        by (apply (@run_caps doi_bare eq_refl s0 s'); rewrite Er; left; reflexivity).
      cbn [caps s0] in Hcaps.
      injection Hm as <-. unfold lastindex. cbn [m_caps]. rewrite Hcaps.
      reflexivity.
    - rewrite (search_ends_in text Hlab eq_refl E).
      rewrite (search_ends_in text Hlink eq_refl E). reflexivity. }
  split; [exact Hfirst|].
  intros d c Hd Hc. rewrite Hfirst in Hd.
  destruct (search doi_bare text) as [m|]; [|discriminate].
  injection Hd as <-. exact (rstrip_by_last _ _ Hc).
Qed.

End DOIResolverTheorems.

(** ** The settings of the engines *)

Module SettingsTheorems.
Import PyStr Eff WebValidator MoatEngine Voting AdaptiveDebate.


End SettingsTheorems.
